(** * SDF model construction for the dartsim plugin (SDFFeatures.cc)

    A shallow embedding of [dartsim/src/SDFFeatures.cc]: the builders that
    turn an SDF world description into a tree of rigid bodies and joints.

    Conventions of the embedding.
    - The per-axis scalars that the code only copies, negates and compares
      with [0.0] (limits, damping, initial position, ...) are binary64
      floats, as in the source.
    - The scalars of the transform algebra (Eigen vectors, matrices and
      isometries) are real numbers: equalities between transforms are the
      exact-arithmetic reading of what the code computes up to rounding.
    - Pointers are indices into explicit object tables; [None] is [nullptr].
    - [std::cerr] is a list of reported messages, latest first. *)

From Stdlib Require Import Reals Lra RNsatz Floats ZArith Lia.
From stdpp Require Import base list gmap strings pretty.

(* ================================================================== *)
(** * Part I: definitions                                              *)
(* ================================================================== *)

(** ** Eigen: the fragment of the linear-algebra library the file uses *)
Module Eigen.
Local Open Scope R_scope.

Record Vector3d := mkV { vx : R; vy : R; vz : R }.

Record Matrix3d := mkM {
  m00 : R; m01 : R; m02 : R;
  m10 : R; m11 : R; m12 : R;
  m20 : R; m21 : R; m22 : R }.

(** [Eigen::Isometry3d]: a linear part and a translation. *)
Record Isometry3d := mkT { linear : Matrix3d; translation : Vector3d }.

Definition Zero3 : Vector3d := mkV 0 0 0.
Definition UnitZ : Vector3d := mkV 0 0 1.

Definition cross (a b : Vector3d) : Vector3d :=
  mkV (vy a * vz b - vz a * vy b)
      (vz a * vx b - vx a * vz b)
      (vx a * vy b - vy a * vx b).

Definition squaredNorm (a : Vector3d) : R :=
  vx a * vx a + vy a * vy a + vz a * vz a.

Definition norm (a : Vector3d) : R := R_sqrt.sqrt (squaredNorm a).

Definition vadd (a b : Vector3d) : Vector3d :=
  mkV (vx a + vx b) (vy a + vy b) (vz a + vz b).

Definition vscale (s : R) (a : Vector3d) : Vector3d :=
  mkV (s * vx a) (s * vy a) (s * vz a).

Definition vdiv (a : Vector3d) (s : R) : Vector3d :=
  mkV (vx a / s) (vy a / s) (vz a / s).

Definition MIdentity : Matrix3d := mkM 1 0 0  0 1 0  0 0 1.

Definition mopp (A : Matrix3d) : Matrix3d :=
  mkM (- m00 A) (- m01 A) (- m02 A)
      (- m10 A) (- m11 A) (- m12 A)
      (- m20 A) (- m21 A) (- m22 A).

Definition transpose (A : Matrix3d) : Matrix3d :=
  mkM (m00 A) (m10 A) (m20 A)
      (m01 A) (m11 A) (m21 A)
      (m02 A) (m12 A) (m22 A).

Definition mmul (A B : Matrix3d) : Matrix3d :=
  mkM (m00 A * m00 B + m01 A * m10 B + m02 A * m20 B)
      (m00 A * m01 B + m01 A * m11 B + m02 A * m21 B)
      (m00 A * m02 B + m01 A * m12 B + m02 A * m22 B)
      (m10 A * m00 B + m11 A * m10 B + m12 A * m20 B)
      (m10 A * m01 B + m11 A * m11 B + m12 A * m21 B)
      (m10 A * m02 B + m11 A * m12 B + m12 A * m22 B)
      (m20 A * m00 B + m21 A * m10 B + m22 A * m20 B)
      (m20 A * m01 B + m21 A * m11 B + m22 A * m21 B)
      (m20 A * m02 B + m21 A * m12 B + m22 A * m22 B).

Definition mvmul (A : Matrix3d) (v : Vector3d) : Vector3d :=
  mkV (m00 A * vx v + m01 A * vy v + m02 A * vz v)
      (m10 A * vx v + m11 A * vy v + m12 A * vz v)
      (m20 A * vx v + m21 A * vy v + m22 A * vz v).

Definition determinant (A : Matrix3d) : R :=
  m00 A * (m11 A * m22 A - m12 A * m21 A)
  - m01 A * (m10 A * m22 A - m12 A * m20 A)
  + m02 A * (m10 A * m21 A - m11 A * m20 A).

(** [A.inverse()] on a general 3x3 matrix: the adjugate over the
    determinant. *)
Definition minverse (A : Matrix3d) : Matrix3d :=
  let d := determinant A in
  mkM ((m11 A * m22 A - m12 A * m21 A) / d)
      ((m02 A * m21 A - m01 A * m22 A) / d)
      ((m01 A * m12 A - m02 A * m11 A) / d)
      ((m12 A * m20 A - m10 A * m22 A) / d)
      ((m00 A * m22 A - m02 A * m20 A) / d)
      ((m02 A * m10 A - m00 A * m12 A) / d)
      ((m10 A * m21 A - m11 A * m20 A) / d)
      ((m01 A * m20 A - m00 A * m21 A) / d)
      ((m00 A * m11 A - m01 A * m10 A) / d).

(** [Isometry3d::Identity()]. *)
Definition Isometry3d_Identity : Isometry3d := mkT MIdentity Zero3.

(** [A * B] on isometries. *)
Definition compose (A B : Isometry3d) : Isometry3d :=
  mkT (mmul (linear A) (linear B))
      (vadd (mvmul (linear A) (translation B)) (translation A)).

(** [A.inverse()] in [Isometry] mode: the linear part is transposed, not
    inverted, and the translation is [- linear^T * translation]. *)
Definition inverse (A : Isometry3d) : Isometry3d :=
  let Rt := transpose (linear A) in
  mkT Rt (mvmul (mopp Rt) (translation A)).

(** [A.rotation()] in [Isometry] mode. *)
Definition rotation (A : Isometry3d) : Matrix3d := linear A.

(** [Eigen::AngleAxisd] and its conversion to a rotation matrix. *)
Record AngleAxisd := mkAA { angle : R; axis : Vector3d }.

Definition toRotationMatrix (a : AngleAxisd) : Matrix3d :=
  let sin_axis := vscale (sin (angle a)) (axis a) in
  let c := cos (angle a) in
  let cos1_axis := vscale (1 - c) (axis a) in
  let t01 := vx cos1_axis * vy (axis a) in
  let t02 := vx cos1_axis * vz (axis a) in
  let t12 := vy cos1_axis * vz (axis a) in
  mkM (vx cos1_axis * vx (axis a) + c) (t01 - vz sin_axis) (t02 + vy sin_axis)
      (t01 + vz sin_axis) (vy cos1_axis * vy (axis a) + c) (t12 - vx sin_axis)
      (t02 - vy sin_axis) (t12 + vx sin_axis) (vz cos1_axis * vz (axis a) + c).

(** [T.rotate(a)]: the linear part is multiplied on the right. *)
Definition rotate (T : Isometry3d) (a : AngleAxisd) : Isometry3d :=
  mkT (mmul (linear T) (toRotationMatrix a)) (translation T).

(** [Eigen::Quaterniond], coefficients [w], [x], [y], [z]. *)
Record Quaterniond := mkQ { qw : R; qx : R; qy : R; qz : R }.

(** [Quaterniond{M}]: the conversion of a rotation matrix, by the largest
    of the trace and the diagonal entries. *)
Definition Quaterniond_of_matrix (M : Matrix3d) : Quaterniond :=
  let t := m00 M + m11 M + m22 M in
  if Rgt_dec t 0 then
    let t := R_sqrt.sqrt (t + 1) in
    let s := (1 / 2) / t in
    mkQ ((1 / 2) * t)
        ((m21 M - m12 M) * s) ((m02 M - m20 M) * s) ((m10 M - m01 M) * s)
  else
    let i := if Rgt_dec (m11 M) (m00 M) then 1%nat else 0%nat in
    let i := if Rgt_dec (m22 M) (match i with 0%nat => m00 M | _ => m11 M end)
             then 2%nat else i in
    match i with
    | 0%nat =>
        let t := R_sqrt.sqrt (m00 M - m11 M - m22 M + 1) in
        let s := (1 / 2) / t in
        mkQ ((m21 M - m12 M) * s)
            ((1 / 2) * t) ((m10 M + m01 M) * s) ((m20 M + m02 M) * s)
    | 1%nat =>
        let t := R_sqrt.sqrt (m11 M - m22 M - m00 M + 1) in
        let s := (1 / 2) / t in
        mkQ ((m02 M - m20 M) * s)
            ((m01 M + m10 M) * s) ((1 / 2) * t) ((m21 M + m12 M) * s)
    | _ =>
        let t := R_sqrt.sqrt (m22 M - m00 M - m11 M + 1) in
        let s := (1 / 2) / t in
        mkQ ((m10 M - m01 M) * s)
            ((m02 M + m20 M) * s) ((m12 M + m21 M) * s) ((1 / 2) * t)
    end.

Definition qsquaredNorm (q : Quaterniond) : R :=
  qw q * qw q + qx q * qx q + qy q * qy q + qz q * qz q.

(** [q.conjugate()]. *)
Definition qconjugate (q : Quaterniond) : Quaterniond :=
  mkQ (qw q) (- qx q) (- qy q) (- qz q).

(** [q.inverse()]: the conjugate over the squared norm, zero for the zero
    quaternion. *)
Definition qinverse (q : Quaterniond) : Quaterniond :=
  let n2 := qsquaredNorm q in
  if Rgt_dec n2 0
  then let c := qconjugate q in
       mkQ (qw c / n2) (qx c / n2) (qy c / n2) (qz c / n2)
  else mkQ 0 0 0 0.

(** [a * b] on quaternions. *)
Definition qmul (a b : Quaterniond) : Quaterniond :=
  mkQ (qw a * qw b - qx a * qx b - qy a * qy b - qz a * qz b)
      (qw a * qx b + qx a * qw b + qy a * qz b - qz a * qy b)
      (qw a * qy b + qy a * qw b + qz a * qx b - qx a * qz b)
      (qw a * qz b + qz a * qw b + qx a * qy b - qy a * qx b).

Definition qvec (q : Quaterniond) : Vector3d := mkV (qx q) (qy q) (qz q).

(** [q * v]: the rotation of a vector by a quaternion. *)
Definition qrotate (q : Quaterniond) (v : Vector3d) : Vector3d :=
  let uv := cross (qvec q) v in
  let uv := vadd uv uv in
  vadd (vadd v (vscale (qw q) uv)) (cross (qvec q) uv).

End Eigen.

(** ** sdf: the read-only description tree

    One sub-module per DOM class, each with the accessors the builders
    call.  Poses and vectors are given in their Eigen form (the source
    converts them with [math::eigen3::convert], a change of
    representation).  An accessor that returns a pointer is an [option]. *)
Module sdf.

Module JointAxis.
Record t := mk {
  Xyz : Eigen.Vector3d;
  UseParentModelFrame : bool;
  InitialPosition : float;
  Damping : float;
  Friction : float;
  SpringReference : float;
  SpringStiffness : float;
  Lower : float;
  Upper : float;
  Effort : float;
  MaxVelocity : float }.
End JointAxis.

(** [sdf::JointType], in the order of the enumeration. *)
Inductive JointType :=
  | INVALID | BALL | CONTINUOUS | FIXED | GEARBOX
  | PRISMATIC | REVOLUTE | REVOLUTE2 | SCREW | UNIVERSAL.

Definition JointType_to_int (t : JointType) : nat :=
  match t with
  | INVALID => 0 | BALL => 1 | CONTINUOUS => 2 | FIXED => 3 | GEARBOX => 4
  | PRISMATIC => 5 | REVOLUTE => 6 | REVOLUTE2 => 7 | SCREW => 8
  | UNIVERSAL => 9
  end.

Module Joint.
Record t := mk {
  Name : string;
  Type_ : JointType;
  ParentLinkName : string;
  ChildLinkName : string;
  Pose : Eigen.Isometry3d;
  PoseFrame : string;
  (** the axis records, [Axis(0)] first *)
  Axes : list JointAxis.t;
  (** the optional [thread_pitch] element *)
  thread_pitch : option float }.

Definition Axis (j : t) (index : nat) : option JointAxis.t := Axes j !! index.
End Joint.

Module Box.
Record t := mk { Size : Eigen.Vector3d }.
End Box.

Module Cylinder.
Record t := mk { Radius : R; Length : R }.
End Cylinder.

Module Sphere.
Record t := mk { Radius : R }.
End Sphere.

Module Plane.
Record t := mk { Normal : Eigen.Vector3d; Size : R * R }.
End Plane.

Module Mesh.
Record t := mk { Uri : string }.
End Mesh.

Module Geometry.
Record t := mk {
  BoxShape : option Box.t;
  CylinderShape : option Cylinder.t;
  SphereShape : option Sphere.t;
  PlaneShape : option Plane.t;
  MeshShape : option Mesh.t }.
End Geometry.

Module Collision.
Record t := mk {
  Name : string;
  Geom : option Geometry.t;
  Pose : Eigen.Isometry3d }.
End Collision.

Module Material.
(** the ambient colour: red, green, blue, alpha *)
Record t := mk { Ambient : R * R * R * R }.
End Material.

Module Visual.
Record t := mk {
  Name : string;
  Geom : option Geometry.t;
  Pose : Eigen.Isometry3d;
  Material : option Material.t }.
End Visual.

Module Inertial.
Record t := mk {
  Mass : R;
  Moi : Eigen.Matrix3d;
  PoseRot : Eigen.Matrix3d;
  PosePos : Eigen.Vector3d }.
End Inertial.

Module Link.
Record t := mk {
  Name : string;
  Inertial : Inertial.t;
  Pose : Eigen.Isometry3d;
  PoseFrame : string;
  Collisions : list Collision.t;
  Visuals : list Visual.t }.

Definition CollisionCount (l : t) : nat := length (Collisions l).
Definition CollisionByIndex (l : t) (i : nat) : option Collision.t :=
  Collisions l !! i.
Definition VisualCount (l : t) : nat := length (Visuals l).
Definition VisualByIndex (l : t) (i : nat) : option Visual.t :=
  Visuals l !! i.
End Link.

Module Model.
Record t := mk {
  Name : string;
  Static : bool;
  SelfCollide : bool;
  Pose : Eigen.Isometry3d;
  Links : list Link.t;
  Joints : list Joint.t }.

Definition LinkCount (m : t) : nat := length (Links m).
Definition LinkByIndex (m : t) (i : nat) : option Link.t := Links m !! i.
(** the first link of that name *)
Definition LinkByName (m : t) (name : string) : option Link.t :=
  List.find (fun l => bool_decide (Link.Name l = name)) (Links m).
Definition JointCount (m : t) : nat := length (Joints m).
Definition JointByIndex (m : t) (i : nat) : option Joint.t := Joints m !! i.
End Model.

Module World.
Record t := mk {
  Name : string;
  Gravity : Eigen.Vector3d;
  Models : list Model.t }.

Definition ModelCount (w : t) : nat := length (Models w).
Definition ModelByIndex (w : t) (i : nat) : option Model.t := Models w !! i.
End World.

End sdf.

(** ** dart: the rigid-body engine, as far as the builders drive it *)
Module dart.
Import Eigen.

(** The joint classes the builders instantiate. *)
Inductive JointKind :=
  | FreeJoint | BallJoint | WeldJoint
  | PrismaticJoint | RevoluteJoint | ScrewJoint | UniversalJoint.

(** [JointType::Properties]: one entry per degree of freedom in each
    per-coordinate array, one entry per axis in [mAxis]. *)
Record Properties := mkProperties {
  mAxis : list Vector3d;
  mPitch : float;
  mInitialPositions : list float;
  mDampingCoefficients : list float;
  mFrictions : list float;
  mRestPositions : list float;
  mSpringStiffnesses : list float;
  mPositionLowerLimits : list float;
  mPositionUpperLimits : list float;
  mForceLowerLimits : list float;
  mForceUpperLimits : list float;
  mVelocityLowerLimits : list float;
  mVelocityUpperLimits : list float }.

(** A default-constructed [Properties] with the given axes and [n]
    coordinates: no limits, everything else zero. *)
Definition defaultProperties (axes : list Vector3d) (n : nat) : Properties :=
  {| mAxis := axes;
     mPitch := 0x1.999999999999ap-4%float;
     mInitialPositions := replicate n 0%float;
     mDampingCoefficients := replicate n 0%float;
     mFrictions := replicate n 0%float;
     mRestPositions := replicate n 0%float;
     mSpringStiffnesses := replicate n 0%float;
     mPositionLowerLimits := replicate n neg_infinity;
     mPositionUpperLimits := replicate n infinity;
     mForceLowerLimits := replicate n neg_infinity;
     mForceUpperLimits := replicate n infinity;
     mVelocityLowerLimits := replicate n neg_infinity;
     mVelocityUpperLimits := replicate n infinity |}.

Definition UnitX : Vector3d := mkV 1 0 0.
Definition UnitY : Vector3d := mkV 0 1 0.

(** The default [Properties] of each joint class. *)
Definition defaultPropertiesOf (k : JointKind) : Properties :=
  match k with
  | FreeJoint => defaultProperties [] 6
  | BallJoint => defaultProperties [] 3
  | WeldJoint => defaultProperties [] 0
  | PrismaticJoint | RevoluteJoint | ScrewJoint => defaultProperties [UnitZ] 1
  | UniversalJoint => defaultProperties [UnitX; UnitY] 2
  end.

Definition set_mAxis (index : nat) (v : Vector3d) (p : Properties) : Properties :=
  {| mAxis := <[index := v]> (mAxis p);
     mPitch := mPitch p;
     mInitialPositions := mInitialPositions p;
     mDampingCoefficients := mDampingCoefficients p;
     mFrictions := mFrictions p;
     mRestPositions := mRestPositions p;
     mSpringStiffnesses := mSpringStiffnesses p;
     mPositionLowerLimits := mPositionLowerLimits p;
     mPositionUpperLimits := mPositionUpperLimits p;
     mForceLowerLimits := mForceLowerLimits p;
     mForceUpperLimits := mForceUpperLimits p;
     mVelocityLowerLimits := mVelocityLowerLimits p;
     mVelocityUpperLimits := mVelocityUpperLimits p |}.

Definition set_mPitch (pitch : float) (p : Properties) : Properties :=
  {| mAxis := mAxis p;
     mPitch := pitch;
     mInitialPositions := mInitialPositions p;
     mDampingCoefficients := mDampingCoefficients p;
     mFrictions := mFrictions p;
     mRestPositions := mRestPositions p;
     mSpringStiffnesses := mSpringStiffnesses p;
     mPositionLowerLimits := mPositionLowerLimits p;
     mPositionUpperLimits := mPositionUpperLimits p;
     mForceLowerLimits := mForceLowerLimits p;
     mForceUpperLimits := mForceUpperLimits p;
     mVelocityLowerLimits := mVelocityLowerLimits p;
     mVelocityUpperLimits := mVelocityUpperLimits p |}.

(** The generalized coordinates of a joint.  The six coordinates of a
    free joint stand for a rigid transform and are kept as that
    transform; the coordinates of every other joint are kept as numbers. *)
Inductive Positions :=
  | FreePose (T : Isometry3d)
  | Coordinates (q : list float).

Record Joint := mkJoint {
  jointKind : JointKind;
  jointName : string;
  jointProperties : Properties;
  mT_ParentBodyToJoint : Isometry3d;
  mT_ChildBodyToJoint : Isometry3d;
  mPositions : Positions }.

Record Inertia := mkInertia {
  mMass : R;
  mMoment : Matrix3d;
  mLocalCOM : Vector3d }.

(** Pointers into the engine's object tables. *)
Abbreviation BodyNodePtr := nat.
Abbreviation SkeletonPtr := nat.
Abbreviation SimpleFramePtr := nat.
Abbreviation ShapeNodePtr := nat.

(** A [BodyNode] with the joint that attaches it to its parent;
    [parentBodyNode = None] is a body attached to the world. *)
Record BodyNode := mkBodyNode {
  bodyName : string;
  bodySkeleton : SkeletonPtr;
  mInertia : Inertia;
  parentBodyNode : option BodyNodePtr;
  parentJoint : Joint }.

Record Skeleton := mkSkeleton {
  skeletonName : string;
  mobile : bool;
  selfCollisionCheck : bool }.

(** A [SimpleFrame]; [parentFrame = None] is [Frame::World()]. *)
Record SimpleFrame := mkSimpleFrame {
  frameName : string;
  parentFrame : option BodyNodePtr;
  relativeTransform : Isometry3d }.

Inductive Shape :=
  | BoxShape (size : Vector3d)
  | CylinderShape (radius height : R)
  | SphereShape (radius : R).

Inductive ShapeAspect := CollisionAspect | VisualAspect.

Record ShapeNode := mkShapeNode {
  shapeOwner : BodyNodePtr;
  shapeNodeName : string;
  shape : Shape;
  shapeAspect : ShapeAspect;
  shapeRelativeTransform : Isometry3d;
  shapeColor : option (R * R * R * R) }.

Record World := mkWorld {
  worldName : string;
  gravity : Vector3d;
  worldSkeletons : list SkeletonPtr }.

End dart.

(** ** The builders' state: the engine's objects and the plugin's registries *)
Module SDFFeatures.
Import Eigen dart.

Record ModelInfo := mkModelInfo { model : SkeletonPtr; frame : SimpleFramePtr }.

Record ShapeInfo := mkShapeInfo { node : ShapeNodePtr; tf_offset : Isometry3d }.

(** The handle returned to callers: an entity id or the invalid sentinel. *)
Inductive Identity := ValidId (id : nat) | InvalidId.

Record Base := mkBase {
  (** engine objects, addressed by their index *)
  bodyNodes : list BodyNode;
  simpleFrames : list SimpleFrame;
  shapeNodes : list ShapeNode;
  skeletons : list Skeleton;
  (** registries of the plugin, from entity id to object; a joint is
      registered by the body it attaches *)
  worlds : gmap nat dart.World;
  models : gmap nat ModelInfo;
  links : gmap nat BodyNodePtr;
  joints : gmap nat BodyNodePtr;
  shapes : gmap nat ShapeInfo;
  entityCount : nat;
  (** [std::cerr] *)
  cerr : list string }.

Definition emptyBase : Base :=
  mkBase [] [] [] [] ∅ ∅ ∅ ∅ ∅ 0 [].

Definition set_bodyNodes (f : list BodyNode -> list BodyNode) (s : Base) : Base :=
  mkBase (f (bodyNodes s)) (simpleFrames s) (shapeNodes s) (skeletons s)
         (worlds s) (models s) (links s) (joints s) (shapes s)
         (entityCount s) (cerr s).

Definition set_simpleFrames (f : list SimpleFrame -> list SimpleFrame) (s : Base) : Base :=
  mkBase (bodyNodes s) (f (simpleFrames s)) (shapeNodes s) (skeletons s)
         (worlds s) (models s) (links s) (joints s) (shapes s)
         (entityCount s) (cerr s).

Definition set_shapeNodes (f : list ShapeNode -> list ShapeNode) (s : Base) : Base :=
  mkBase (bodyNodes s) (simpleFrames s) (f (shapeNodes s)) (skeletons s)
         (worlds s) (models s) (links s) (joints s) (shapes s)
         (entityCount s) (cerr s).

Definition set_skeletons (f : list Skeleton -> list Skeleton) (s : Base) : Base :=
  mkBase (bodyNodes s) (simpleFrames s) (shapeNodes s) (f (skeletons s))
         (worlds s) (models s) (links s) (joints s) (shapes s)
         (entityCount s) (cerr s).

Definition set_worlds (f : gmap nat dart.World -> gmap nat dart.World) (s : Base) : Base :=
  mkBase (bodyNodes s) (simpleFrames s) (shapeNodes s) (skeletons s)
         (f (worlds s)) (models s) (links s) (joints s) (shapes s)
         (entityCount s) (cerr s).

Definition set_models (f : gmap nat ModelInfo -> gmap nat ModelInfo) (s : Base) : Base :=
  mkBase (bodyNodes s) (simpleFrames s) (shapeNodes s) (skeletons s)
         (worlds s) (f (models s)) (links s) (joints s) (shapes s)
         (entityCount s) (cerr s).

Definition set_links (f : gmap nat BodyNodePtr -> gmap nat BodyNodePtr) (s : Base) : Base :=
  mkBase (bodyNodes s) (simpleFrames s) (shapeNodes s) (skeletons s)
         (worlds s) (models s) (f (links s)) (joints s) (shapes s)
         (entityCount s) (cerr s).

Definition set_joints (f : gmap nat BodyNodePtr -> gmap nat BodyNodePtr) (s : Base) : Base :=
  mkBase (bodyNodes s) (simpleFrames s) (shapeNodes s) (skeletons s)
         (worlds s) (models s) (links s) (f (joints s)) (shapes s)
         (entityCount s) (cerr s).

Definition set_shapes (f : gmap nat ShapeInfo -> gmap nat ShapeInfo) (s : Base) : Base :=
  mkBase (bodyNodes s) (simpleFrames s) (shapeNodes s) (skeletons s)
         (worlds s) (models s) (links s) (joints s) (f (shapes s))
         (entityCount s) (cerr s).

Definition set_entityCount (f : nat -> nat) (s : Base) : Base :=
  mkBase (bodyNodes s) (simpleFrames s) (shapeNodes s) (skeletons s)
         (worlds s) (models s) (links s) (joints s) (shapes s)
         (f (entityCount s)) (cerr s).

Definition set_cerr (f : list string -> list string) (s : Base) : Base :=
  mkBase (bodyNodes s) (simpleFrames s) (shapeNodes s) (skeletons s)
         (worlds s) (models s) (links s) (joints s) (shapes s)
         (entityCount s) (f (cerr s)).

(** *** The monad of the builders

    A member function reads and updates the state; [None] is a run that
    does not return: an exception out of [at], or a null pointer
    dereferenced. *)
Definition M (A : Type) : Type := Base -> option (A * Base).

Definition ret {A} (a : A) : M A := fun s => Some (a, s).

Definition bind {A B} (c : M A) (k : A -> M B) : M B :=
  fun s => match c s with
           | Some (a, s') => k a s'
           | None => None
           end.

Definition get : M Base := fun s => Some (s, s).

Definition modify (f : Base -> Base) : M unit := fun s => Some (tt, f s).

Definition throw {A} : M A := fun _ => None.

(** the value behind a pointer that the code dereferences unchecked *)
Definition deref {A} (o : option A) : M A :=
  match o with Some a => ret a | None => throw end.

Declare Scope builder_scope.
Delimit Scope builder_scope with builder.
Notation "'let*' x := c1 'in' c2" := (bind c1 (fun x => c2))
  (at level 10, x name, c1 at level 100, c2 at level 200) : builder_scope.
Notation "c1 ;; c2" := (bind c1 (fun _ => c2))
  (at level 100, c2 at level 200, right associativity) : builder_scope.
Local Open Scope builder_scope.

(** [std::cerr << msg] *)
Definition report (msg : string) : M unit := modify (set_cerr (cons msg)).

(** a [for] loop over the elements of a list *)
Fixpoint forEach {A} (l : list A) (body : A -> M unit) : M unit :=
  match l with
  | [] => ret tt
  | a :: l' => body a ;; forEach l' body
  end.

(** *** Helpers of the anonymous namespace *)

Definition infIfNeg (_value : float) : float :=
  if (_value <? 0)%float then infinity else _value.

Definition CopyStandardJointAxisProperties
    (_index : nat) (_properties : Properties) (_sdfAxis : sdf.JointAxis.t)
    : Properties :=
  {| mAxis := mAxis _properties;
     mPitch := mPitch _properties;
     mInitialPositions :=
       <[_index := sdf.JointAxis.InitialPosition _sdfAxis]>
         (mInitialPositions _properties);
     mDampingCoefficients :=
       <[_index := sdf.JointAxis.Damping _sdfAxis]>
         (mDampingCoefficients _properties);
     mFrictions :=
       <[_index := sdf.JointAxis.Friction _sdfAxis]> (mFrictions _properties);
     mRestPositions :=
       <[_index := sdf.JointAxis.SpringReference _sdfAxis]>
         (mRestPositions _properties);
     mSpringStiffnesses :=
       <[_index := sdf.JointAxis.SpringStiffness _sdfAxis]>
         (mSpringStiffnesses _properties);
     mPositionLowerLimits :=
       <[_index := sdf.JointAxis.Lower _sdfAxis]>
         (mPositionLowerLimits _properties);
     mPositionUpperLimits :=
       <[_index := sdf.JointAxis.Upper _sdfAxis]>
         (mPositionUpperLimits _properties);
     mForceLowerLimits :=
       <[_index := (- infIfNeg (sdf.JointAxis.Effort _sdfAxis))%float]>
         (mForceLowerLimits _properties);
     mForceUpperLimits :=
       <[_index := infIfNeg (sdf.JointAxis.Effort _sdfAxis)]>
         (mForceUpperLimits _properties);
     mVelocityLowerLimits :=
       <[_index := (- infIfNeg (sdf.JointAxis.MaxVelocity _sdfAxis))%float]>
         (mVelocityLowerLimits _properties);
     mVelocityUpperLimits :=
       <[_index := infIfNeg (sdf.JointAxis.MaxVelocity _sdfAxis)]>
         (mVelocityUpperLimits _properties) |}.

(** [ConvertJointAxis], given the world transform of the model frame
    ([GetParentModelFrame]). *)
Definition ConvertJointAxis
    (_sdfAxis : sdf.JointAxis.t) (T_model : Isometry3d) (_T_joint : Isometry3d)
    : Vector3d :=
  let axis := sdf.JointAxis.Xyz _sdfAxis in
  if sdf.JointAxis.UseParentModelFrame _sdfAxis then
    let O_R_J := Quaterniond_of_matrix (rotation _T_joint) in
    let O_R_M := Quaterniond_of_matrix (rotation T_model) in
    let J_R_M := qmul (qinverse O_R_J) O_R_M in
    qrotate J_R_M axis
  else axis.

(** The [Properties] that [ConstructSingleAxisJoint] hands to [moveTo];
    [None] when the joint has no first axis (a null pointer is
    dereferenced). *)
Definition SingleAxisProperties
    (k : JointKind) (T_model : Isometry3d) (_sdfJoint : sdf.Joint.t)
    (_T_joint : Isometry3d) : option Properties :=
  match sdf.Joint.Axis _sdfJoint 0 with
  | None => None
  | Some sdfAxis =>
      let properties := defaultPropertiesOf k in
      let properties :=
        set_mAxis 0 (ConvertJointAxis sdfAxis T_model _T_joint) properties in
      Some (CopyStandardJointAxisProperties 0 properties sdfAxis)
  end.

(** The [Properties] that [ConstructUniversalJoint] hands to [moveTo]: the
    loop over the indices 0 and 1. *)
Definition UniversalProperties
    (T_model : Isometry3d) (_sdfJoint : sdf.Joint.t) (_T_joint : Isometry3d)
    : option Properties :=
  foldl
    (fun acc index =>
       match acc, sdf.Joint.Axis _sdfJoint index with
       | Some properties, Some sdfAxis =>
           let properties :=
             set_mAxis index (ConvertJointAxis sdfAxis T_model _T_joint)
                       properties in
           Some (CopyStandardJointAxisProperties index properties sdfAxis)
       | _, _ => None
       end)
    (Some (defaultPropertiesOf UniversalJoint)) [0; 1].

(** *** Geometry Builder *)

Record ShapeAndTransform := mkShapeAndTransform {
  st_shape : option Shape;
  st_tf : Isometry3d }.

Definition ConstructBox (_box : sdf.Box.t) : ShapeAndTransform :=
  mkShapeAndTransform (Some (BoxShape (sdf.Box.Size _box))) Isometry3d_Identity.

Definition ConstructCylinder (_cylinder : sdf.Cylinder.t) : ShapeAndTransform :=
  mkShapeAndTransform
    (Some (CylinderShape (sdf.Cylinder.Radius _cylinder)
                         (sdf.Cylinder.Length _cylinder)))
    Isometry3d_Identity.

Definition ConstructSphere (_sphere : sdf.Sphere.t) : ShapeAndTransform :=
  mkShapeAndTransform (Some (SphereShape (sdf.Sphere.Radius _sphere)))
    Isometry3d_Identity.

(** The locals of [ConstructPlane]: the cross-product axis, its norm and
    the angle. *)
Definition plane_axis (_plane : sdf.Plane.t) : Vector3d :=
  cross UnitZ (sdf.Plane.Normal _plane).

Definition plane_norm (_plane : sdf.Plane.t) : R := norm (plane_axis _plane).

Definition plane_angle (_plane : sdf.Plane.t) : R :=
  asin (plane_norm _plane / norm (sdf.Plane.Normal _plane)).

(** The rotation that [ConstructPlane] applies: [Some] exactly when the
    branch that evaluates [axis/norm] is taken. *)
Definition plane_rotation (_plane : sdf.Plane.t) : option AngleAxisd :=
  if Rgt_dec (plane_angle _plane) (1 / 10 ^ 12)
  then Some (mkAA (plane_angle _plane)
                  (vdiv (plane_axis _plane) (plane_norm _plane)))
  else None.

Definition ConstructPlane (_plane : sdf.Plane.t) : ShapeAndTransform :=
  let R := Isometry3d_Identity in
  let R := match plane_rotation _plane with
           | Some aa => rotate R aa
           | None => R
           end in
  mkShapeAndTransform
    (Some (BoxShape (mkV (fst (sdf.Plane.Size _plane))
                         (snd (sdf.Plane.Size _plane))
                         (1 / 10 ^ 4))))
    R.

Definition ConstructMesh (_mesh : sdf.Mesh.t) : M ShapeAndTransform :=
  report ("[dartsim::ConstructMesh] Mesh construction from an SDF has not "
          +:+ "been implemented yet for dartsim.") ;;
  ret (mkShapeAndTransform None Isometry3d_Identity).

Definition ConstructGeometry (_geometry : sdf.Geometry.t) : M ShapeAndTransform :=
  match sdf.Geometry.BoxShape _geometry with
  | Some box => ret (ConstructBox box)
  | None =>
  match sdf.Geometry.CylinderShape _geometry with
  | Some cylinder => ret (ConstructCylinder cylinder)
  | None =>
  match sdf.Geometry.SphereShape _geometry with
  | Some sphere => ret (ConstructSphere sphere)
  | None =>
  match sdf.Geometry.PlaneShape _geometry with
  | Some plane => ret (ConstructPlane plane)
  | None =>
  match sdf.Geometry.MeshShape _geometry with
  | Some mesh => ConstructMesh mesh
  | None => ret (mkShapeAndTransform None Isometry3d_Identity)
  end end end end end.

(** *** The engine's operations on the object tables

    The engine computes the transform between the two joint frames from
    the joint's class, properties and coordinates; that kinematic map is
    the parameter [jointTransform]. *)
Section Builders.

Variable jointTransform : JointKind -> Properties -> list float -> Isometry3d.

Definition parentOf (bs : list BodyNode) (b : BodyNodePtr) : option BodyNodePtr :=
  bs !! b ≫= parentBodyNode.

(** the position-dependent transform from the pre-joint frame to the
    post-joint frame, at the joint's current coordinates *)
Definition jointRelativeTransform (j : Joint) : Isometry3d :=
  match mPositions j with
  | FreePose T => T
  | Coordinates q => jointTransform (jointKind j) (jointProperties j) q
  end.

(** [Joint::getRelativeTransform]: child body frame in parent body frame *)
Definition getRelativeTransform (bn : BodyNode) : Isometry3d :=
  let j := parentJoint bn in
  compose (compose (mT_ParentBodyToJoint j) (jointRelativeTransform j))
          (inverse (mT_ChildBodyToJoint j)).

(** [BodyNode::getWorldTransform]: the relative transforms composed along
    the chain of parents, the world frame being the identity.  The chain
    of a tree with [n] bodies has at most [n] links, which bounds the
    recursion. *)
Fixpoint worldTransformFrom (fuel : nat) (bs : list BodyNode) (b : BodyNodePtr)
    : Isometry3d :=
  match fuel with
  | 0 => Isometry3d_Identity
  | S fuel' =>
      match bs !! b with
      | None => Isometry3d_Identity
      | Some bn =>
          compose
            (match parentBodyNode bn with
             | None => Isometry3d_Identity
             | Some p => worldTransformFrom fuel' bs p
             end)
            (getRelativeTransform bn)
      end
  end.

Definition getWorldTransform (bs : list BodyNode) (b : BodyNodePtr) : Isometry3d :=
  worldTransformFrom (length bs) bs b.

(** the world transform of a frame that is the world or a body *)
Definition Frame_getWorldTransform (bs : list BodyNode) (f : option BodyNodePtr)
    : Isometry3d :=
  match f with
  | None => Isometry3d_Identity
  | Some b => getWorldTransform bs b
  end.

(** [this->getTransform(withRespectTo)] between two bodies *)
Definition getTransform (bs : list BodyNode) (this withRespectTo : BodyNodePtr)
    : Isometry3d :=
  if decide (parentOf bs this = Some withRespectTo) then
    match bs !! this with
    | Some bn => getRelativeTransform bn
    | None => Isometry3d_Identity
    end
  else if decide (withRespectTo = this) then Isometry3d_Identity
  else compose (inverse (getWorldTransform bs withRespectTo))
               (getWorldTransform bs this).

(** [Frame::World()->getTransform(withRespectTo)] *)
Definition World_getTransform (bs : list BodyNode) (withRespectTo : option BodyNodePtr)
    : Isometry3d :=
  match withRespectTo with
  | None => Isometry3d_Identity
  | Some b => compose (inverse (getWorldTransform bs b)) Isometry3d_Identity
  end.

(** the loop of [descendsFrom]: walk up the parents until the world *)
Fixpoint descendsFrom_loop (fuel : nat) (bs : list BodyNode)
    (descentCheck : option BodyNodePtr) (_someFrame : BodyNodePtr) : bool :=
  match fuel, descentCheck with
  | S fuel', Some d =>
      if decide (d = _someFrame) then true
      else descendsFrom_loop fuel' bs (parentOf bs d) _someFrame
  | _, _ => false
  end.

(** [this->descendsFrom(_someFrame)] for a body [_someFrame] *)
Definition descendsFrom (bs : list BodyNode) (this _someFrame : BodyNodePtr) : bool :=
  if decide (this = _someFrame) then true
  else descendsFrom_loop (length bs) bs (parentOf bs this) _someFrame.

Definition getName (bs : list BodyNode) (b : BodyNodePtr) : string :=
  match bs !! b with Some bn => bodyName bn | None => "" end.

Definition Skeleton_getName (sk : list Skeleton) (m : SkeletonPtr) : string :=
  match sk !! m with Some k => skeletonName k | None => "" end.

(** [skeleton->getBodyNode(name)]: the body of that name, or null *)
Definition getBodyNode (bs : list BodyNode) (skel : SkeletonPtr) (name : string)
    : option BodyNodePtr :=
  fst <$> list_find (fun bn => bodySkeleton bn = skel /\ bodyName bn = name) bs.

Definition getNumBodyNodes (bs : list BodyNode) (skel : SkeletonPtr) : nat :=
  length (filter (fun bn => bodySkeleton bn = skel) bs).

Definition withJoint (f : Joint -> Joint) (bn : BodyNode) : BodyNode :=
  mkBodyNode (bodyName bn) (bodySkeleton bn) (mInertia bn) (parentBodyNode bn)
             (f (parentJoint bn)).

Definition Joint_setName (name : string) (j : Joint) : Joint :=
  mkJoint (jointKind j) name (jointProperties j)
          (mT_ParentBodyToJoint j) (mT_ChildBodyToJoint j) (mPositions j).

Definition Joint_setTransformFromParentBodyNode (T : Isometry3d) (j : Joint) : Joint :=
  mkJoint (jointKind j) (jointName j) (jointProperties j)
          T (mT_ChildBodyToJoint j) (mPositions j).

Definition Joint_setTransformFromChildBodyNode (T : Isometry3d) (j : Joint) : Joint :=
  mkJoint (jointKind j) (jointName j) (jointProperties j)
          (mT_ParentBodyToJoint j) T (mPositions j).

Definition Joint_setPositions (q : Positions) (j : Joint) : Joint :=
  mkJoint (jointKind j) (jointName j) (jointProperties j)
          (mT_ParentBodyToJoint j) (mT_ChildBodyToJoint j) q.

Definition Joint_setPitch (pitch : float) (j : Joint) : Joint :=
  mkJoint (jointKind j) (jointName j) (set_mPitch pitch (jointProperties j))
          (mT_ParentBodyToJoint j) (mT_ChildBodyToJoint j) (mPositions j).

(** A joint as its constructor leaves it: identity offsets, and the
    coordinates at the initial positions of its properties. *)
Definition newJoint (k : JointKind) (name : string) (properties : Properties) : Joint :=
  mkJoint k name properties Isometry3d_Identity Isometry3d_Identity
          (match k with
           | FreeJoint => FreePose Isometry3d_Identity
           | _ => Coordinates (mInitialPositions properties)
           end).

(** [skeleton->createJointAndBodyNodePair<FreeJoint>(nullptr, ...)] *)
Definition createJointAndBodyNodePair
    (skel : SkeletonPtr) (jointName bodyName : string) (inertia : Inertia)
    : M BodyNodePtr :=
  let* s := get in
  modify (set_bodyNodes (fun bs =>
    bs ++ [mkBodyNode bodyName skel inertia None
                      (newJoint FreeJoint jointName (defaultPropertiesOf FreeJoint))])) ;;
  ret (length (bodyNodes s)).

(** apply [f] to the joint that attaches the body [b] *)
Definition onJointOf (b : BodyNodePtr) (f : Joint -> Joint) : M unit :=
  modify (set_bodyNodes (alter (withJoint f) b)).

(** [joint->setTransform(tf)] on the free joint of [b]: the coordinates
    that bring the body to [tf] in the world frame *)
Definition FreeJoint_setTransform (b : BodyNodePtr) (tf : Isometry3d) : M unit :=
  let* s := get in
  let bs := bodyNodes s in
  onJointOf b (fun j =>
    Joint_setPositions
      (FreePose
         (compose
            (compose (inverse (mT_ParentBodyToJoint j))
                     (compose (World_getTransform bs (parentOf bs b)) tf))
            (mT_ChildBodyToJoint j)))
      j).

(** [_child->moveTo<JointType>(_parent, properties)]: the body hangs
    under [_parent] by a new joint; both bodies are of one skeleton. *)
Definition moveTo (_child _parent : BodyNodePtr) (k : JointKind)
    (properties : Properties) : M unit :=
  modify (set_bodyNodes (alter
    (fun bn => mkBodyNode (bodyName bn) (bodySkeleton bn) (mInertia bn)
                          (Some _parent) (newJoint k "Joint" properties))
    _child)).

Definition Skeleton_create (name : string) : M SkeletonPtr :=
  let* s := get in
  modify (set_skeletons (fun l => l ++ [mkSkeleton name true false])) ;;
  ret (length (skeletons s)).

Definition setMobile (m : SkeletonPtr) (b : bool) : M unit :=
  modify (set_skeletons (alter
    (fun k => mkSkeleton (skeletonName k) b (selfCollisionCheck k)) m)).

Definition setSelfCollisionCheck (m : SkeletonPtr) (b : bool) : M unit :=
  modify (set_skeletons (alter
    (fun k => mkSkeleton (skeletonName k) (mobile k) b) m)).

Definition SimpleFrame_createShared
    (parent : option BodyNodePtr) (name : string) (tf : Isometry3d)
    : M SimpleFramePtr :=
  let* s := get in
  modify (set_simpleFrames (fun l => l ++ [mkSimpleFrame name parent tf])) ;;
  ret (length (simpleFrames s)).

Definition SimpleFrame_getWorldTransform (s : Base) (f : SimpleFramePtr) : Isometry3d :=
  match simpleFrames s !! f with
  | Some sf => compose (Frame_getWorldTransform (bodyNodes s) (parentFrame sf))
                       (relativeTransform sf)
  | None => Isometry3d_Identity
  end.

Definition SimpleFrame_setParentFrame (f : SimpleFramePtr) (parent : option BodyNodePtr)
    : M unit :=
  modify (set_simpleFrames (alter
    (fun sf => mkSimpleFrame (frameName sf) parent (relativeTransform sf)) f)).

(** [frame->setTransform(tf)]: with respect to the world *)
Definition SimpleFrame_setTransform (f : SimpleFramePtr) (tf : Isometry3d) : M unit :=
  let* s := get in
  modify (set_simpleFrames (alter
    (fun sf => mkSimpleFrame (frameName sf) (parentFrame sf)
                 (compose (World_getTransform (bodyNodes s) (parentFrame sf)) tf))
    f)).

Definition createShapeNodeWith (aspect : ShapeAspect) (bn : BodyNodePtr)
    (sh : Shape) (name : string) : M ShapeNodePtr :=
  let* s := get in
  modify (set_shapeNodes (fun l =>
    l ++ [mkShapeNode bn name sh aspect Isometry3d_Identity None])) ;;
  ret (length (shapeNodes s)).

Definition ShapeNode_setRelativeTransform (n : ShapeNodePtr) (tf : Isometry3d) : M unit :=
  modify (set_shapeNodes (alter
    (fun sn => mkShapeNode (shapeOwner sn) (shapeNodeName sn) (shape sn)
                           (shapeAspect sn) tf (shapeColor sn)) n)).

Definition ShapeNode_setColor (n : ShapeNodePtr) (c : R * R * R * R) : M unit :=
  modify (set_shapeNodes (alter
    (fun sn => mkShapeNode (shapeOwner sn) (shapeNodeName sn) (shape sn)
                           (shapeAspect sn) (shapeRelativeTransform sn) (Some c)) n)).

(** *** The registries of the plugin *)

(** Modelled from the spec: the entity tables and their [Add] functions
    are declared in the plugin's base header, which is not part of the
    sources at hand.  The spec gives "opaque handles into process-owned
    registries (world/model/link/joint/shape tables)", each "resolvable
    back to the underlying native object through the owning registry":
    an [Add] draws a fresh id and records the object under it. *)
Definition GetNextEntity : M nat :=
  let* s := get in
  modify (set_entityCount S) ;;
  ret (entityCount s).

Definition AddWorld (w : dart.World) : M nat :=
  let* id := GetNextEntity in
  modify (set_worlds <[id := w]>) ;;
  ret id.

Definition AddModel (info : ModelInfo) (_worldID : nat) : M (nat * ModelInfo) :=
  let* id := GetNextEntity in
  modify (set_models <[id := info]>) ;;
  modify (set_worlds (alter
    (fun w => mkWorld (worldName w) (gravity w) (worldSkeletons w ++ [model info]))
    _worldID)) ;;
  ret (id, info).

Definition AddLink (bn : BodyNodePtr) : M nat :=
  let* id := GetNextEntity in
  modify (set_links <[id := bn]>) ;;
  ret id.

Definition AddJoint (bn : BodyNodePtr) : M nat :=
  let* id := GetNextEntity in
  modify (set_joints <[id := bn]>) ;;
  ret id.

Definition AddShape (info : ShapeInfo) : M nat :=
  let* id := GetNextEntity in
  modify (set_shapes <[id := info]>) ;;
  ret id.

Definition GenerateIdentity (id : nat) : Identity := ValidId id.
Definition GenerateInvalidId : Identity := InvalidId.

(** [links.at(id)] for the id carried by a handle; the invalid handle
    carries an id that no table holds. *)
Definition links_at (id : Identity) : M BodyNodePtr :=
  match id with
  | ValidId n => let* s := get in deref (links s !! n)
  | InvalidId => throw
  end.

(** *** Reference-Frame Resolver *)

Definition GetParentModelFrame (s : Base) (_modelInfo : ModelInfo) : Isometry3d :=
  SimpleFrame_getWorldTransform s (frame _modelInfo).

Definition ResolveSdfLinkReferenceFrame (_frame : string) (_modelInfo : ModelInfo)
    : M Isometry3d :=
  if decide (_frame = "") then
    let* s := get in ret (GetParentModelFrame s _modelInfo)
  else
    report ("[dartsim::ResolveSdfLinkReferenceFrame] Requested a reference "
            +:+ "frame of [" +:+ _frame +:+ "] but currently only the model frame "
            +:+ "is supported as a reference frame for link poses.") ;;
    ret Isometry3d_Identity.

Definition ResolveSdfJointReferenceFrame (_frame : string) (_child : BodyNodePtr)
    : M Isometry3d :=
  if decide (_frame = "") then
    let* s := get in ret (getWorldTransform (bodyNodes s) _child)
  else
    report ("[dartsim::ResolveSdfJointReferenceFrame] Requested a reference "
            +:+ "frame of [" +:+ _frame +:+ "] but currently only the child link "
            +:+ "frame is supported as a reference frame for joint poses.") ;;
    ret Isometry3d_Identity.

(** *** Link Builder *)

Definition ConstructSdfCollision (_linkID : nat) (_collision : sdf.Collision.t)
    : M Identity :=
  match sdf.Collision.Geom _collision with
  | None =>
      report ("[dartsim::ConstructSdfCollision] Error: the geometry element "
              +:+ "of collision [" +:+ sdf.Collision.Name _collision
              +:+ "] was a nullptr") ;;
      ret GenerateInvalidId
  | Some geom =>
      let* st := ConstructGeometry geom in
      let tf_shape := st_tf st in
      match st_shape st with
      | None => ret GenerateInvalidId
      | Some sh =>
          let* s := get in
          let* bn := deref (links s !! _linkID) in
          let internalName :=
            getName (bodyNodes s) bn +:+ "_collision_"
            +:+ sdf.Collision.Name _collision in
          let* node := createShapeNodeWith CollisionAspect bn sh internalName in
          ShapeNode_setRelativeTransform node
            (compose (sdf.Collision.Pose _collision) tf_shape) ;;
          let* id := AddShape (mkShapeInfo node tf_shape) in
          ret (GenerateIdentity id)
      end
  end.

Definition ConstructSdfVisual (_linkID : nat) (_visual : sdf.Visual.t)
    : M Identity :=
  match sdf.Visual.Geom _visual with
  | None =>
      report ("[dartsim::ConstructSdfVisual] Error: the geometry element "
              +:+ "of visual [" +:+ sdf.Visual.Name _visual
              +:+ "] was a nullptr") ;;
      ret GenerateInvalidId
  | Some geom =>
      let* st := ConstructGeometry geom in
      let tf_shape := st_tf st in
      match st_shape st with
      | None => ret GenerateInvalidId
      | Some sh =>
          let* s := get in
          let* bn := deref (links s !! _linkID) in
          let internalName :=
            getName (bodyNodes s) bn +:+ "_visual_"
            +:+ sdf.Visual.Name _visual in
          let* node := createShapeNodeWith VisualAspect bn sh internalName in
          ShapeNode_setRelativeTransform node
            (compose (sdf.Visual.Pose _visual) tf_shape) ;;
          match sdf.Visual.Material _visual with
          | Some material =>
              ShapeNode_setColor node (sdf.Material.Ambient material)
          | None => ret tt
          end ;;
          let* id := AddShape (mkShapeInfo node tf_shape) in
          ret (GenerateIdentity id)
      end
  end.

Definition ConstructSdfLink (_modelID : nat) (_sdfLink : sdf.Link.t) : M Identity :=
  let* s := get in
  let* modelInfo := deref (models s !! _modelID) in
  let sdfInertia := sdf.Link.Inertial _sdfLink in
  let R_inertial := sdf.Inertial.PoseRot sdfInertia in
  let I_link :=
    mmul (mmul R_inertial (sdf.Inertial.Moi sdfInertia)) (minverse R_inertial) in
  let inertia :=
    mkInertia (sdf.Inertial.Mass sdfInertia) I_link
              (sdf.Inertial.PosePos sdfInertia) in
  let* bn :=
    createJointAndBodyNodePair (model modelInfo)
      (sdf.Link.Name _sdfLink +:+ "_FreeJoint") (sdf.Link.Name _sdfLink)
      inertia in
  let* frameT :=
    ResolveSdfLinkReferenceFrame (sdf.Link.PoseFrame _sdfLink) modelInfo in
  let tf := compose frameT (sdf.Link.Pose _sdfLink) in
  FreeJoint_setTransform bn tf ;;
  let* linkID := AddLink bn in
  AddJoint bn ;;
  let* s := get in
  (if decide (getNumBodyNodes (bodyNodes s) (model modelInfo) = 1) then
     let tf_frame := SimpleFrame_getWorldTransform s (frame modelInfo) in
     SimpleFrame_setParentFrame (frame modelInfo) (Some bn) ;;
     SimpleFrame_setTransform (frame modelInfo) tf_frame
   else ret tt) ;;
  forEach (seq 0 (sdf.Link.CollisionCount _sdfLink)) (fun i =>
    match sdf.Link.CollisionByIndex _sdfLink i with
    | Some collision => ConstructSdfCollision linkID collision ;; ret tt
    | None => ret tt
    end) ;;
  forEach (seq 0 (sdf.Link.VisualCount _sdfLink)) (fun i =>
    match sdf.Link.VisualByIndex _sdfLink i with
    | Some visual => ConstructSdfVisual linkID visual ;; ret tt
    | None => ret tt
    end) ;;
  ret (GenerateIdentity linkID).

(** *** Link Resolver *)

Definition FindOrConstructLink
    (_model : SkeletonPtr) (_modelID : nat) (_sdfModel : sdf.Model.t)
    (_linkName : string) : M (option BodyNodePtr) :=
  let* s := get in
  match getBodyNode (bodyNodes s) _model _linkName with
  | Some link => ret (Some link)
  | None =>
      match sdf.Model.LinkByName _sdfModel _linkName with
      | None =>
          report ("[dartsim::ConstructSdfModel] Error: Model ["
                  +:+ sdf.Model.Name _sdfModel
                  +:+ "] does not contain a Link with the "
                  +:+ "name [" +:+ _linkName +:+ "].") ;;
          ret None
      | Some sdfLink =>
          let* id := ConstructSdfLink _modelID sdfLink in
          let* bn := links_at id in
          ret (Some bn)
      end
  end.

(** *** Joint Builder *)

Definition ConstructSingleAxisJoint (k : JointKind)
    (_modelInfo : ModelInfo) (_sdfJoint : sdf.Joint.t)
    (_parent _child : BodyNodePtr) (_T_joint : Isometry3d) : M unit :=
  let* s := get in
  let* properties :=
    deref (SingleAxisProperties k (GetParentModelFrame s _modelInfo)
                                _sdfJoint _T_joint) in
  moveTo _child _parent k properties.

Definition ConstructUniversalJoint
    (_modelInfo : ModelInfo) (_sdfJoint : sdf.Joint.t)
    (_parent _child : BodyNodePtr) (_T_joint : Isometry3d) : M unit :=
  let* s := get in
  let* properties :=
    deref (UniversalProperties (GetParentModelFrame s _modelInfo)
                               _sdfJoint _T_joint) in
  moveTo _child _parent UniversalJoint properties.

(** The dispatch on the joint type: [true] when a joint was created,
    [false] when the type is not supported. *)
Definition createJointOfType
    (_modelInfo : ModelInfo) (_sdfJoint : sdf.Joint.t)
    (_parent _child : BodyNodePtr) (T_joint : Isometry3d) : M bool :=
  match sdf.Joint.Type_ _sdfJoint with
  | sdf.BALL =>
      moveTo _child _parent BallJoint (defaultPropertiesOf BallJoint) ;;
      ret true
  | sdf.FIXED =>
      moveTo _child _parent WeldJoint (defaultPropertiesOf WeldJoint) ;;
      ret true
  | sdf.PRISMATIC =>
      ConstructSingleAxisJoint PrismaticJoint
        _modelInfo _sdfJoint _parent _child T_joint ;;
      ret true
  | sdf.REVOLUTE =>
      ConstructSingleAxisJoint RevoluteJoint
        _modelInfo _sdfJoint _parent _child T_joint ;;
      ret true
  | sdf.SCREW =>
      ConstructSingleAxisJoint ScrewJoint
        _modelInfo _sdfJoint _parent _child T_joint ;;
      match sdf.Joint.thread_pitch _sdfJoint with
      | Some pitch => onJointOf _child (Joint_setPitch pitch)
      | None => ret tt
      end ;;
      ret true
  | sdf.UNIVERSAL =>
      ConstructUniversalJoint _modelInfo _sdfJoint _parent _child T_joint ;;
      ret true
  | type =>
      report ("[dartsim::ConstructSdfJoint] Error: Asked to construct a "
              +:+ "joint of sdf::JointType ["
              +:+ pretty (sdf.JointType_to_int type)
              +:+ "], but that is not supported yet.") ;;
      ret false
  end.

(** [ConstructSdfJoint(_modelInfo, _sdfJoint, _parent, _child)] *)
Definition ConstructSdfJoint
    (_modelInfo : ModelInfo) (_sdfJoint : sdf.Joint.t)
    (_parent _child : option BodyNodePtr) : M Identity :=
  match _parent, _child with
  | Some parent, Some child =>
      let* s := get in
      if descendsFrom (bodyNodes s) parent child then
        report ("[dartsim::ConstructSdfJoint] Error: Asked to create a "
                +:+ "closed kinematic chain between links ["
                +:+ getName (bodyNodes s) parent +:+ "] and ["
                +:+ getName (bodyNodes s) child
                +:+ "], but that is not supported by the dartsim wrapper yet.") ;;
        ret GenerateInvalidId
      else
        let T_parent := getWorldTransform (bodyNodes s) parent in
        let T_child := getWorldTransform (bodyNodes s) child in
        let* frameT :=
          ResolveSdfJointReferenceFrame (sdf.Joint.PoseFrame _sdfJoint) child in
        let T_joint := compose frameT (sdf.Joint.Pose _sdfJoint) in
        let* created :=
          createJointOfType _modelInfo _sdfJoint parent child T_joint in
        if created then
          onJointOf child (Joint_setName (sdf.Joint.Name _sdfJoint)) ;;
          let child_T_postjoint := compose (inverse T_child) T_joint in
          let parent_T_prejoint_init := compose (inverse T_parent) T_joint in
          onJointOf child
            (Joint_setTransformFromParentBodyNode parent_T_prejoint_init) ;;
          onJointOf child
            (Joint_setTransformFromChildBodyNode child_T_postjoint) ;;
          let* s1 := get in
          let prejoint_T_postjoint :=
            compose (compose (inverse parent_T_prejoint_init)
                             (getTransform (bodyNodes s1) child parent))
                    child_T_postjoint in
          let parent_T_prejoint_final :=
            compose
              (compose
                 (compose (inverse (getWorldTransform (bodyNodes s1) parent))
                          T_child)
                 child_T_postjoint)
              (inverse prejoint_T_postjoint) in
          onJointOf child
            (Joint_setTransformFromParentBodyNode parent_T_prejoint_final) ;;
          let* jointID := AddJoint child in
          ret (GenerateIdentity jointID)
        else ret GenerateInvalidId
  | _, _ =>
      let* s := get in
      report ("[dartsim::ConstructSdfJoint] Error: Asked to create a joint from "
              +:+ "link [" +:+ sdf.Joint.ParentLinkName _sdfJoint
              +:+ "] to link [" +:+ sdf.Joint.ChildLinkName _sdfJoint
              +:+ "] in the model ["
              +:+ Skeleton_getName (skeletons s) (model _modelInfo) +:+ "], but "
              +:+ (if bool_decide (_parent = None)
                   then "the parent link "
                        +:+ (if bool_decide (_child = None) then " and " else "")
                   else "")
              +:+ (if bool_decide (_child = None) then "the child link " else "")
              +:+ "could not be found in that model!") ;;
      ret GenerateInvalidId
  end.

(** [ConstructSdfJoint(_modelID, _sdfJoint)]: the public entry point *)
Definition ConstructSdfJoint_byName (_modelID : nat) (_sdfJoint : sdf.Joint.t)
    : M Identity :=
  let* s := get in
  let* modelInfo := deref (models s !! _modelID) in
  let parent :=
    getBodyNode (bodyNodes s) (model modelInfo)
                (sdf.Joint.ParentLinkName _sdfJoint) in
  let child :=
    getBodyNode (bodyNodes s) (model modelInfo)
                (sdf.Joint.ChildLinkName _sdfJoint) in
  ConstructSdfJoint modelInfo _sdfJoint parent child.

(** *** Model Assembler *)

(** the body of the loop over the joints of a model *)
Definition joinLinks (model : SkeletonPtr) (modelID : nat) (modelInfo : ModelInfo)
    (_sdfModel : sdf.Model.t) (i : nat) : M unit :=
  match sdf.Model.JointByIndex _sdfModel i with
  | None =>
      report ("[dartsim::ConstructSdfModel] Error: The joint with "
              +:+ "index [" +:+ pretty i +:+ "] in model ["
              +:+ sdf.Model.Name _sdfModel
              +:+ "] is a nullptr. It will be skipped.")
  | Some sdfJoint =>
      let* parent :=
        FindOrConstructLink model modelID _sdfModel
                            (sdf.Joint.ParentLinkName sdfJoint) in
      let* child :=
        FindOrConstructLink model modelID _sdfModel
                            (sdf.Joint.ChildLinkName sdfJoint) in
      ConstructSdfJoint modelInfo sdfJoint parent child ;;
      ret tt
  end.

Definition ConstructSdfModel (_worldID : nat) (_sdfModel : sdf.Model.t)
    : M Identity :=
  let* model := Skeleton_create (sdf.Model.Name _sdfModel) in
  let* modelFrame :=
    SimpleFrame_createShared None (sdf.Model.Name _sdfModel +:+ "_frame")
                             (sdf.Model.Pose _sdfModel) in
  let* added := AddModel (mkModelInfo model modelFrame) _worldID in
  let modelID := fst added in
  let modelInfo := snd added in
  setMobile model (negb (sdf.Model.Static _sdfModel)) ;;
  setSelfCollisionCheck model (sdf.Model.SelfCollide _sdfModel) ;;
  forEach (seq 0 (sdf.Model.LinkCount _sdfModel)) (fun i =>
    let* link := deref (sdf.Model.LinkByIndex _sdfModel i) in
    FindOrConstructLink model modelID _sdfModel (sdf.Link.Name link) ;;
    ret tt) ;;
  forEach (seq 0 (sdf.Model.JointCount _sdfModel))
          (joinLinks model modelID modelInfo _sdfModel) ;;
  ret (GenerateIdentity modelID).

Definition ConstructSdfWorld (_sdfWorld : sdf.World.t) : M Identity :=
  let* worldID :=
    AddWorld (mkWorld (sdf.World.Name _sdfWorld) (sdf.World.Gravity _sdfWorld) []) in
  forEach (seq 0 (sdf.World.ModelCount _sdfWorld)) (fun i =>
    match sdf.World.ModelByIndex _sdfWorld i with
    | None => ret tt
    | Some model => ConstructSdfModel worldID model ;; ret tt
    end) ;;
  ret (GenerateIdentity worldID).

End Builders.

End SDFFeatures.

(* ================================================================== *)
(** * Part II: the vocabulary of the properties and concrete scenes  *)
(* ================================================================== *)

Import Eigen dart SDFFeatures.

(** A matrix whose transpose is its left inverse. *)
Definition orthogonal (M : Matrix3d) : Prop :=
  mmul (transpose M) M = MIdentity.

(** A proper rotation. *)
Definition is_rotation (M : Matrix3d) : Prop :=
  orthogonal M /\ (determinant M = 1)%R.

(** The well-formedness that the type [Isometry3d] stands for. *)
Definition isometry (T : Isometry3d) : Prop := orthogonal (linear T).

(** An axis about [z] with position limits [-1, 1], an effort limit of 5
    and no velocity limit. *)
Definition example_axis : sdf.JointAxis.t :=
  sdf.JointAxis.mk UnitZ false 0%float 0%float 0%float 0%float 0%float
                   (-1)%float 1%float 5%float (-1)%float.

(** The same axis with no effort limit. *)
Definition example_axis_unlimited : sdf.JointAxis.t :=
  sdf.JointAxis.mk UnitZ false 0%float 0%float 0%float 0%float 0%float
                   (-1)%float 1%float (-1)%float (-1)%float.


(** An axis given in the model frame. *)
Definition example_axis_model_frame : sdf.JointAxis.t :=
  sdf.JointAxis.mk (mkV 1 0 0) true 0%float 0%float 0%float 0%float 0%float
                   (-1)%float 1%float 5%float (-1)%float.

(** A revolute joint from "base" to "arm" about [example_axis]. *)
Definition example_revolute : sdf.Joint.t :=
  sdf.Joint.mk "hinge" sdf.REVOLUTE "base" "arm" Isometry3d_Identity ""
               [example_axis] None.

(** A universal joint from "base" to "arm" with two axes. *)
Definition example_universal : sdf.Joint.t :=
  sdf.Joint.mk "cardan" sdf.UNIVERSAL "base" "arm" Isometry3d_Identity ""
               [example_axis; example_axis_model_frame] None.




(** the body reached from [b] by [k] steps to the parent *)
Fixpoint nth_ancestor (k : nat) (bs : list BodyNode) (b : BodyNodePtr)
    : option BodyNodePtr :=
  match k with
  | 0 => Some b
  | S k' => parentOf bs b ≫= nth_ancestor k' bs
  end.

(** [a] is a proper ancestor of [b] *)
Definition is_ancestor (bs : list BodyNode) (a b : BodyNodePtr) : Prop :=
  exists k, nth_ancestor (S k) bs b = Some a.

(** every parent pointer addresses a body of the table *)
Definition valid_parents (bs : list BodyNode) : Prop :=
  forall b p, parentOf bs b = Some p -> p < length bs.

(** no body is its own ancestor *)
Definition acyclic (bs : list BodyNode) : Prop :=
  forall b, ~ is_ancestor bs b b.

(** the tree invariant of the body graph *)
Definition tree (bs : list BodyNode) : Prop :=
  valid_parents bs /\ acyclic bs.

(** the engine joint class of a supported joint type *)
Definition jointKindOf (t : sdf.JointType) : option JointKind :=
  match t with
  | sdf.BALL => Some BallJoint
  | sdf.FIXED => Some WeldJoint
  | sdf.PRISMATIC => Some PrismaticJoint
  | sdf.REVOLUTE => Some RevoluteJoint
  | sdf.SCREW => Some ScrewJoint
  | sdf.UNIVERSAL => Some UniversalJoint
  | _ => None
  end.

(** the properties of the joint that the dispatch on the type creates;
    [None] when an axis that the type needs is missing *)
Definition jointPropertiesOf
    (T_model : Isometry3d) (j : sdf.Joint.t) (T_joint : Isometry3d)
    : option Properties :=
  match sdf.Joint.Type_ j with
  | sdf.BALL => Some (defaultPropertiesOf BallJoint)
  | sdf.FIXED => Some (defaultPropertiesOf WeldJoint)
  | sdf.PRISMATIC => SingleAxisProperties PrismaticJoint T_model j T_joint
  | sdf.REVOLUTE => SingleAxisProperties RevoluteJoint T_model j T_joint
  | sdf.SCREW =>
      match SingleAxisProperties ScrewJoint T_model j T_joint with
      | Some properties =>
          Some (match sdf.Joint.thread_pitch j with
                | Some pitch => set_mPitch pitch properties
                | None => properties
                end)
      | None => None
      end
  | sdf.UNIVERSAL => UniversalProperties T_model j T_joint
  | _ => None
  end.

(** a joint other than a free joint, with its coordinates at the initial
    positions of its properties *)
Definition builtJoint (k : JointKind) (name : string) (properties : Properties)
    (parentToJoint childToJoint : Isometry3d) : Joint :=
  mkJoint k name properties parentToJoint childToJoint
          (Coordinates (mInitialPositions properties)).

(** the body [bn] once it hangs under [p] by the joint [jt] *)
Definition movedBody (p : BodyNodePtr) (jt : Joint) (bn : BodyNode) : BodyNode :=
  mkBodyNode (bodyName bn) (bodySkeleton bn) (mInertia bn) (Some p) jt.

(** the initial positions that the description declares for a joint, one
    per coordinate of its engine joint (a ball joint declares none and
    keeps the engine's zeros) *)
Definition declaredInitialPositions (j : sdf.Joint.t) : list float :=
  match sdf.Joint.Type_ j with
  | sdf.PRISMATIC | sdf.REVOLUTE | sdf.SCREW =>
      sdf.JointAxis.InitialPosition <$> take 1 (sdf.Joint.Axes j)
  | sdf.UNIVERSAL =>
      sdf.JointAxis.InitialPosition <$> take 2 (sdf.Joint.Axes j)
  | sdf.BALL => [0%float; 0%float; 0%float]
  | _ => []
  end.

(** a kinematic map that shifts by one unit along [z] *)
Definition example_jointTransform
    (_ : JointKind) (_ : Properties) (_ : list float) : Isometry3d :=
  mkT MIdentity (mkV 0 0 1).

(** a free body of skeleton 0 at the pose [T] *)
Definition example_body (name : string) (T : Isometry3d) : BodyNode :=
  mkBodyNode name 0 (mkInertia 1 MIdentity Zero3) None
             (mkJoint FreeJoint (name +:+ "_FreeJoint")
                      (defaultPropertiesOf FreeJoint)
                      Isometry3d_Identity Isometry3d_Identity (FreePose T)).

(** a model with the two free bodies "base" and "arm", the model frame
    on "base" *)
Definition example_state : Base :=
  mkBase [example_body "base" Isometry3d_Identity;
          example_body "arm" (mkT MIdentity (mkV 1 0 0))]
         [mkSimpleFrame "model_frame" (Some 0) Isometry3d_Identity]
         [] [mkSkeleton "model" true false]
         ∅ {[ 0 := mkModelInfo 0 0 ]} {[ 1 := 0; 3 := 1 ]} {[ 2 := 0; 4 := 1 ]} ∅
         5 [].

(** [s'] has the bodies, frames, skeletons and registries of [s], the
    shape registry apart: what the construction of shapes leaves alone *)
Definition same_bodies (s s' : Base) : Prop :=
  bodyNodes s' = bodyNodes s /\
  simpleFrames s' = simpleFrames s /\
  skeletons s' = skeletons s /\
  worlds s' = worlds s /\
  models s' = models s /\
  links s' = links s /\
  joints s' = joints s.

(** the inertia that the Link Builder gives a body *)
Definition linkInertia (l : sdf.Link.t) : Inertia :=
  let sdfInertia := sdf.Link.Inertial l in
  let R_inertial := sdf.Inertial.PoseRot sdfInertia in
  mkInertia (sdf.Inertial.Mass sdfInertia)
            (mmul (mmul R_inertial (sdf.Inertial.Moi sdfInertia))
                  (minverse R_inertial))
            (sdf.Inertial.PosePos sdfInertia).

(** a body of the skeleton [skel] on a free joint at the coordinates [q] *)
Definition freeBody (skel : SkeletonPtr) (l : sdf.Link.t) (q : Isometry3d)
    : BodyNode :=
  mkBodyNode (sdf.Link.Name l) skel (linkInertia l) None
             (mkJoint FreeJoint (sdf.Link.Name l +:+ "_FreeJoint")
                      (defaultPropertiesOf FreeJoint)
                      Isometry3d_Identity Isometry3d_Identity (FreePose q)).

(** the bodies of one skeleton carry pairwise different names *)
Definition unique_names (bs : list BodyNode) : Prop :=
  forall b1 b2 bn1 bn2,
    bs !! b1 = Some bn1 -> bs !! b2 = Some bn2 ->
    bodySkeleton bn1 = bodySkeleton bn2 -> bodyName bn1 = bodyName bn2 ->
    b1 = b2.

(** every body of the skeleton [skel] was built for a link that the model
    declares *)
Definition bodies_declared
    (bs : list BodyNode) (skel : SkeletonPtr) (m : sdf.Model.t) : Prop :=
  forall b bn,
    bs !! b = Some bn -> bodySkeleton bn = skel ->
    sdf.Model.LinkByName m (bodyName bn) <> None.

(** a link of unit mass at the pose [pose], without shapes *)
Definition example_link (name : string) (pose : Isometry3d) : sdf.Link.t :=
  sdf.Link.mk name (sdf.Inertial.mk 1 MIdentity MIdentity Zero3) pose "" [] [].

(** the model of the concrete scene, with a third link that is not built
    yet and a joint between the first two *)
Definition example_model : sdf.Model.t :=
  sdf.Model.mk "model" false false Isometry3d_Identity
    [example_link "base" Isometry3d_Identity;
     example_link "arm" (mkT MIdentity (mkV 1 0 0));
     example_link "tip" (mkT MIdentity (mkV 2 0 0))]
    [example_revolute].

(** [s'] is [s] with more messages on the diagnostic stream *)
Definition only_reports (s s' : Base) : Prop :=
  exists msgs, s' = set_cerr (app msgs) s.

(** the name is neither a body of the skeleton nor a link of the model *)
Definition dangling
    (m : sdf.Model.t) (bs : list BodyNode) (skel : SkeletonPtr) (name : string)
    : Prop :=
  sdf.Model.LinkByName m name = None /\ getBodyNode bs skel name = None.

(** the concrete scene after "arm" has been hung on "base" *)
Definition example_chain_state : Base :=
  set_bodyNodes
    (fun _ =>
       [example_body "base" Isometry3d_Identity;
        mkBodyNode "arm" 0 (mkInertia 1 MIdentity Zero3) (Some 0)
                   (mkJoint RevoluteJoint "hinge"
                            (defaultPropertiesOf RevoluteJoint)
                            (mkT MIdentity (mkV 1 0 0)) Isometry3d_Identity
                            (Coordinates [0%float]))])
    example_state.

(** a joint that would hang "base" on "arm" *)
Definition example_backward : sdf.Joint.t :=
  sdf.Joint.mk "backward" sdf.REVOLUTE "arm" "base" Isometry3d_Identity ""
               [example_axis] None.

(** a joint from the name "world", which is no link of the model *)
Definition example_anchor : sdf.Joint.t :=
  sdf.Joint.mk "anchor" sdf.FIXED "world" "base" Isometry3d_Identity ""
               [] None.

(** the model of the concrete scene with [example_anchor] as its first
    joint *)
Definition example_anchored_model : sdf.Model.t :=
  sdf.Model.mk "model" false false Isometry3d_Identity
    [example_link "base" Isometry3d_Identity;
     example_link "arm" (mkT MIdentity (mkV 1 0 0))]
    [example_anchor; example_revolute].

(** the model frame [f] hangs on the world and the skeleton [skel] has no
    body *)
Definition frame_on_world (st : Base) (skel : SkeletonPtr) (f : SimpleFramePtr)
    : Prop :=
  (exists sf, simpleFrames st !! f = Some sf /\ parentFrame sf = None) /\
  getNumBodyNodes (bodyNodes st) skel = 0.

(** the model frame [f] hangs on the body [b0], which is the first body
    of the skeleton [skel] in the table and carries the name [n0] *)
Definition frame_on_first_body (st : Base) (skel : SkeletonPtr)
    (f : SimpleFramePtr) (b0 : BodyNodePtr) (n0 : string) : Prop :=
  (exists sf, simpleFrames st !! f = Some sf /\ parentFrame sf = Some b0) /\
  (exists bn, bodyNodes st !! b0 = Some bn /\
              bodySkeleton bn = skel /\ bodyName bn = n0) /\
  (forall b bn, b < b0 -> bodyNodes st !! b = Some bn ->
                bodySkeleton bn <> skel).

(** a registered model whose skeleton has no body yet, the model frame two
    units above the origin *)
Definition example_fresh_state : Base :=
  mkBase [] [mkSimpleFrame "model_frame" None (mkT MIdentity (mkV 0 0 2))]
         [] [mkSkeleton "model" true false]
         ∅ {[ 0 := mkModelInfo 0 0 ]} ∅ ∅ ∅ 1 [].

(** the links of the concrete scene without a joint *)
Definition example_jointless_model : sdf.Model.t :=
  sdf.Model.mk "model" false false (mkT MIdentity (mkV 0 0 2))
    [example_link "base" Isometry3d_Identity;
     example_link "arm" (mkT MIdentity (mkV 1 0 0))]
    [].

(** ** The vocabulary of the further properties *)

(** the body table [bs] while a model is assembled on the table [bs0]:
    the bodies of [bs0] are as they were; the bodies added since belong
    to the skeleton [skel], are named after links that the model
    declares, and carry pairwise different names *)
Definition model_bodies (m : sdf.Model.t) (skel : SkeletonPtr)
    (bs0 bs : list BodyNode) : Prop :=
  (forall b, b < length bs0 -> bs !! b = bs0 !! b) /\
  length bs0 <= length bs /\
  (forall b bn, length bs0 <= b -> bs !! b = Some bn ->
                bodySkeleton bn = skel /\
                sdf.Model.LinkByName m (bodyName bn) <> None) /\
  (forall b1 b2 bn1 bn2,
     length bs0 <= b1 -> length bs0 <= b2 ->
     bs !! b1 = Some bn1 -> bs !! b2 = Some bn2 ->
     bodyName bn1 = bodyName bn2 -> b1 = b2).

(** from [s] to [s'] the skeletons are kept, and so are the frames but
    for the parent and the transform of the frame [f] *)
Definition frames_kept (f : SimpleFramePtr) (s s' : Base) : Prop :=
  skeletons s' = skeletons s /\
  length (simpleFrames s') = length (simpleFrames s) /\
  (forall f', f' <> f -> simpleFrames s' !! f' = simpleFrames s !! f') /\
  (frameName <$> simpleFrames s' !! f) = (frameName <$> simpleFrames s !! f).

(** the skeleton that the Model Assembler makes for a model *)
Definition skeletonOf (m : sdf.Model.t) : Skeleton :=
  mkSkeleton (sdf.Model.Name m) (negb (sdf.Model.Static m))
             (sdf.Model.SelfCollide m).

(** every body belongs to a skeleton of the table *)
Definition bodies_in_skeletons (s : Base) : Prop :=
  forall b bn, bodyNodes s !! b = Some bn ->
               bodySkeleton bn < length (skeletons s).

(** the joint declares the axes that its type reads *)
Definition axes_present (j : sdf.Joint.t) : Prop :=
  match sdf.Joint.Type_ j with
  | sdf.PRISMATIC | sdf.REVOLUTE | sdf.SCREW => sdf.Joint.Axis j 0 <> None
  | sdf.UNIVERSAL =>
      sdf.Joint.Axis j 0 <> None /\ sdf.Joint.Axis j 1 <> None
  | _ => True
  end.

(** the geometry declares a shape that the Geometry Builder makes *)
Definition geometry_has_shape (g : sdf.Geometry.t) : bool :=
  match sdf.Geometry.BoxShape g, sdf.Geometry.CylinderShape g,
        sdf.Geometry.SphereShape g, sdf.Geometry.PlaneShape g with
  | None, None, None, None => false
  | _, _, _, _ => true
  end.

Definition collision_has_shape (col : sdf.Collision.t) : bool :=
  match sdf.Collision.Geom col with
  | Some g => geometry_has_shape g
  | None => false
  end.

Definition visual_has_shape (vis : sdf.Visual.t) : bool :=
  match sdf.Visual.Geom vis with
  | Some g => geometry_has_shape g
  | None => false
  end.

(** from [s] to [s'], [n] shape nodes were appended, all of them on the
    body [bn], and bodies, frames and registries of bodies were kept *)
Definition shapes_added (bn : BodyNodePtr) (n : nat) (s s' : Base) : Prop :=
  same_bodies s s' /\
  exists tail,
    shapeNodes s' = shapeNodes s ++ tail /\
    Forall (fun sn => shapeOwner sn = bn) tail /\
    length tail = n.

(** ** Further concrete scenes *)

(** a gearbox joint, a type that the Joint Builder does not know *)
Definition example_gearbox : sdf.Joint.t :=
  sdf.Joint.mk "gear" sdf.GEARBOX "base" "arm" Isometry3d_Identity "" [] None.

(** a revolute joint that declares no axis *)
Definition example_bare_revolute : sdf.Joint.t :=
  sdf.Joint.mk "bare" sdf.REVOLUTE "base" "arm" Isometry3d_Identity "" [] None.

(** a ball joint that declares an axis all the same *)
Definition example_ball : sdf.Joint.t :=
  sdf.Joint.mk "ball" sdf.BALL "base" "arm" Isometry3d_Identity ""
               [example_axis] None.

(** a unit box, and a geometry that declares only a mesh *)
Definition example_box_geometry : sdf.Geometry.t :=
  sdf.Geometry.mk (Some (sdf.Box.mk (mkV 1 1 1))) None None None None.

Definition example_mesh_geometry : sdf.Geometry.t :=
  sdf.Geometry.mk None None None None (Some (sdf.Mesh.mk "mesh.dae")).

Definition example_collision : sdf.Collision.t :=
  sdf.Collision.mk "hull" (Some example_box_geometry)
                   (mkT MIdentity (mkV 0 0 1)).

Definition example_visual : sdf.Visual.t :=
  sdf.Visual.mk "skin" (Some example_box_geometry) Isometry3d_Identity
                (Some (sdf.Material.mk (1%R, 0%R, 0%R, 1%R))).

(** a link with a box as collision, and a box and a mesh as visuals *)
Definition example_shaped_link : sdf.Link.t :=
  sdf.Link.mk "base" (sdf.Inertial.mk 1 MIdentity MIdentity Zero3)
              (mkT MIdentity (mkV 1 0 0)) ""
              [example_collision]
              [example_visual;
               sdf.Visual.mk "detail" (Some example_mesh_geometry)
                             Isometry3d_Identity None].

(** the concrete scene in a registered world: the world has the id 0,
    the model the id 1, the links the ids 2 and 4, their joints 3 and 5 *)
Definition example_populated_state : Base :=
  mkBase [example_body "base" Isometry3d_Identity;
          example_body "arm" (mkT MIdentity (mkV 1 0 0))]
         [mkSimpleFrame "model_frame" (Some 0) Isometry3d_Identity]
         [] [mkSkeleton "model" true false]
         {[ 0 := mkWorld "world" (mkV 0 0 (-10)) [0] ]}
         {[ 1 := mkModelInfo 0 0 ]} {[ 2 := 0; 4 := 1 ]} {[ 3 := 0; 5 := 1 ]} ∅
         6 [].

(** a world of two models, one without joints and one with a joint *)
Definition example_world : sdf.World.t :=
  sdf.World.mk "world" (mkV 0 0 (-10))
               [example_jointless_model; example_model].

(* ================================================================== *)
(** * Part III: properties                                             *)
(* ================================================================== *)

(** ** The transform algebra *)
Section TransformAlgebra.
Local Open Scope R_scope.

Lemma orthogonal_right M : orthogonal M -> mmul M (transpose M) = MIdentity.
Proof.
  destruct M as [a b c d e f g h i].
  unfold orthogonal, mmul, transpose, MIdentity; simpl.
  intros H; injection H; clear H; intros.
  f_equal; nsatz.
Qed.

Lemma mmul_assoc A B C : mmul (mmul A B) C = mmul A (mmul B C).
Proof. unfold mmul; simpl; f_equal; ring. Qed.

Lemma mmul_id_l A : mmul MIdentity A = A.
Proof. destruct A; unfold mmul, MIdentity; simpl; f_equal; ring. Qed.

Lemma mmul_id_r A : mmul A MIdentity = A.
Proof. destruct A; unfold mmul, MIdentity; simpl; f_equal; ring. Qed.

Lemma transpose_mmul A B :
  transpose (mmul A B) = mmul (transpose B) (transpose A).
Proof. unfold mmul, transpose; simpl; f_equal; ring. Qed.

Lemma transpose_involutive A : transpose (transpose A) = A.
Proof. destruct A; reflexivity. Qed.


Lemma orthogonal_MIdentity : orthogonal MIdentity.
Proof. unfold orthogonal, mmul, transpose, MIdentity; simpl; f_equal; ring. Qed.

Lemma orthogonal_transpose M : orthogonal M -> orthogonal (transpose M).
Proof.
  intros H. unfold orthogonal. rewrite transpose_involutive.
  now apply orthogonal_right.
Qed.

Lemma orthogonal_mmul A B : orthogonal A -> orthogonal B -> orthogonal (mmul A B).
Proof.
  unfold orthogonal; intros HA HB.
  rewrite transpose_mmul, mmul_assoc, <- (mmul_assoc (transpose A)), HA.
  now rewrite mmul_id_l.
Qed.

Lemma compose_assoc A B C :
  compose (compose A B) C = compose A (compose B C).
Proof. unfold compose, mmul, mvmul, vadd; simpl; f_equal; f_equal; ring. Qed.

Lemma compose_id_l A : compose Isometry3d_Identity A = A.
Proof.
  destruct A as [[] []].
  unfold compose, Isometry3d_Identity, MIdentity, Zero3, mmul, mvmul, vadd; simpl.
  f_equal; f_equal; ring.
Qed.

Lemma compose_id_r A : compose A Isometry3d_Identity = A.
Proof.
  destruct A as [[] []].
  unfold compose, Isometry3d_Identity, MIdentity, Zero3, mmul, mvmul, vadd; simpl.
  f_equal; f_equal; ring.
Qed.

Lemma inverse_l A : isometry A -> compose (inverse A) A = Isometry3d_Identity.
Proof.
  destruct A as [[a b c d e f g h i] [x y z]].
  unfold isometry, orthogonal, compose, inverse, Isometry3d_Identity.
  unfold mmul, transpose, mopp, mvmul, vadd, MIdentity, Zero3; simpl.
  intros H; injection H; clear H; intros.
  f_equal; f_equal; first [assumption | ring].
Qed.

Lemma inverse_r A : isometry A -> compose A (inverse A) = Isometry3d_Identity.
Proof.
  intros H. pose proof (orthogonal_right _ H) as Hr. revert Hr.
  destruct A as [[a b c d e f g h i] [x y z]].
  unfold compose, inverse, Isometry3d_Identity.
  unfold mmul, transpose, mopp, mvmul, vadd, MIdentity, Zero3; simpl.
  intros Hr; injection Hr; clear Hr; intros.
  f_equal; f_equal; first [assumption | nsatz].
Qed.

Lemma isometry_Identity : isometry Isometry3d_Identity.
Proof. exact orthogonal_MIdentity. Qed.

Lemma isometry_compose A B : isometry A -> isometry B -> isometry (compose A B).
Proof. unfold isometry; simpl. apply orthogonal_mmul. Qed.

Lemma isometry_inverse A : isometry A -> isometry (inverse A).
Proof. unfold isometry; simpl. apply orthogonal_transpose. Qed.

(** Cancellation in products, in the shapes the builders produce. *)
Lemma compose_inverse_cancel_l A B :
  isometry A -> compose A (compose (inverse A) B) = B.
Proof.
  intros H. now rewrite <- compose_assoc, inverse_r, compose_id_l.
Qed.

Lemma inverse_compose_cancel_l A B :
  isometry A -> compose (inverse A) (compose A B) = B.
Proof.
  intros H. now rewrite <- compose_assoc, inverse_l, compose_id_l.
Qed.

End TransformAlgebra.

Create HintDb isometry.
#[local] Hint Resolve isometry_Identity isometry_compose isometry_inverse : isometry.

(** ** The limit convention of the axis records *)
Section Limits.
Local Open Scope float_scope.

Lemma infIfNeg_negative v : (v <? 0) = true -> infIfNeg v = infinity.
Proof. unfold infIfNeg; now intros ->. Qed.

Lemma infIfNeg_not_negative v : (v <? 0) = false -> infIfNeg v = v.
Proof. unfold infIfNeg; now intros ->. Qed.

(** A float that is at least zero is not below zero. *)
Lemma leb_zero_not_ltb v : (0 <=? v) = true -> (v <? 0) = false.
Proof.
  rewrite leb_spec, ltb_spec.
  change (Prim2SF 0) with (S754_zero false).
  unfold SFleb, SFltb.
  destruct (Prim2SF v) as [ [] | [] | | [] m e]; simpl; congruence.
Qed.

Lemma infIfNeg_nonneg v : (0 <=? v) = true -> infIfNeg v = v.
Proof. intros H. now apply infIfNeg_not_negative, leb_zero_not_ltb. Qed.

Lemma opp_infinity : - infinity = neg_infinity.
Proof. reflexivity. Qed.

End Limits.

(** C8. The force limits of a copied axis record: a declared effort of -1
    gives (-inf, +inf), a declared effort of 5.0 gives (-5.0, +5.0), and
    any declared effort [e] that is at least zero gives (-e, +e). *)
Theorem effort_limit_convention
    (_index : nat) (_properties : Properties) (_sdfAxis : sdf.JointAxis.t) :
  _index < length (mForceLowerLimits _properties) ->
  _index < length (mForceUpperLimits _properties) ->
  let p := CopyStandardJointAxisProperties _index _properties _sdfAxis in
  let e := sdf.JointAxis.Effort _sdfAxis in
  (e = (-1)%float ->
     mForceLowerLimits p !! _index = Some neg_infinity /\
     mForceUpperLimits p !! _index = Some infinity) /\
  (e = 5%float ->
     mForceLowerLimits p !! _index = Some (-5)%float /\
     mForceUpperLimits p !! _index = Some 5%float) /\
  ((0 <=? e)%float = true ->
     mForceLowerLimits p !! _index = Some (- e)%float /\
     mForceUpperLimits p !! _index = Some e).
Proof.
  intros Hlo Hup p e.
  assert (Hl : mForceLowerLimits p !! _index = Some (- infIfNeg e)%float)
    by (apply list_lookup_insert_eq, Hlo).
  assert (Hu : mForceUpperLimits p !! _index = Some (infIfNeg e))
    by (apply list_lookup_insert_eq, Hup).
  rewrite Hl, Hu. clearbody e. clear.
  split; [| split].
  - intros ->. split; reflexivity.
  - intros ->. split; reflexivity.
  - intros H. rewrite (infIfNeg_nonneg _ H). split; reflexivity.
Qed.

Lemma effort_limit_convention_witness :
  let p := CopyStandardJointAxisProperties
             0 (defaultPropertiesOf RevoluteJoint) example_axis in
  let e := sdf.JointAxis.Effort example_axis in
  (e = (-1)%float ->
     mForceLowerLimits p !! 0 = Some neg_infinity /\
     mForceUpperLimits p !! 0 = Some infinity) /\
  (e = 5%float ->
     mForceLowerLimits p !! 0 = Some (-5)%float /\
     mForceUpperLimits p !! 0 = Some 5%float) /\
  ((0 <=? e)%float = true ->
     mForceLowerLimits p !! 0 = Some (- e)%float /\
     mForceUpperLimits p !! 0 = Some e).
Proof.
  apply (effort_limit_convention
           0 (defaultPropertiesOf RevoluteJoint) example_axis); simpl; lia.
Defined.

(** C3 (as amended). The convention "negative means unbounded" holds for
    the force and the velocity limits of a copied axis record: a declared
    negative effort or maximal velocity is stored as (-inf, +inf), any
    other declared value [v] as (-v, +v).  The position limits are stored
    as declared, whatever their sign. *)
Theorem limit_convention
    (_index : nat) (_properties : Properties) (_sdfAxis : sdf.JointAxis.t) :
  _index < length (mPositionLowerLimits _properties) ->
  _index < length (mPositionUpperLimits _properties) ->
  _index < length (mForceLowerLimits _properties) ->
  _index < length (mForceUpperLimits _properties) ->
  _index < length (mVelocityLowerLimits _properties) ->
  _index < length (mVelocityUpperLimits _properties) ->
  let p := CopyStandardJointAxisProperties _index _properties _sdfAxis in
  let e := sdf.JointAxis.Effort _sdfAxis in
  let v := sdf.JointAxis.MaxVelocity _sdfAxis in
  mPositionLowerLimits p !! _index = Some (sdf.JointAxis.Lower _sdfAxis) /\
  mPositionUpperLimits p !! _index = Some (sdf.JointAxis.Upper _sdfAxis) /\
  mForceLowerLimits p !! _index
    = Some (if (e <? 0)%float then neg_infinity else (- e)%float) /\
  mForceUpperLimits p !! _index
    = Some (if (e <? 0)%float then infinity else e) /\
  mVelocityLowerLimits p !! _index
    = Some (if (v <? 0)%float then neg_infinity else (- v)%float) /\
  mVelocityUpperLimits p !! _index
    = Some (if (v <? 0)%float then infinity else v).
Proof.
  intros H1 H2 H3 H4 H5 H6 p e v. subst p; simpl.
  rewrite !list_lookup_insert_eq by assumption.
  fold e v. unfold infIfNeg.
  destruct (e <? 0)%float, (v <? 0)%float; repeat split; reflexivity.
Qed.

Lemma limit_convention_witness :
  let p := CopyStandardJointAxisProperties
             0 (defaultPropertiesOf RevoluteJoint) example_axis in
  mPositionLowerLimits p !! 0 = Some (-1)%float /\
  mPositionUpperLimits p !! 0 = Some 1%float /\
  mForceLowerLimits p !! 0 = Some (-5)%float /\
  mForceUpperLimits p !! 0 = Some 5%float /\
  mVelocityLowerLimits p !! 0 = Some neg_infinity /\
  mVelocityUpperLimits p !! 0 = Some infinity.
Proof.
  apply (limit_convention
           0 (defaultPropertiesOf RevoluteJoint) example_axis); simpl; lia.
Defined.

(** C3 (as stated) fails on the position limits: the declared lower
    position limit -1 is negative, and it is stored as -1, not as -inf. *)
Lemma position_limit_negative_kept :
  let p := CopyStandardJointAxisProperties
             0 (defaultPropertiesOf RevoluteJoint) example_axis in
  (sdf.JointAxis.Lower example_axis <? 0)%float = true /\
  mPositionLowerLimits p !! 0 = Some (-1)%float /\
  mPositionLowerLimits p !! 0 <> Some neg_infinity.
Proof.
  simpl. split; [reflexivity | split; [reflexivity |]].
  intros H.
  pose proof (f_equal (fun o => match o with
                                | Some x => (x =? -1)%float
                                | None => false
                                end) H) as E.
  vm_compute in E. discriminate E.
Qed.

(** ** Geometry Builder: the corrective rotation of a plane *)
Section PlaneGeometry.
Local Open Scope R_scope.

Lemma tolerance_pos : 0 < 1 / 10 ^ 12.
Proof. apply Rdiv_lt_0_compat; [lra | apply pow_lt; lra]. Qed.

Lemma norm_Zero3 : norm Zero3 = 0.
Proof.
  unfold norm, squaredNorm, Zero3; simpl.
  replace (0 * 0 + 0 * 0 + 0 * 0) with 0 by ring. apply sqrt_0.
Qed.

(** When the cross product with the up axis vanishes and the normal has
    unit length, no rotation is applied. *)
Lemma plane_rotation_degenerate (_plane : sdf.Plane.t) :
  plane_axis _plane = Zero3 ->
  norm (sdf.Plane.Normal _plane) = 1 ->
  plane_norm _plane = 0 /\ plane_angle _plane = 0 /\
  plane_rotation _plane = None.
Proof.
  intros Hax Hn.
  assert (H0 : plane_norm _plane = 0)
    by (unfold plane_norm; rewrite Hax; apply norm_Zero3).
  assert (Ha : plane_angle _plane = 0).
  { unfold plane_angle. rewrite H0, Hn.
    replace (0 / 1) with 0 by field. apply asin_0. }
  repeat split; try assumption.
  unfold plane_rotation. rewrite Ha.
  destruct (Rgt_dec 0 (1 / 10 ^ 12)) as [Hgt | _]; [| reflexivity].
  pose proof tolerance_pos. lra.
Qed.

Lemma plane_axis_up (size : R * R) :
  plane_axis (sdf.Plane.mk UnitZ size) = Zero3.
Proof. unfold plane_axis, cross, UnitZ, Zero3; simpl. f_equal; ring. Qed.

Lemma plane_axis_down (size : R * R) :
  plane_axis (sdf.Plane.mk (mkV 0 0 (-1)) size) = Zero3.
Proof. unfold plane_axis, cross, UnitZ, Zero3; simpl. f_equal; ring. Qed.

Lemma norm_up : norm UnitZ = 1.
Proof.
  unfold norm, squaredNorm, UnitZ; simpl.
  replace (0 * 0 + 0 * 0 + 1 * 1) with 1 by ring. apply sqrt_1.
Qed.

Lemma norm_down : norm (mkV 0 0 (-1)) = 1.
Proof.
  unfold norm, squaredNorm; simpl.
  replace (0 * 0 + 0 * 0 + -1 * -1) with 1 by ring. apply sqrt_1.
Qed.

(** C9. A plane whose normal is the up axis (0,0,1) gets the identity as
    corrective rotation: the cross-product axis and its norm are zero, the
    angle is zero, and the branch that divides the axis by its norm is not
    taken.  For any plane that branch is taken only when the computed
    angle exceeds the tolerance 1e-12, and the rotation it applies is by
    that angle about [axis/norm]. *)
Theorem plane_up_identity :
  (forall size : R * R,
     let _plane := sdf.Plane.mk UnitZ size in
     plane_axis _plane = Zero3 /\
     plane_norm _plane = 0 /\
     plane_angle _plane = 0 /\
     plane_rotation _plane = None /\
     ConstructPlane _plane =
       mkShapeAndTransform
         (Some (BoxShape (mkV (fst size) (snd size) (1 / 10 ^ 4))))
         Isometry3d_Identity) /\
  (forall (_plane : sdf.Plane.t) (aa : AngleAxisd),
     plane_rotation _plane = Some aa ->
     plane_angle _plane > 1 / 10 ^ 12 /\
     aa = mkAA (plane_angle _plane)
               (vdiv (plane_axis _plane) (plane_norm _plane))).
Proof.
  split.
  - intros size _plane.
    destruct (plane_rotation_degenerate _plane (plane_axis_up size) norm_up)
      as (H0 & Ha & Hr).
    repeat split; try assumption; try apply plane_axis_up.
    unfold ConstructPlane. rewrite Hr. reflexivity.
  - intros _plane aa. unfold plane_rotation.
    destruct (Rgt_dec (plane_angle _plane) (1 / 10 ^ 12)) as [Hgt | Hle].
    + intros [= <-]. split; [exact Hgt | reflexivity].
    + discriminate.
Qed.

(** C10. The angle of the corrective rotation is an arcsine and never
    exceeds a right angle.  A plane whose normal is (0,0,-1) has a zero
    cross product with the up axis, an angle of zero and the identity as
    corrective rotation: the same output as for the normal (0,0,1). *)
Theorem plane_down_identity :
  (forall _plane : sdf.Plane.t,
     - (PI / 2) <= plane_angle _plane <= PI / 2) /\
  (forall (_plane : sdf.Plane.t) (aa : AngleAxisd),
     plane_rotation _plane = Some aa -> angle aa <= PI / 2) /\
  (forall size : R * R,
     let _plane := sdf.Plane.mk (mkV 0 0 (-1)) size in
     plane_axis _plane = Zero3 /\
     plane_angle _plane = 0 /\
     st_tf (ConstructPlane _plane) = Isometry3d_Identity /\
     ConstructPlane _plane = ConstructPlane (sdf.Plane.mk UnitZ size)).
Proof.
  split; [| split].
  - intros _plane. apply asin_bound.
  - intros _plane aa. unfold plane_rotation.
    destruct (Rgt_dec (plane_angle _plane) (1 / 10 ^ 12)); [| discriminate].
    intros [= <-]. simpl. apply asin_bound.
  - intros size _plane.
    destruct (plane_rotation_degenerate _plane (plane_axis_down size) norm_down)
      as (H0 & Ha & Hr).
    destruct (plane_rotation_degenerate _ (plane_axis_up size) norm_up)
      as (_ & _ & Hu).
    repeat split; try assumption; try apply plane_axis_down.
    + unfold ConstructPlane. rewrite Hr. reflexivity.
    + unfold ConstructPlane. rewrite Hr, Hu. reflexivity.
Qed.

(** A plane that stands upright, its normal along [x]: the angle is a
    right angle and the rotation branch is taken. *)
Lemma plane_angle_sideways (size : R * R) :
  plane_angle (sdf.Plane.mk (mkV 1 0 0) size) = PI / 2.
Proof.
  unfold plane_angle, plane_norm, plane_axis, norm, squaredNorm, cross, UnitZ;
    simpl.
  match goal with
  | |- asin (R_sqrt.sqrt ?a / R_sqrt.sqrt ?b) = _ =>
      replace a with 1 by ring; replace b with 1 by ring
  end.
  rewrite sqrt_1. replace (1 / 1) with 1 by field. apply asin_1.
Qed.

Lemma plane_rotation_sideways (size : R * R) :
  let _plane := sdf.Plane.mk (mkV 1 0 0) size in
  plane_rotation _plane
    = Some (mkAA (plane_angle _plane)
                 (vdiv (plane_axis _plane) (plane_norm _plane))).
Proof.
  intros _plane. unfold plane_rotation.
  destruct (Rgt_dec (plane_angle _plane) (1 / 10 ^ 12)) as [_ | Hle];
    [reflexivity | exfalso].
  apply Hle. unfold _plane. rewrite plane_angle_sideways.
  pose proof PI2_1.
  assert (Hx : 1 < 10 ^ 12) by (apply Rlt_pow_R1; [lra | lia]).
  assert (Hi : / 10 ^ 12 < / 1) by (apply Rinv_lt_contravar; lra).
  rewrite Rinv_1 in Hi. unfold Rdiv. lra.
Qed.

Lemma plane_up_identity_witness :
  let _plane := sdf.Plane.mk (mkV 1 0 0) (1, 1) in
  let aa := mkAA (plane_angle _plane)
                 (vdiv (plane_axis _plane) (plane_norm _plane)) in
  plane_rotation _plane = Some aa /\
  plane_angle _plane > 1 / 10 ^ 12 /\
  aa = mkAA (plane_angle _plane) (vdiv (plane_axis _plane) (plane_norm _plane)).
Proof.
  intros _plane aa.
  assert (H : plane_rotation _plane = Some aa)
    by apply plane_rotation_sideways.
  split; [exact H |]. exact (proj2 plane_up_identity _plane aa H).
Defined.

Lemma plane_down_identity_witness :
  let _plane := sdf.Plane.mk (mkV 1 0 0) (2, 3) in
  let aa := mkAA (plane_angle _plane)
                 (vdiv (plane_axis _plane) (plane_norm _plane)) in
  plane_rotation _plane = Some aa /\ angle aa <= PI / 2.
Proof.
  intros _plane aa.
  assert (H : plane_rotation _plane = Some aa)
    by apply plane_rotation_sideways.
  split; [exact H |].
  exact (proj1 (proj2 plane_down_identity) _plane aa H).
Defined.

End PlaneGeometry.

(** ** Quaternions and the conversion of joint axes *)
Section JointAxes.
Local Open Scope R_scope.














End JointAxes.

Lemma is_rotation_MIdentity : is_rotation MIdentity.
Proof.
  split; [apply orthogonal_MIdentity |].
  unfold determinant, MIdentity; simpl. ring.
Qed.

(** ** The body graph: ancestors and the tree invariant *)

Section BodyGraph.

Lemma nth_ancestor_add bs i j b :
  nth_ancestor (i + j) bs b = nth_ancestor i bs b ≫= nth_ancestor j bs.
Proof.
  revert b; induction i as [| i IH]; intros b; simpl; [reflexivity |].
  destruct (parentOf bs b) as [p |]; simpl; [apply IH | reflexivity].
Qed.

Lemma nth_ancestor_prefix bs i k b x :
  nth_ancestor k bs b = Some x -> i <= k ->
  exists y, nth_ancestor i bs b = Some y /\ nth_ancestor (k - i) bs y = Some x.
Proof.
  intros H Hle. replace k with (i + (k - i)) in H by lia.
  rewrite nth_ancestor_add in H.
  destruct (nth_ancestor i bs b) as [y |]; simpl in H; [| discriminate].
  now exists y.
Qed.

Lemma parentOf_lt bs b p : parentOf bs b = Some p -> b < length bs.
Proof.
  unfold parentOf. destruct (bs !! b) eqn:E; simpl; [| discriminate].
  intros _. now apply lookup_lt_Some in E.
Qed.

Lemma nth_ancestor_lt bs k b x :
  valid_parents bs -> b < length bs ->
  nth_ancestor k bs b = Some x -> x < length bs.
Proof.
  intros Hv. revert b; induction k as [| k IH]; intros b Hb; simpl.
  - now intros [= <-].
  - destruct (parentOf bs b) as [p |] eqn:E; simpl; [| discriminate].
    apply IH. now apply (Hv b).
Qed.

(** In a tree, a chain of parents never returns to a body it has left. *)
Lemma chain_injective bs b i j x :
  acyclic bs -> i < j ->
  nth_ancestor i bs b = Some x -> nth_ancestor j bs b <> Some x.
Proof.
  intros Hac Hij Hi Hj.
  destruct (nth_ancestor_prefix bs i j b x Hj) as (y & Hy & Hrest); [lia |].
  rewrite Hi in Hy. injection Hy as <-.
  apply (Hac x). exists (j - i - 1).
  now replace (S (j - i - 1)) with (j - i) by lia.
Qed.

(** In a tree of [n] bodies, a chain of parents has fewer than [n] steps. *)
Lemma chain_bound bs b k x :
  tree bs -> b < length bs ->
  nth_ancestor k bs b = Some x -> k < length bs.
Proof.
  intros [Hv Hac] Hb Hk.
  set (g := fun i => default 0 (nth_ancestor i bs b)).
  assert (Hdef : forall i, i <= k -> nth_ancestor i bs b = Some (g i)).
  { intros i Hi. destruct (nth_ancestor_prefix bs i k b x Hk Hi) as (y & Hy & _).
    unfold g. now rewrite Hy. }
  assert (Hnd : NoDup (g <$> seq 0 (S k))).
  { apply NoDup_fmap_2_strong; [| apply NoDup_seq].
    intros i j Hi Hj Heq.
    apply elem_of_seq in Hi, Hj.
    destruct (Nat.lt_trichotomy i j) as [Hlt | [-> | Hlt]]; [| reflexivity |].
    - exfalso. apply (chain_injective bs b i j (g i) Hac Hlt).
      + apply Hdef; lia.
      + rewrite Heq. apply Hdef; lia.
    - exfalso. apply (chain_injective bs b j i (g j) Hac Hlt).
      + apply Hdef; lia.
      + rewrite <- Heq. apply Hdef; lia. }
  assert (Hincl : g <$> seq 0 (S k) ⊆ seq 0 (length bs)).
  { intros y Hy. apply list_elem_of_fmap in Hy as (i & -> & Hi).
    apply elem_of_seq in Hi. apply elem_of_seq. split; [lia |]. simpl.
    apply (nth_ancestor_lt bs i b); [assumption | assumption |].
    apply Hdef; lia. }
  pose proof (submseteq_length _ _ (NoDup_submseteq _ _ Hnd Hincl)) as Hlen.
  rewrite length_fmap, !length_seq in Hlen. lia.
Qed.

Lemma chain_ends bs b :
  tree bs -> b < length bs -> nth_ancestor (length bs) bs b = None.
Proof.
  intros Ht Hb. destruct (nth_ancestor (length bs) bs b) as [x |] eqn:E;
    [| reflexivity].
  pose proof (chain_bound bs b _ x Ht Hb E). lia.
Qed.

(** What the loop of [descendsFrom] computes. *)
Lemma descendsFrom_loop_false fuel bs d c :
  descendsFrom_loop fuel bs d c = false ->
  forall k, k < fuel -> d ≫= nth_ancestor k bs <> Some c.
Proof.
  revert d; induction fuel as [| fuel IH]; intros d H k Hk; [lia |].
  destruct d as [d |]; simpl in *; [| discriminate].
  case_decide as Hne; [discriminate |].
  destruct k as [| k]; simpl.
  - congruence.
  - apply (IH _ H k). lia.
Qed.

Lemma descendsFrom_loop_true fuel bs d c :
  descendsFrom_loop fuel bs d c = true ->
  exists k, d ≫= nth_ancestor k bs = Some c.
Proof.
  revert d; induction fuel as [| fuel IH]; intros d H; [discriminate |].
  destruct d as [d |]; simpl in *; [| discriminate].
  case_decide as Hne.
  - subst. now exists 0.
  - destruct (IH _ H) as (k & Hk). now exists (S k).
Qed.

(** In a tree, [descendsFrom] answers [false] exactly when the body is
    neither [c] nor below it. *)
Lemma descendsFrom_false bs p c :
  tree bs -> p < length bs ->
  descendsFrom bs p c = false ->
  forall k, nth_ancestor k bs p <> Some c.
Proof.
  intros Ht Hp. unfold descendsFrom.
  case_decide as Hne; [intros [=] |].
  intros H k. destruct k as [| k]; simpl; [congruence |]. intros Hk.
  pose proof (chain_bound bs p (S k) c Ht Hp Hk) as Hlt.
  apply (descendsFrom_loop_false _ _ _ _ H k); [lia | exact Hk].
Qed.

Lemma descendsFrom_true bs p c :
  descendsFrom bs p c = true -> exists k, nth_ancestor k bs p = Some c.
Proof.
  unfold descendsFrom. case_decide as Hne.
  - subst. intros _. now exists 0.
  - intros H. destruct (descendsFrom_loop_true _ _ _ _ H) as (k & Hk).
    now exists (S k).
Qed.

End BodyGraph.

(** *** Graph updates that keep the tree invariant *)

Lemma nth_ancestor_ext bs bs' :
  (forall b, parentOf bs' b = parentOf bs b) ->
  forall k b, nth_ancestor k bs' b = nth_ancestor k bs b.
Proof.
  intros H k; induction k as [| k IH]; intros b; simpl; [reflexivity |].
  rewrite H. destruct (parentOf bs b); simpl; [apply IH | reflexivity].
Qed.

(** An update that changes no parent pointer keeps the tree. *)
Lemma tree_ext bs bs' :
  length bs' = length bs ->
  (forall b, parentOf bs' b = parentOf bs b) ->
  tree bs -> tree bs'.
Proof.
  intros Hlen Hpar [Hv Hac]. split.
  - intros b p Hp. rewrite Hlen. apply (Hv b). now rewrite <- Hpar.
  - intros b [k Hk]. apply (Hac b). exists k.
    now rewrite <- (nth_ancestor_ext bs bs' Hpar).
Qed.

Lemma parentOf_app_l bs bn b :
  b < length bs -> parentOf (bs ++ [bn]) b = parentOf bs b.
Proof. intros Hb. unfold parentOf. now rewrite lookup_app_l. Qed.

Lemma parentOf_ge bs b : length bs <= b -> parentOf bs b = None.
Proof. intros Hb. unfold parentOf. now rewrite lookup_ge_None_2. Qed.

(** A new body attached to the world keeps the tree. *)
Lemma tree_add_root bs bn :
  parentBodyNode bn = None -> tree bs -> tree (bs ++ [bn]).
Proof.
  intros Hroot [Hv Hac].
  assert (Hpar : forall b, parentOf (bs ++ [bn]) b = parentOf bs b).
  { intros b. destruct (decide (b < length bs)) as [Hb | Hb].
    - now apply parentOf_app_l.
    - rewrite (parentOf_ge bs) by lia. unfold parentOf.
      destruct (decide (b = length bs)) as [-> | Hne].
      + rewrite lookup_app_r, Nat.sub_diag by lia. simpl. exact Hroot.
      + rewrite lookup_ge_None_2; [reflexivity |].
        rewrite length_app; simpl; lia. }
  split.
  - intros b p Hp. rewrite Hpar in Hp. apply Hv in Hp.
    rewrite length_app; simpl; lia.
  - intros b [k Hk]. apply (Hac b). exists k.
    now rewrite <- (nth_ancestor_ext bs _ Hpar).
Qed.

Section Reparent.

(** [bs'] is [bs] with the body [c] moved under [p]. *)
Variables (bs bs' : list BodyNode) (c p : BodyNodePtr).
Hypothesis Hlen : length bs' = length bs.
Hypothesis Hc : parentOf bs' c = Some p.
Hypothesis Hother : forall b, b <> c -> parentOf bs' b = parentOf bs b.

(** A chain that does not meet [c] before the move is the same after. *)
Lemma reparent_chain_old x :
  (forall i, nth_ancestor i bs x <> Some c) ->
  forall k, nth_ancestor k bs' x = nth_ancestor k bs x.
Proof.
  intros Hx k; revert x Hx; induction k as [| k IH]; intros x Hx; simpl;
    [reflexivity |].
  assert (x <> c) by (intros ->; now apply (Hx 0)).
  rewrite Hother by assumption.
  destruct (parentOf bs x) as [y |] eqn:E; simpl; [| reflexivity].
  apply IH. intros i Hi. apply (Hx (S i)). simpl. now rewrite E.
Qed.

(** A chain that does not meet [c] after the move was the same before. *)
Lemma reparent_chain_new x :
  (forall i, nth_ancestor i bs' x <> Some c) ->
  forall k, nth_ancestor k bs' x = nth_ancestor k bs x.
Proof.
  intros Hx k; revert x Hx; induction k as [| k IH]; intros x Hx; simpl;
    [reflexivity |].
  assert (Hne : x <> c) by (intros ->; now apply (Hx 0)).
  rewrite (Hother x Hne).
  destruct (parentOf bs x) as [y |] eqn:E; simpl; [| reflexivity].
  apply IH. intros i Hi. apply (Hx (S i)). simpl.
  rewrite Hother by assumption. now rewrite E.
Qed.

(** Moving [c] under a body that is neither [c] nor below [c] keeps the
    tree. *)
Lemma reparent_tree :
  tree bs -> p < length bs ->
  (forall k, nth_ancestor k bs p <> Some c) ->
  tree bs'.
Proof.
  intros [Hv Hac] Hp Hpc. split.
  - intros b q Hq. rewrite Hlen.
    destruct (decide (b = c)) as [-> | Hne].
    + rewrite Hc in Hq. now injection Hq as <-.
    + rewrite Hother in Hq by assumption. now apply (Hv b).
  - intros b [k Hk].
    assert (Hfree : forall i, nth_ancestor i bs' b <> Some c).
    { intros i Hi.
      (* the cycle through [b] passes [c], so [p] reaches [c] *)
      assert (E1 : nth_ancestor (S k + i) bs' b = Some c)
        by (rewrite nth_ancestor_add, Hk; exact Hi).
      assert (E2 : nth_ancestor (i + S k) bs' b = nth_ancestor k bs p).
      { rewrite nth_ancestor_add, Hi. simpl. rewrite Hc. simpl.
        now apply reparent_chain_old. }
      replace (S k + i) with (i + S k) in E1 by lia.
      rewrite E2 in E1. now apply (Hpc k). }
    apply (Hac b). exists k.
    now rewrite <- (reparent_chain_new b Hfree).
Qed.

End Reparent.

(** ** World transforms along the body graph *)
Section WorldTransforms.

Variable jointTransform : JointKind -> Properties -> list float -> Isometry3d.

Local Abbreviation getWorldTransform :=
  (SDFFeatures.getWorldTransform jointTransform).
Local Abbreviation worldTransformFrom :=
  (SDFFeatures.worldTransformFrom jointTransform).
Local Abbreviation getRelativeTransform :=
  (SDFFeatures.getRelativeTransform jointTransform).
Local Abbreviation Frame_getWorldTransform :=
  (SDFFeatures.Frame_getWorldTransform jointTransform).

Lemma parentOf_lookup bs b bn :
  bs !! b = Some bn -> parentOf bs b = parentBodyNode bn.
Proof. unfold parentOf. now intros ->. Qed.

(** Fuel beyond the length of the chain does not change the result. *)
Lemma worldTransformFrom_fuel bs f f' b :
  nth_ancestor f bs b = None -> f <= f' ->
  worldTransformFrom f' bs b = worldTransformFrom f bs b.
Proof.
  revert f' b; induction f as [| f IH]; intros f' b Hend Hle;
    [discriminate |].
  destruct f' as [| f']; [lia |]. cbn [SDFFeatures.worldTransformFrom].
  destruct (bs !! b) as [bn |] eqn:Eb; [| reflexivity].
  cbn [nth_ancestor] in Hend. rewrite (parentOf_lookup _ _ _ Eb) in Hend.
  destruct (parentBodyNode bn) as [q |]; [| reflexivity].
  f_equal. apply IH; [exact Hend | lia].
Qed.

(** In a tree, the world transform of a body is that of its parent frame
    composed with the relative transform of its joint. *)
Lemma getWorldTransform_unfold bs b bn :
  tree bs -> bs !! b = Some bn ->
  getWorldTransform bs b =
    compose (Frame_getWorldTransform bs (parentBodyNode bn))
            (getRelativeTransform bn).
Proof.
  intros Ht Eb. pose proof (lookup_lt_Some _ _ _ Eb) as Hb.
  pose proof (chain_ends bs b Ht Hb) as Hend.
  unfold SDFFeatures.getWorldTransform, SDFFeatures.Frame_getWorldTransform.
  destruct (length bs) as [| n] eqn:En; [lia |].
  cbn [SDFFeatures.worldTransformFrom]. rewrite Eb.
  destruct (parentBodyNode bn) as [q |] eqn:Eq; [| reflexivity].
  f_equal. unfold SDFFeatures.getWorldTransform. rewrite En.
  symmetry. apply worldTransformFrom_fuel; [| lia].
  cbn [nth_ancestor] in Hend.
  now rewrite (parentOf_lookup _ _ _ Eb), Eq in Hend.
Qed.

(** Bodies from which [c] cannot be reached keep their world transform
    when only the entry of [c] changes. *)
Lemma worldTransformFrom_frame bs bs' c :
  (forall b, b <> c -> bs' !! b = bs !! b) ->
  forall f x,
    (forall i, nth_ancestor i bs x <> Some c) ->
    worldTransformFrom f bs' x = worldTransformFrom f bs x.
Proof.
  intros Hother f; induction f as [| f IH]; intros x Hx; [reflexivity |].
  cbn [SDFFeatures.worldTransformFrom].
  assert (Hne : x <> c) by (intros ->; now apply (Hx 0)).
  rewrite (Hother x Hne).
  destruct (bs !! x) as [bn |] eqn:Eb; [| reflexivity].
  destruct (parentBodyNode bn) as [q |] eqn:Eq; [| reflexivity].
  f_equal. apply IH. intros i Hi. apply (Hx (S i)).
  cbn [nth_ancestor]. rewrite (parentOf_lookup _ _ _ Eb), Eq. exact Hi.
Qed.

Lemma getWorldTransform_frame bs bs' c x :
  length bs' = length bs ->
  (forall b, b <> c -> bs' !! b = bs !! b) ->
  (forall i, nth_ancestor i bs x <> Some c) ->
  getWorldTransform bs' x = getWorldTransform bs x.
Proof.
  intros Hlen Hother Hx. unfold SDFFeatures.getWorldTransform.
  rewrite Hlen. now apply worldTransformFrom_frame with (c := c).
Qed.

(** Appending a body changes no world transform of the old bodies. *)
Lemma worldTransformFrom_app bs bn f x :
  valid_parents bs -> x < length bs ->
  worldTransformFrom f (bs ++ [bn]) x = worldTransformFrom f bs x.
Proof.
  intros Hv. revert x; induction f as [| f IH]; intros x Hx; [reflexivity |].
  cbn [SDFFeatures.worldTransformFrom].
  destruct (lookup_lt_is_Some_2 bs x Hx) as [bx Eb].
  rewrite (lookup_app_l_Some _ _ _ _ Eb), Eb.
  destruct (parentBodyNode bx) as [q |] eqn:Eq; [| reflexivity].
  f_equal. apply IH. apply (Hv x). now rewrite (parentOf_lookup _ _ _ Eb).
Qed.

Lemma getWorldTransform_app bs bn x :
  tree bs -> x < length bs ->
  getWorldTransform (bs ++ [bn]) x = getWorldTransform bs x.
Proof.
  intros Ht Hx. unfold SDFFeatures.getWorldTransform.
  rewrite worldTransformFrom_app by (try apply Ht; assumption).
  apply worldTransformFrom_fuel.
  - now apply chain_ends.
  - rewrite length_app. lia.
Qed.

End WorldTransforms.

(** ** The Joint Builder *)

Section JointBuilder.

Variable jointTransform : JointKind -> Properties -> list float -> Isometry3d.

Local Abbreviation getWorldTransform :=
  (SDFFeatures.getWorldTransform jointTransform).
Local Abbreviation getRelativeTransform :=
  (SDFFeatures.getRelativeTransform jointTransform).
Local Abbreviation getTransform := (SDFFeatures.getTransform jointTransform).
Local Abbreviation GetParentModelFrame :=
  (SDFFeatures.GetParentModelFrame jointTransform).
Local Abbreviation ConstructSdfJoint :=
  (SDFFeatures.ConstructSdfJoint jointTransform).
Local Abbreviation createJointOfType :=
  (SDFFeatures.createJointOfType jointTransform).

Ltac run_builder :=
  cbv [bind ret get modify report deref throw
       onJointOf moveTo AddJoint GetNextEntity
       SDFFeatures.ConstructSingleAxisJoint
       SDFFeatures.ConstructUniversalJoint
       SDFFeatures.ResolveSdfJointReferenceFrame].

Ltac state_fields :=
  cbn [bodyNodes simpleFrames shapeNodes skeletons worlds models links joints
       shapes entityCount cerr
       set_bodyNodes set_simpleFrames set_shapeNodes set_skeletons set_worlds
       set_models set_links set_joints set_shapes set_entityCount set_cerr].

Lemma alter_alter {A} (f g : A -> A) (l : list A) (i : nat) :
  alter f i (alter g i l) = alter (fun x => f (g x)) i l.
Proof. apply list_alter_alter_eq. Qed.

Lemma createJointOfType_run mi j p c T s k props :
  jointKindOf (sdf.Joint.Type_ j) = Some k ->
  jointPropertiesOf (GetParentModelFrame s mi) j T = Some props ->
  createJointOfType mi j p c T s =
    Some (true,
          set_bodyNodes
            (alter (movedBody p (builtJoint k "Joint" props
                                            Isometry3d_Identity
                                            Isometry3d_Identity)) c) s).
Proof.
  unfold jointKindOf, jointPropertiesOf, SDFFeatures.createJointOfType.
  destruct (sdf.Joint.Type_ j); try discriminate; intros [= <-] Hp;
    run_builder.
  - injection Hp as <-. reflexivity.
  - injection Hp as <-. reflexivity.
  - rewrite Hp. reflexivity.
  - rewrite Hp. reflexivity.
  - destruct (SingleAxisProperties ScrewJoint (GetParentModelFrame s mi) j T)
      as [p0 |]; [| discriminate].
    injection Hp as <-.
    destruct (sdf.Joint.thread_pitch j) as [pitch |]; [| reflexivity].
    unfold set_bodyNodes; state_fields. rewrite alter_alter. reflexivity.
  - rewrite Hp. reflexivity.
Qed.

(** The run of the Joint Builder on two bodies, the parent not below the
    child, for a supported joint type whose axes are present. *)
Lemma ConstructSdfJoint_run mi j p c s k props :
  descendsFrom (bodyNodes s) p c = false ->
  let T_parent := getWorldTransform (bodyNodes s) p in
  let T_child := getWorldTransform (bodyNodes s) c in
  let T_joint :=
    compose (if decide (sdf.Joint.PoseFrame j = "")
             then T_child else Isometry3d_Identity)
            (sdf.Joint.Pose j) in
  jointKindOf (sdf.Joint.Type_ j) = Some k ->
  jointPropertiesOf (GetParentModelFrame s mi) j T_joint = Some props ->
  let child_T_postjoint := compose (inverse T_child) T_joint in
  let parent_T_prejoint_init := compose (inverse T_parent) T_joint in
  let bs1 :=
    alter (movedBody p (builtJoint k (sdf.Joint.Name j) props
                                   parent_T_prejoint_init child_T_postjoint))
          c (bodyNodes s) in
  let prejoint_T_postjoint :=
    compose (compose (inverse parent_T_prejoint_init) (getTransform bs1 c p))
            child_T_postjoint in
  let parent_T_prejoint_final :=
    compose (compose (compose (inverse (getWorldTransform bs1 p)) T_child)
                     child_T_postjoint)
            (inverse prejoint_T_postjoint) in
  exists s',
    ConstructSdfJoint mi j (Some p) (Some c) s
      = Some (ValidId (entityCount s), s') /\
    bodyNodes s' =
      alter (movedBody p (builtJoint k (sdf.Joint.Name j) props
                                     parent_T_prejoint_final child_T_postjoint))
            c (bodyNodes s) /\
    simpleFrames s' = simpleFrames s /\
    shapeNodes s' = shapeNodes s /\
    skeletons s' = skeletons s /\
    worlds s' = worlds s /\
    models s' = models s /\
    links s' = links s /\
    joints s' = <[entityCount s := c]> (joints s) /\
    shapes s' = shapes s /\
    entityCount s' = S (entityCount s).
Proof.
  intros Hd T_parent T_child T_joint Hk Hp cTp init bs1 pTp final.
  unfold SDFFeatures.ConstructSdfJoint. run_builder. rewrite Hd.
  case_decide as Hf.
  - change (compose (getWorldTransform (bodyNodes s) c) (sdf.Joint.Pose j))
      with T_joint.
    rewrite (createJointOfType_run mi j p c T_joint s k props Hk Hp).
    eexists; split; [reflexivity |]. state_fields.
    rewrite !alter_alter. repeat split; reflexivity.
  - change (compose Isometry3d_Identity (sdf.Joint.Pose j)) with T_joint.
    match goal with
    | |- context [createJointOfType _ _ _ _ _ ?s0] =>
        rewrite (createJointOfType_run mi j p c T_joint s0 k props Hk Hp)
    end.
    eexists; split; [reflexivity |]. state_fields.
    rewrite !alter_alter. repeat split; reflexivity.
Qed.

(** The state after a joint was built, as the claims need it. *)
Lemma moved_lookup_eq (bs : list BodyNode) c bn f :
  bs !! c = Some bn -> alter f c bs !! c = Some (f bn).
Proof. intros H. now rewrite list_lookup_alter_eq, H. Qed.

Lemma moved_parentOf bs c bn p jt :
  bs !! c = Some bn -> parentOf (alter (movedBody p jt) c bs) c = Some p.
Proof.
  intros H. unfold parentOf. now rewrite (moved_lookup_eq _ _ _ _ H).
Qed.

Lemma moved_parentOf_ne bs c p jt b :
  b <> c -> parentOf (alter (movedBody p jt) c bs) b = parentOf bs b.
Proof.
  intros H. unfold parentOf. now rewrite list_lookup_alter_ne by congruence.
Qed.

(** Moving a body under a parent that does not descend from it keeps the
    tree invariant. *)
Lemma moved_tree bs c bn p jt :
  tree bs -> p < length bs -> bs !! c = Some bn ->
  descendsFrom bs p c = false ->
  tree (alter (movedBody p jt) c bs).
Proof.
  intros Ht Hp Hc Hd.
  apply (reparent_tree bs _ c p); try assumption.
  - apply length_alter.
  - now apply moved_parentOf with (bn := bn).
  - intros b Hb. now apply moved_parentOf_ne.
  - now apply descendsFrom_false.
Qed.

(** The parent keeps its world transform when the child is moved. *)
Lemma moved_parent_world bs c p f :
  tree bs -> p < length bs -> descendsFrom bs p c = false ->
  getWorldTransform (alter f c bs) p = getWorldTransform bs p.
Proof.
  intros Ht Hp Hd. apply getWorldTransform_frame with (c := c).
  - apply length_alter.
  - intros b Hb. apply list_lookup_alter_ne. congruence.
  - now apply descendsFrom_false.
Qed.

End JointBuilder.

(** Two cancellations in the reconciliation of the joint transforms. *)
Lemma readback_algebra init Q cTp :
  isometry init -> isometry cTp ->
  compose (compose (inverse init) (compose (compose init Q) (inverse cTp))) cTp
    = Q.
Proof.
  intros Hi Hc. rewrite !compose_assoc.
  rewrite (inverse_l cTp Hc), compose_id_r.
  now apply inverse_compose_cancel_l.
Qed.

Lemma reconcile_algebra Tp Tc cTp Q :
  isometry Tp -> isometry cTp -> isometry Q ->
  compose Tp
    (compose
       (compose
          (compose (compose (compose (inverse Tp) Tc) cTp) (inverse Q)) Q)
       (inverse cTp))
    = Tc.
Proof.
  intros Hp Hc HQ. rewrite !compose_assoc.
  rewrite (inverse_compose_cancel_l Q _ HQ).
  rewrite (inverse_r cTp Hc), compose_id_r.
  now apply compose_inverse_cancel_l.
Qed.

(** ** C1: the reconciliation of the joint transforms *)

Lemma SingleAxisProperties_initial k T_model j T_joint props :
  k = RevoluteJoint \/ k = PrismaticJoint \/ k = ScrewJoint ->
  SingleAxisProperties k T_model j T_joint = Some props ->
  mInitialPositions props =
    sdf.JointAxis.InitialPosition <$> take 1 (sdf.Joint.Axes j).
Proof.
  unfold SingleAxisProperties, sdf.Joint.Axis. intros Hk.
  destruct (sdf.Joint.Axes j) as [| a0 rest]; [discriminate |].
  intros [= <-]. destruct Hk as [-> | [-> | ->]]; reflexivity.
Qed.

Lemma UniversalProperties_initial T_model j T_joint props :
  UniversalProperties T_model j T_joint = Some props ->
  mInitialPositions props =
    sdf.JointAxis.InitialPosition <$> take 2 (sdf.Joint.Axes j).
Proof.
  unfold UniversalProperties, sdf.Joint.Axis.
  destruct (sdf.Joint.Axes j) as [| a0 [| a1 rest]]; try discriminate.
  intros [= <-]. reflexivity.
Qed.

Lemma jointPropertiesOf_initial T_model j T_joint props :
  jointPropertiesOf T_model j T_joint = Some props ->
  mInitialPositions props = declaredInitialPositions j.
Proof.
  unfold jointPropertiesOf, declaredInitialPositions.
  destruct (sdf.Joint.Type_ j); try discriminate.
  - intros [= <-]. reflexivity.
  - intros [= <-]. reflexivity.
  - apply SingleAxisProperties_initial. tauto.
  - apply SingleAxisProperties_initial. tauto.
  - destruct (SingleAxisProperties ScrewJoint T_model j T_joint) as [p0 |] eqn:E;
      [| discriminate].
    intros [= <-].
    rewrite <- (SingleAxisProperties_initial _ _ _ _ _ (ltac:(tauto)) E).
    destruct (sdf.Joint.thread_pitch j); reflexivity.
  - apply UniversalProperties_initial.
Qed.

Section Reconciliation.

Variable jointTransform : JointKind -> Properties -> list float -> Isometry3d.

(** The engine's kinematic map yields rigid transforms. *)
Hypothesis jointTransform_isometry :
  forall k props q, isometry (jointTransform k props q).

Local Abbreviation getWorldTransform :=
  (SDFFeatures.getWorldTransform jointTransform).
Local Abbreviation GetParentModelFrame :=
  (SDFFeatures.GetParentModelFrame jointTransform).
Local Abbreviation ConstructSdfJoint :=
  (SDFFeatures.ConstructSdfJoint jointTransform).
Local Abbreviation jointRelativeTransform :=
  (SDFFeatures.jointRelativeTransform jointTransform).

(** C1. For a joint built between two bodies, the parent not below the
    child, of a supported type whose axes are present: the Joint Builder
    returns a valid handle; the child hangs under the parent by a joint
    whose coordinates are the declared initial positions; its
    child-to-postjoint transform is [T_child^-1 * T_joint]; its final
    parent-to-prejoint transform is
    [T_parent^-1 * T_child * child_T_postjoint * prejoint_T_postjoint^-1],
    where [T_parent] and [T_child] are the world transforms before the
    graph is altered and [prejoint_T_postjoint] is the transform of the
    joint at its coordinates; and the child's world transform is again
    [T_child], in exact arithmetic. *)
Theorem joint_transform_reconciliation
    (mi : ModelInfo) (j : sdf.Joint.t) (p c : BodyNodePtr) (s : Base)
    (bn : BodyNode) (k : JointKind) (props : Properties) :
  tree (bodyNodes s) ->
  p < length (bodyNodes s) ->
  bodyNodes s !! c = Some bn ->
  descendsFrom (bodyNodes s) p c = false ->
  let T_parent := getWorldTransform (bodyNodes s) p in
  let T_child := getWorldTransform (bodyNodes s) c in
  let T_joint :=
    compose (if decide (sdf.Joint.PoseFrame j = "")
             then T_child else Isometry3d_Identity)
            (sdf.Joint.Pose j) in
  isometry T_parent -> isometry T_child -> isometry (sdf.Joint.Pose j) ->
  jointKindOf (sdf.Joint.Type_ j) = Some k ->
  jointPropertiesOf (GetParentModelFrame s mi) j T_joint = Some props ->
  let child_T_postjoint := compose (inverse T_child) T_joint in
  exists id s' bn',
    ConstructSdfJoint mi j (Some p) (Some c) s = Some (ValidId id, s') /\
    bodyNodes s' !! c = Some bn' /\
    parentBodyNode bn' = Some p /\
    jointKind (parentJoint bn') = k /\
    mPositions (parentJoint bn') = Coordinates (declaredInitialPositions j) /\
    mT_ChildBodyToJoint (parentJoint bn') = child_T_postjoint /\
    (let prejoint_T_postjoint := jointRelativeTransform (parentJoint bn') in
     mT_ParentBodyToJoint (parentJoint bn') =
       compose (compose (compose (inverse T_parent) T_child) child_T_postjoint)
               (inverse prejoint_T_postjoint)) /\
    getWorldTransform (bodyNodes s') c = T_child.
Proof.
  intros Ht Hp Hc Hd T_parent T_child T_joint HTp HTc HPose Hk Hprops cTp.
  destruct (ConstructSdfJoint_run jointTransform mi j p c s k props
              Hd Hk Hprops) as (s' & Hrun & Hbs & _).
  fold T_parent T_child T_joint cTp in Hbs.
  set (init := compose (inverse T_parent) T_joint) in *.
  set (Q := jointTransform k props (mInitialPositions props)).
  assert (HTj : isometry T_joint).
  { unfold T_joint. apply isometry_compose; [| assumption].
    case_decide; [assumption | apply isometry_Identity]. }
  assert (HcTp : isometry cTp) by (unfold cTp; auto with isometry).
  assert (Hinit : isometry init) by (unfold init; auto with isometry).
  (* the transform read back from the engine is [Q] *)
  set (bs1 := alter (movedBody p (builtJoint k (sdf.Joint.Name j) props init cTp))
                    c (bodyNodes s)) in *.
  assert (Hread :
    compose (compose (inverse init)
                     (SDFFeatures.getTransform jointTransform bs1 c p)) cTp = Q).
  { unfold SDFFeatures.getTransform.
    rewrite (moved_parentOf _ _ _ _ _ Hc : parentOf bs1 c = Some p).
    rewrite decide_True by reflexivity.
    rewrite (moved_lookup_eq _ _ _ _ Hc : bs1 !! c = Some _).
    apply readback_algebra; assumption. }
  assert (HWp1 : getWorldTransform bs1 p = T_parent)
    by (apply moved_parent_world; assumption).
  rewrite Hread, HWp1 in Hbs.
  set (final := compose (compose (compose (inverse T_parent) T_child) cTp)
                        (inverse Q)) in *.
  set (jt := builtJoint k (sdf.Joint.Name j) props final cTp) in *.
  exists (entityCount s), s', (movedBody p jt bn).
  assert (Hc' : bodyNodes s' !! c = Some (movedBody p jt bn))
    by (rewrite Hbs; now apply moved_lookup_eq).
  repeat split; try assumption; try reflexivity.
  - cbn. now rewrite (jointPropertiesOf_initial _ _ _ _ Hprops).
  - (* the child is back at its pose *)
    assert (Ht' : tree (bodyNodes s'))
      by (rewrite Hbs; now apply moved_tree with (bn := bn)).
    rewrite (getWorldTransform_unfold jointTransform _ _ _ Ht' Hc').
    cbn [parentBodyNode movedBody SDFFeatures.Frame_getWorldTransform].
    rewrite Hbs, (moved_parent_world _ _ _ _ _ Ht Hp Hd).
    fold T_parent. apply reconcile_algebra; try assumption.
    apply jointTransform_isometry.
Qed.

End Reconciliation.

(** *** A concrete scene for the joint builder *)

Lemma isometry_translation v : isometry (mkT MIdentity v).
Proof. exact orthogonal_MIdentity. Qed.

Lemma example_jointTransform_isometry k props q :
  isometry (example_jointTransform k props q).
Proof. apply isometry_translation. Qed.

(** Bodies that all hang on the world form a tree. *)
Lemma tree_of_roots bs :
  (forall b, parentOf bs b = None) -> tree bs.
Proof.
  intros H. split.
  - intros b p Hp. rewrite H in Hp. discriminate.
  - intros b [k Hk]. cbn [nth_ancestor] in Hk. rewrite H in Hk. discriminate.
Qed.

Lemma example_state_tree : tree (bodyNodes example_state).
Proof.
  apply tree_of_roots. intros [| [| b]]; reflexivity.
Qed.

Lemma example_state_isometry b :
  isometry (getWorldTransform example_jointTransform (bodyNodes example_state) b).
Proof.
  destruct b as [| [| b]]; cbv [getWorldTransform example_state bodyNodes length];
    cbn [worldTransformFrom lookup list_lookup example_body parentBodyNode];
    unfold getRelativeTransform, jointRelativeTransform; cbn [parentJoint mPositions
      mT_ParentBodyToJoint mT_ChildBodyToJoint];
    auto using isometry_translation with isometry.
Qed.

Lemma joint_transform_reconciliation_witness :
  let s := example_state in
  let T_parent := getWorldTransform example_jointTransform (bodyNodes s) 0 in
  let T_child := getWorldTransform example_jointTransform (bodyNodes s) 1 in
  let T_joint := compose T_child (sdf.Joint.Pose example_revolute) in
  let child_T_postjoint := compose (inverse T_child) T_joint in
  exists id s' bn',
    ConstructSdfJoint example_jointTransform (mkModelInfo 0 0) example_revolute
                      (Some 0) (Some 1) s = Some (ValidId id, s') /\
    bodyNodes s' !! 1 = Some bn' /\
    parentBodyNode bn' = Some 0 /\
    jointKind (parentJoint bn') = RevoluteJoint /\
    mPositions (parentJoint bn')
      = Coordinates (declaredInitialPositions example_revolute) /\
    mT_ChildBodyToJoint (parentJoint bn') = child_T_postjoint /\
    (let prejoint_T_postjoint :=
       jointRelativeTransform example_jointTransform (parentJoint bn') in
     mT_ParentBodyToJoint (parentJoint bn') =
       compose (compose (compose (inverse T_parent) T_child) child_T_postjoint)
               (inverse prejoint_T_postjoint)) /\
    getWorldTransform example_jointTransform (bodyNodes s') 1 = T_child.
Proof.
  refine (joint_transform_reconciliation
            example_jointTransform example_jointTransform_isometry
            (mkModelInfo 0 0) example_revolute 0 1 example_state
            (example_body "arm" (mkT MIdentity (mkV 1 0 0)))
            RevoluteJoint _
            example_state_tree _ _ _ _ _ _ _ _).
  - cbn; lia.
  - reflexivity.
  - reflexivity.
  - apply example_state_isometry.
  - apply example_state_isometry.
  - apply isometry_Identity.
  - reflexivity.
  - reflexivity.
Defined.

(** ** Joint Builder: the axis of the joint that is built *)

Section JointAxisStored.
Local Open Scope R_scope.

Variable jointTransform : JointKind -> Properties -> list float -> Isometry3d.

Local Abbreviation getWorldTransform :=
  (SDFFeatures.getWorldTransform jointTransform).
Local Abbreviation GetParentModelFrame :=
  (SDFFeatures.GetParentModelFrame jointTransform).
Local Abbreviation ConstructSdfJoint :=
  (SDFFeatures.ConstructSdfJoint jointTransform).



End JointAxisStored.

(** ** The axis of a joint on the concrete scene *)

Lemma inverse_Identity : inverse Isometry3d_Identity = Isometry3d_Identity.
Proof.
  unfold inverse, Isometry3d_Identity, transpose, mopp, mvmul, MIdentity, Zero3.
  cbn. f_equal. f_equal; ring.
Qed.







(** ** The Link Builder and the Link Resolver *)

Lemma same_bodies_refl s : same_bodies s s.
Proof. repeat split. Qed.

Lemma same_bodies_trans s1 s2 s3 :
  same_bodies s1 s2 -> same_bodies s2 s3 -> same_bodies s1 s3.
Proof.
  unfold same_bodies. intros (?&?&?&?&?&?&?) (?&?&?&?&?&?&?).
  repeat split; congruence.
Qed.

Section LinkBuilder.

Variable jointTransform : JointKind -> Properties -> list float -> Isometry3d.

Ltac run_builder :=
  cbv [bind ret get modify report deref throw
       createShapeNodeWith ShapeNode_setRelativeTransform ShapeNode_setColor
       AddShape AddLink AddJoint GetNextEntity].

Ltac state_fields :=
  cbn [bodyNodes simpleFrames shapeNodes skeletons worlds models links joints
       shapes entityCount cerr
       set_bodyNodes set_simpleFrames set_shapeNodes set_skeletons set_worlds
       set_models set_links set_joints set_shapes set_entityCount set_cerr].

Lemma ConstructGeometry_run g s :
  exists st s', ConstructGeometry g s = Some (st, s') /\ same_bodies s s'.
Proof.
  unfold ConstructGeometry, ConstructMesh.
  destruct (sdf.Geometry.BoxShape g); [| destruct (sdf.Geometry.CylinderShape g);
    [| destruct (sdf.Geometry.SphereShape g); [| destruct (sdf.Geometry.PlaneShape g);
    [| destruct (sdf.Geometry.MeshShape g)]]]];
    run_builder; do 2 eexists; (split; [reflexivity | repeat split]).
Qed.

(** The construction of a collision shape for a registered link returns,
    and touches neither bodies nor frames. *)
Lemma ConstructSdfCollision_run linkID col s bn :
  links s !! linkID = Some bn ->
  exists r s', ConstructSdfCollision linkID col s = Some (r, s')
               /\ same_bodies s s'.
Proof.
  intros Hl. unfold ConstructSdfCollision.
  destruct (sdf.Collision.Geom col) as [g |].
  - destruct (ConstructGeometry_run g s) as (st & s1 & Hg & Hs1).
    unfold bind at 1. rewrite Hg.
    destruct (st_shape st) as [sh |].
    + run_builder. destruct Hs1 as (?&?&?&?&?&Hl1&?).
      rewrite Hl1, Hl.
      do 2 eexists; split; [reflexivity |].
      unfold same_bodies; state_fields. repeat split; assumption.
    + run_builder. do 2 eexists; split; [reflexivity | assumption].
  - run_builder. do 2 eexists; split; [reflexivity | repeat split].
Qed.

Lemma ConstructSdfVisual_run linkID vis s bn :
  links s !! linkID = Some bn ->
  exists r s', ConstructSdfVisual linkID vis s = Some (r, s')
               /\ same_bodies s s'.
Proof.
  intros Hl. unfold ConstructSdfVisual.
  destruct (sdf.Visual.Geom vis) as [g |].
  - destruct (ConstructGeometry_run g s) as (st & s1 & Hg & Hs1).
    unfold bind at 1. rewrite Hg.
    destruct (st_shape st) as [sh |].
    + run_builder. destruct Hs1 as (?&?&?&?&?&Hl1&?).
      rewrite Hl1, Hl.
      destruct (sdf.Visual.Material vis);
        (do 2 eexists; split; [reflexivity |]);
        unfold same_bodies; state_fields; repeat split; assumption.
    + run_builder. do 2 eexists; split; [reflexivity | assumption].
  - run_builder. do 2 eexists; split; [reflexivity | repeat split].
Qed.

(** A loop whose body returns and keeps the bodies does so as a whole. *)
Lemma forEach_same_bodies {A} (l : list A) (body : A -> M unit) (P : Base -> Prop) :
  (forall a s, P s -> exists s', body a s = Some (tt, s') /\ same_bodies s s') ->
  (forall s s', P s -> same_bodies s s' -> P s') ->
  forall s, P s ->
  exists s', forEach l body s = Some (tt, s') /\ same_bodies s s'.
Proof.
  intros Hbody HP. induction l as [| a l IH]; intros s Hs.
  - exists s. split; [reflexivity | apply same_bodies_refl].
  - destruct (Hbody a s Hs) as (s1 & H1 & Hs1).
    destruct (IH s1 (HP _ _ Hs Hs1)) as (s2 & H2 & Hs2).
    exists s2. split.
    + cbn [forEach]. unfold bind. rewrite H1. exact H2.
    + now apply same_bodies_trans with s1.
Qed.

Local Abbreviation ConstructSdfLink :=
  (SDFFeatures.ConstructSdfLink jointTransform).
Local Abbreviation SimpleFrame_getWorldTransform :=
  (SDFFeatures.SimpleFrame_getWorldTransform jointTransform).
Local Abbreviation World_getTransform :=
  (SDFFeatures.World_getTransform jointTransform).

Lemma alter_last {A} (f : A -> A) (l : list A) (x : A) :
  alter f (length l) (l ++ [x]) = l ++ [f x].
Proof.
  rewrite <- (Nat.add_0_r (length l)) at 1. now rewrite alter_app_r.
Qed.

Lemma parentOf_last bs bn :
  parentOf (bs ++ [bn]) (length bs) = parentBodyNode bn.
Proof.
  unfold parentOf. now rewrite lookup_app_r, Nat.sub_diag by lia.
Qed.

Lemma getNumBodyNodes_app bs bn skel :
  getNumBodyNodes (bs ++ [bn]) skel =
    getNumBodyNodes bs skel + (if decide (bodySkeleton bn = skel) then 1 else 0).
Proof.
  unfold getNumBodyNodes. rewrite filter_app, length_app. f_equal.
  rewrite filter_cons, filter_nil. case_decide; reflexivity.
Qed.

Lemma SimpleFrame_getWorldTransform_ext s1 s2 f :
  simpleFrames s1 = simpleFrames s2 -> bodyNodes s1 = bodyNodes s2 ->
  SimpleFrame_getWorldTransform s1 f = SimpleFrame_getWorldTransform s2 f.
Proof.
  unfold SDFFeatures.SimpleFrame_getWorldTransform. now intros -> ->.
Qed.

(** The two loops over the shapes of a link return and leave the bodies
    alone. *)
Lemma shape_loops (linkID : nat) (l : sdf.Link.t) (bn : BodyNodePtr) (st : Base) :
  links st !! linkID = Some bn ->
  exists s',
    (bind (forEach (seq 0 (sdf.Link.CollisionCount l)) (fun i =>
             match sdf.Link.CollisionByIndex l i with
             | Some collision =>
                 bind (ConstructSdfCollision linkID collision) (fun _ => ret tt)
             | None => ret tt
             end))
          (fun _ =>
     bind (forEach (seq 0 (sdf.Link.VisualCount l)) (fun i =>
             match sdf.Link.VisualByIndex l i with
             | Some visual =>
                 bind (ConstructSdfVisual linkID visual) (fun _ => ret tt)
             | None => ret tt
             end))
          (fun _ => ret (GenerateIdentity linkID)))) st
      = Some (ValidId linkID, s') /\
    same_bodies st s'.
Proof.
  intros Hl.
  set (P := fun st : Base => links st !! linkID = Some bn).
  assert (HP : forall st st', P st -> same_bodies st st' -> P st').
  { unfold P. intros st0 st' H0 (_&_&_&_&_&Hl'&_). now rewrite Hl'. }
  destruct (forEach_same_bodies (seq 0 (sdf.Link.CollisionCount l))
              (fun i =>
                 match sdf.Link.CollisionByIndex l i with
                 | Some collision =>
                     bind (ConstructSdfCollision linkID collision)
                          (fun _ => ret tt)
                 | None => ret tt
                 end) P) with (s := st) as (s1 & H1 & Hs1);
    try assumption.
  { intros i st0 H0. destruct (sdf.Link.CollisionByIndex l i) as [col |].
    - destruct (ConstructSdfCollision_run linkID col st0 bn H0)
        as (r & s' & Hr & Hs).
      exists s'. unfold bind, ret. now rewrite Hr.
    - exists st0. split; [reflexivity | apply same_bodies_refl]. }
  destruct (forEach_same_bodies (seq 0 (sdf.Link.VisualCount l))
              (fun i =>
                 match sdf.Link.VisualByIndex l i with
                 | Some visual =>
                     bind (ConstructSdfVisual linkID visual) (fun _ => ret tt)
                 | None => ret tt
                 end) P) with (s := s1) as (s2 & H2 & Hs2);
    try assumption.
  { intros i st0 H0. destruct (sdf.Link.VisualByIndex l i) as [vis |].
    - destruct (ConstructSdfVisual_run linkID vis st0 bn H0)
        as (r & s' & Hr & Hs).
      exists s'. unfold bind, ret. now rewrite Hr.
    - exists st0. split; [reflexivity | apply same_bodies_refl]. }
  { now apply HP with st. }
  exists s2. split.
  - unfold bind at 1. rewrite H1. unfold bind at 1. rewrite H2. reflexivity.
  - now apply same_bodies_trans with s1.
Qed.

(** The run of the Link Builder on a registered model. *)
Lemma ConstructSdfLink_run modelID l s mi :
  models s !! modelID = Some mi ->
  let bn := length (bodyNodes s) in
  let bs0 := bodyNodes s ++ [freeBody (model mi) l Isometry3d_Identity] in
  let frameT :=
    if decide (sdf.Link.PoseFrame l = "")
    then SimpleFrame_getWorldTransform (set_bodyNodes (fun _ => bs0) s) (frame mi)
    else Isometry3d_Identity in
  let tf := compose frameT (sdf.Link.Pose l) in
  let q :=
    compose (compose (inverse Isometry3d_Identity)
                     (compose Isometry3d_Identity tf))
            Isometry3d_Identity in
  let bs1 := bodyNodes s ++ [freeBody (model mi) l q] in
  let tf_frame :=
    SimpleFrame_getWorldTransform (set_bodyNodes (fun _ => bs1) s) (frame mi) in
  exists s',
    ConstructSdfLink modelID l s = Some (ValidId (entityCount s), s') /\
    bodyNodes s' = bs1 /\
    simpleFrames s' =
      (if decide (getNumBodyNodes (bodyNodes s) (model mi) = 0)
       then alter (fun sf =>
                     mkSimpleFrame (frameName sf) (Some bn)
                       (compose (World_getTransform bs1 (Some bn)) tf_frame))
                  (frame mi) (simpleFrames s)
       else simpleFrames s) /\
    skeletons s' = skeletons s /\
    worlds s' = worlds s /\
    models s' = models s /\
    links s' = <[entityCount s := bn]> (links s) /\
    joints s' = <[S (entityCount s) := bn]> (joints s).
Proof.
  intros Hm bn bs0 frameT tf q bs1 tf_frame.
  unfold SDFFeatures.ConstructSdfLink.
  unfold bind at 1, get at 1. unfold bind at 1. rewrite Hm.
  cbv [deref ret].
  cbv [bind ret get modify report deref throw createJointAndBodyNodePair
       SDFFeatures.ResolveSdfLinkReferenceFrame
       SDFFeatures.FreeJoint_setTransform onJointOf
       AddLink AddJoint GetNextEntity
       SimpleFrame_setParentFrame SDFFeatures.SimpleFrame_setTransform].
  case_decide as Hf; state_fields;
    rewrite ?alter_last, ?parentOf_last, ?getNumBodyNodes_app;
    cbn [withJoint newJoint parentJoint parentBodyNode bodySkeleton
         Joint_setPositions mT_ParentBodyToJoint mT_ChildBodyToJoint
         jointKind jointName jointProperties bodyName mInertia
         SDFFeatures.World_getTransform];
    rewrite (decide_True (P := model mi = model mi)) by reflexivity;
    (destruct (decide (getNumBodyNodes (bodyNodes s) (model mi) = 0)) as [H0 | H0];
     [ rewrite (decide_True (P := _ + 1 = 1)) by lia
     | rewrite (decide_False (P := _ + 1 = 1)) by lia ]);
    state_fields; rewrite ?alter_alter;
    match goal with
    | |- context [forEach _ _ ?st] =>
        destruct (shape_loops (entityCount s) l bn st) as (s' & Hrun & Hs);
          [ state_fields; apply lookup_insert_eq | ]
    end;
    (exists s'; split; [exact Hrun |]);
    destruct Hs as (Hs1 & Hs2 & Hs3 & Hs4 & Hs5 & Hs6 & Hs7);
    rewrite Hs1, Hs2, Hs3, Hs4, Hs5, Hs6, Hs7; state_fields;
    rewrite ?alter_last, ?alter_alter;
    repeat split; try reflexivity;
    (apply list_alter_ext; [| reflexivity]); intros sf _;
    cbn [frameName parentFrame]; f_equal; f_equal;
    apply SimpleFrame_getWorldTransform_ext; state_fields;
    rewrite ?alter_last; reflexivity.
Qed.

End LinkBuilder.

(** ** C7: the Link Resolver *)

Lemma getBodyNode_Some bs skel name b :
  getBodyNode bs skel name = Some b ->
  exists bn, bs !! b = Some bn /\ bodySkeleton bn = skel /\ bodyName bn = name.
Proof.
  unfold getBodyNode. intros H. apply fmap_Some in H as ([i bn] & Hf & ->).
  apply list_find_Some in Hf as (Hl & [Hs Hn] & _). now exists bn.
Qed.

Lemma getBodyNode_None bs skel name :
  getBodyNode bs skel name = None ->
  forall b bn, bs !! b = Some bn -> bodySkeleton bn = skel -> bodyName bn <> name.
Proof.
  unfold getBodyNode. intros H b bn Hb Hs Hn.
  apply fmap_None in H. rewrite list_find_None, Forall_lookup in H.
  now apply (H b bn Hb).
Qed.

Lemma getBodyNode_app_found bs l skel name b :
  getBodyNode bs skel name = Some b ->
  getBodyNode (bs ++ l) skel name = Some b.
Proof.
  unfold getBodyNode. intros H. apply fmap_Some in H as ([i bn] & Hf & ->).
  now rewrite (list_find_app_l _ _ _ _ _ Hf).
Qed.

Lemma getBodyNode_app_new bs bn skel name :
  getBodyNode bs skel name = None ->
  bodySkeleton bn = skel -> bodyName bn = name ->
  getBodyNode (bs ++ [bn]) skel name = Some (length bs).
Proof.
  unfold getBodyNode. intros H Hs Hn. apply fmap_None in H.
  rewrite (list_find_app_r _ _ _ H). cbn.
  rewrite decide_True by (split; assumption). reflexivity.
Qed.

Lemma LinkByName_name m name l :
  sdf.Model.LinkByName m name = Some l -> sdf.Link.Name l = name.
Proof.
  unfold sdf.Model.LinkByName. intros H. apply find_some in H as [_ H].
  now apply bool_decide_eq_true in H.
Qed.

Section LinkResolver.

Variable jointTransform : JointKind -> Properties -> list float -> Isometry3d.

Local Abbreviation FindOrConstructLink :=
  (SDFFeatures.FindOrConstructLink jointTransform).
Local Abbreviation ConstructSdfLink :=
  (SDFFeatures.ConstructSdfLink jointTransform).

Lemma FindOrConstructLink_found skel modelID m name s b :
  getBodyNode (bodyNodes s) skel name = Some b ->
  FindOrConstructLink skel modelID m name s = Some (Some b, s).
Proof.
  intros H. unfold SDFFeatures.FindOrConstructLink, bind, get.
  now rewrite H.
Qed.

Lemma FindOrConstructLink_undeclared skel modelID m name s :
  getBodyNode (bodyNodes s) skel name = None ->
  sdf.Model.LinkByName m name = None ->
  exists msg,
    FindOrConstructLink skel modelID m name s
      = Some (None, set_cerr (cons msg) s).
Proof.
  intros H Hn. unfold SDFFeatures.FindOrConstructLink, bind, get.
  rewrite H, Hn. eexists. reflexivity.
Qed.

(** The resolver builds a missing body from its declaration: it returns
    the new body, the last of the table. *)
Lemma FindOrConstructLink_construct skel modelID m name s l mi :
  getBodyNode (bodyNodes s) skel name = None ->
  sdf.Model.LinkByName m name = Some l ->
  models s !! modelID = Some mi ->
  exists s',
    FindOrConstructLink skel modelID m name s
      = Some (Some (length (bodyNodes s)), s') /\
    ConstructSdfLink modelID l s = Some (ValidId (entityCount s), s').
Proof.
  intros H Hn Hm.
  destruct (ConstructSdfLink_run jointTransform modelID l s mi Hm)
    as (s' & Hrun & _ & _ & _ & _ & _ & Hlinks & _).
  exists s'. split; [| exact Hrun].
  unfold SDFFeatures.FindOrConstructLink, bind, get. rewrite H, Hn.
  rewrite Hrun. cbn [links_at]. unfold bind, get, deref.
  rewrite Hlinks, lookup_insert_eq. reflexivity.
Qed.

(** What a resolution does to the state: bodies are only appended, and
    the model registry is kept. *)
Lemma FindOrConstructLink_inv skel modelID m name s mi r s' :
  models s !! modelID = Some mi ->
  FindOrConstructLink skel modelID m name s = Some (r, s') ->
  (exists tail, bodyNodes s' = bodyNodes s ++ tail) /\
  models s' = models s.
Proof.
  intros Hm H.
  destruct (getBodyNode (bodyNodes s) skel name) as [b |] eqn:Hg.
  - rewrite (FindOrConstructLink_found _ _ _ _ _ _ Hg) in H.
    injection H as <- <-. split; [exists []; now rewrite app_nil_r | reflexivity].
  - destruct (sdf.Model.LinkByName m name) as [l |] eqn:Hn.
    + destruct (FindOrConstructLink_construct _ _ _ _ _ _ _ Hg Hn Hm)
        as (s1 & H1 & Hrun).
      rewrite H1 in H. injection H as <- <-.
      destruct (ConstructSdfLink_run jointTransform modelID l s mi Hm)
        as (s2 & Hrun2 & Hbs & _ & _ & _ & Hmod & _).
      rewrite Hrun in Hrun2. injection Hrun2 as <-.
      split; [eexists; exact Hbs | exact Hmod].
    + destruct (FindOrConstructLink_undeclared _ modelID _ _ _ Hg Hn)
        as (msg & H1).
      rewrite H1 in H. injection H as <- <-.
      split; [exists []; now rewrite app_nil_r | reflexivity].
Qed.

(** C7. Resolving a declared link name of a registered model returns a
    body of that name; resolving the name again, at once or after any
    other resolution, returns the same body and creates nothing.  A body
    is created only when the skeleton has none of that name, and then
    exactly one, so the names of a skeleton stay pairwise different.
    Resolving a name that the model does not declare returns null and
    reports an error, the state being otherwise unchanged. *)
Theorem link_resolution
    (skel : SkeletonPtr) (modelID : nat) (m : sdf.Model.t) (mi : ModelInfo)
    (s : Base) (name : string) :
  models s !! modelID = Some mi ->
  model mi = skel ->
  bodies_declared (bodyNodes s) skel m ->
  (sdf.Model.LinkByName m name <> None ->
   exists b s1,
     FindOrConstructLink skel modelID m name s = Some (Some b, s1) /\
     FindOrConstructLink skel modelID m name s1 = Some (Some b, s1) /\
     (forall name' r s2,
        FindOrConstructLink skel modelID m name' s1 = Some (r, s2) ->
        FindOrConstructLink skel modelID m name s2 = Some (Some b, s2)) /\
     (exists bn, bodyNodes s1 !! b = Some bn /\
                 bodySkeleton bn = skel /\ bodyName bn = name) /\
     (forall b', getBodyNode (bodyNodes s) skel name = Some b' ->
                 b = b' /\ s1 = s) /\
     (getBodyNode (bodyNodes s) skel name = None ->
      length (bodyNodes s1) = S (length (bodyNodes s))) /\
     (unique_names (bodyNodes s) -> unique_names (bodyNodes s1))) /\
  (sdf.Model.LinkByName m name = None ->
   exists msg,
     FindOrConstructLink skel modelID m name s
       = Some (None, set_cerr (cons msg) s)).
Proof.
  intros Hm Hskel Hdecl. split.
  - intros Hn.
    assert (Hstable : forall b s1,
              models s1 !! modelID = Some mi ->
              getBodyNode (bodyNodes s1) skel name = Some b ->
              FindOrConstructLink skel modelID m name s1 = Some (Some b, s1) /\
              (forall name' r s2,
                 FindOrConstructLink skel modelID m name' s1 = Some (r, s2) ->
                 FindOrConstructLink skel modelID m name s2 = Some (Some b, s2))).
    { intros b s1 Hm1 Hg. split; [now apply FindOrConstructLink_found |].
      intros name' r s2 H2.
      destruct (FindOrConstructLink_inv _ _ _ _ _ _ _ _ Hm1 H2)
        as ((tail & Htail) & _).
      apply FindOrConstructLink_found. rewrite Htail.
      now apply getBodyNode_app_found. }
    destruct (getBodyNode (bodyNodes s) skel name) as [b |] eqn:Hg.
    + exists b, s. destruct (Hstable b s Hm Hg) as (H1 & H2).
      split_and!; try assumption.
      * now apply getBodyNode_Some.
      * now intros b' [= ->].
      * discriminate.
      * trivial.
    + destruct (sdf.Model.LinkByName m name) as [l |] eqn:Hl; [| congruence].
      destruct (FindOrConstructLink_construct _ modelID _ _ _ _ _ Hg Hl Hm)
        as (s1 & H1 & Hrun).
      destruct (ConstructSdfLink_run jointTransform modelID l s mi Hm)
        as (s2 & Hrun2 & Hbs & _ & _ & _ & Hmod & _).
      rewrite Hrun in Hrun2. injection Hrun2 as <-.
      pose proof (LinkByName_name _ _ _ Hl) as Hname.
      assert (Hg1 : getBodyNode (bodyNodes s1) skel name
                    = Some (length (bodyNodes s))).
      { rewrite Hbs. now apply getBodyNode_app_new. }
      assert (Hm1 : models s1 !! modelID = Some mi) by now rewrite Hmod.
      destruct (Hstable _ s1 Hm1 Hg1) as (H2 & H3).
      exists (length (bodyNodes s)), s1.
      split_and!; try assumption; try discriminate.
      * now apply getBodyNode_Some.
      * intros _. rewrite Hbs, length_app. cbn. lia.
      * intros Hu b1 b2 bn1 bn2. rewrite Hbs.
        intros [Hb1 | [Hb1 E1]]%lookup_app_Some [Hb2 | [Hb2 E2]]%lookup_app_Some
               Hsk Hnm.
        -- now apply (Hu b1 b2 bn1 bn2).
        -- exfalso. apply list_lookup_singleton_Some in E2 as [_ <-].
           cbn in Hsk, Hnm.
           apply (getBodyNode_None _ _ _ Hg b1 bn1 Hb1); congruence.
        -- exfalso. apply list_lookup_singleton_Some in E1 as [_ <-].
           cbn in Hsk, Hnm.
           apply (getBodyNode_None _ _ _ Hg b2 bn2 Hb2); congruence.
        -- apply list_lookup_singleton_Some in E1 as [E1 _].
           apply list_lookup_singleton_Some in E2 as [E2 _]. lia.
  - intros Hn. apply FindOrConstructLink_undeclared; [| assumption].
    destruct (getBodyNode (bodyNodes s) skel name) as [b |] eqn:Hg;
      [| reflexivity].
    exfalso. apply getBodyNode_Some in Hg as (bn & Hb & Hs & Hnm).
    apply (Hdecl b bn Hb Hs). now rewrite Hnm.
Qed.

End LinkResolver.

(** *** The resolver on the concrete scene *)

Lemma example_state_declared :
  bodies_declared (bodyNodes example_state) 0 example_model.
Proof.
  intros b bn Hb _. destruct b as [| [| b]]; cbn in Hb; try discriminate;
    injection Hb as <-; cbn; discriminate.
Qed.

Lemma link_resolution_witness :
  (sdf.Model.LinkByName example_model "tip" <> None ->
   exists b s1,
     FindOrConstructLink example_jointTransform 0 0 example_model "tip"
                         example_state = Some (Some b, s1) /\
     FindOrConstructLink example_jointTransform 0 0 example_model "tip" s1
       = Some (Some b, s1) /\
     (forall name' r s2,
        FindOrConstructLink example_jointTransform 0 0 example_model name' s1
          = Some (r, s2) ->
        FindOrConstructLink example_jointTransform 0 0 example_model "tip" s2
          = Some (Some b, s2)) /\
     (exists bn, bodyNodes s1 !! b = Some bn /\
                 bodySkeleton bn = 0 /\ bodyName bn = "tip") /\
     (forall b', getBodyNode (bodyNodes example_state) 0 "tip" = Some b' ->
                 b = b' /\ s1 = example_state) /\
     (getBodyNode (bodyNodes example_state) 0 "tip" = None ->
      length (bodyNodes s1) = S (length (bodyNodes example_state))) /\
     (unique_names (bodyNodes example_state) -> unique_names (bodyNodes s1))) /\
  (sdf.Model.LinkByName example_model "tip" = None ->
   exists msg,
     FindOrConstructLink example_jointTransform 0 0 example_model "tip"
                         example_state
       = Some (None, set_cerr (cons msg) example_state)).
Proof.
  apply (link_resolution example_jointTransform 0 0 example_model
                         (mkModelInfo 0 0) example_state "tip").
  - reflexivity.
  - reflexivity.
  - exact example_state_declared.
Defined.

(** ** C2, C4: the error paths of the Joint Builder and the tree invariant *)

Lemma only_reports_refl s : only_reports s s.
Proof. exists []. now destruct s. Qed.

Lemma only_reports_cons msg s : only_reports s (set_cerr (cons msg) s).
Proof. now exists [msg]. Qed.

Lemma only_reports_fields s s' :
  only_reports s s' ->
  bodyNodes s' = bodyNodes s /\ simpleFrames s' = simpleFrames s /\
  shapeNodes s' = shapeNodes s /\ skeletons s' = skeletons s /\
  worlds s' = worlds s /\ models s' = models s /\ links s' = links s /\
  joints s' = joints s /\ shapes s' = shapes s /\
  entityCount s' = entityCount s.
Proof. intros [msgs ->]. repeat split. Qed.

Section JointBuilderErrors.

Variable jointTransform : JointKind -> Properties -> list float -> Isometry3d.

Local Abbreviation getWorldTransform :=
  (SDFFeatures.getWorldTransform jointTransform).
Local Abbreviation GetParentModelFrame :=
  (SDFFeatures.GetParentModelFrame jointTransform).
Local Abbreviation ConstructSdfJoint :=
  (SDFFeatures.ConstructSdfJoint jointTransform).
Local Abbreviation createJointOfType :=
  (SDFFeatures.createJointOfType jointTransform).

Ltac run_builder :=
  cbv [bind ret get modify report deref throw
       onJointOf moveTo AddJoint GetNextEntity
       SDFFeatures.ConstructSingleAxisJoint
       SDFFeatures.ConstructUniversalJoint
       SDFFeatures.ResolveSdfJointReferenceFrame].

(** A joint type outside the supported ones is reported, and no joint is
    created. *)
Lemma createJointOfType_unsupported mi j p c T s :
  jointKindOf (sdf.Joint.Type_ j) = None ->
  exists msg,
    createJointOfType mi j p c T s = Some (false, set_cerr (cons msg) s).
Proof.
  unfold jointKindOf, SDFFeatures.createJointOfType.
  destruct (sdf.Joint.Type_ j); try discriminate; intros _;
    run_builder; eexists; reflexivity.
Qed.

(** A supported joint type whose axis is missing makes the builder
    dereference a null pointer. *)
Lemma createJointOfType_null_axis mi j p c T s k :
  jointKindOf (sdf.Joint.Type_ j) = Some k ->
  jointPropertiesOf (GetParentModelFrame s mi) j T = None ->
  createJointOfType mi j p c T s = None.
Proof.
  unfold jointKindOf, jointPropertiesOf, SDFFeatures.createJointOfType.
  destruct (sdf.Joint.Type_ j); try discriminate; intros _ Hp; run_builder;
    try discriminate; try (rewrite Hp; reflexivity).
  destruct (SingleAxisProperties ScrewJoint (GetParentModelFrame s mi) j T);
    [discriminate | reflexivity].
Qed.

(** A missing parent or child is reported, and nothing else happens. *)
Lemma ConstructSdfJoint_null mi j parent child s :
  parent = None \/ child = None ->
  exists msg,
    ConstructSdfJoint mi j parent child s
      = Some (InvalidId, set_cerr (cons msg) s).
Proof.
  intros H. unfold SDFFeatures.ConstructSdfJoint.
  destruct parent as [p |], child as [c |];
    try (run_builder; eexists; reflexivity).
  destruct H; discriminate.
Qed.

(** A closed chain is reported, and nothing else happens. *)
Lemma ConstructSdfJoint_closed_chain mi j p c s :
  descendsFrom (bodyNodes s) p c = true ->
  exists msg,
    ConstructSdfJoint mi j (Some p) (Some c) s
      = Some (InvalidId, set_cerr (cons msg) s).
Proof.
  intros H. unfold SDFFeatures.ConstructSdfJoint. run_builder. rewrite H.
  eexists; reflexivity.
Qed.

(** Every run of the Joint Builder that returns either only reports and
    returns the invalid handle, or moves the child under the parent, which
    is then not below the child, and returns a valid handle. *)
Lemma ConstructSdfJoint_inv mi j parent child s r s' :
  ConstructSdfJoint mi j parent child s = Some (r, s') ->
  (r = InvalidId /\ only_reports s s') \/
  (exists p c jt id,
     parent = Some p /\ child = Some c /\
     descendsFrom (bodyNodes s) p c = false /\
     r = ValidId id /\
     bodyNodes s' = alter (movedBody p jt) c (bodyNodes s) /\
     simpleFrames s' = simpleFrames s /\
     skeletons s' = skeletons s /\
     models s' = models s /\
     links s' = links s).
Proof.
  intros H.
  assert (Hnull : parent = None \/ child = None ->
                  r = InvalidId /\ only_reports s s').
  { intros Hn. destruct (ConstructSdfJoint_null mi j _ _ s Hn) as (msg & E).
    rewrite E in H. injection H as <- <-.
    split; [reflexivity | apply only_reports_cons]. }
  destruct parent as [p |]; [| left; apply Hnull; now left].
  destruct child as [c |]; [| left; apply Hnull; now right].
  clear Hnull.
  destruct (descendsFrom (bodyNodes s) p c) eqn:Hd.
  { destruct (ConstructSdfJoint_closed_chain mi j p c s Hd) as (msg & E).
    rewrite E in H. injection H as <- <-.
    left; split; [reflexivity | apply only_reports_cons]. }
  set (T_joint :=
         compose (if decide (sdf.Joint.PoseFrame j = "")
                  then getWorldTransform (bodyNodes s) c
                  else Isometry3d_Identity) (sdf.Joint.Pose j)).
  destruct (jointKindOf (sdf.Joint.Type_ j)) as [k |] eqn:Hk.
  - destruct (jointPropertiesOf (GetParentModelFrame s mi) j T_joint)
      as [props |] eqn:Hp.
    + destruct (ConstructSdfJoint_run jointTransform mi j p c s k props
                  Hd Hk Hp)
        as (s1 & Hrun & Hbs & Hsf & _ & Hsk & _ & Hmod & Hl & _).
      rewrite Hrun in H. injection H as <- <-.
      right. do 4 eexists. repeat split; try eassumption; reflexivity.
    + exfalso. revert H.
      unfold SDFFeatures.ConstructSdfJoint. run_builder. rewrite Hd.
      case_decide as Hf.
      * match goal with
        | |- context [createJointOfType _ _ _ _ ?T ?s0] =>
            rewrite (createJointOfType_null_axis mi j p c T s0 k Hk Hp)
        end.
        discriminate.
      * match goal with
        | |- context [createJointOfType _ _ _ _ ?T ?s0] =>
            rewrite (createJointOfType_null_axis mi j p c T s0 k Hk Hp)
        end.
        discriminate.
  - revert H. unfold SDFFeatures.ConstructSdfJoint. run_builder. rewrite Hd.
    case_decide as Hf.
    + destruct (createJointOfType_unsupported mi j p c
                  (compose (getWorldTransform (bodyNodes s) c) (sdf.Joint.Pose j))
                  s Hk) as (msg & E).
      rewrite E. intros [= <- <-].
      left; split; [reflexivity | apply only_reports_cons].
    + match goal with
      | |- context [createJointOfType _ _ _ _ ?T ?s0] =>
          destruct (createJointOfType_unsupported mi j p c T s0 Hk)
            as (msg & E)
      end.
      rewrite E. intros [= <- <-].
      left; split; [reflexivity |].
      eexists [_; _]. reflexivity.
Qed.

End JointBuilderErrors.

(** *** The tree invariant through the builders *)

Lemma alter_None {A} (f : A -> A) (l : list A) (i : nat) :
  l !! i = None -> alter f i l = l.
Proof.
  intros H. apply list_eq. intros k. rewrite list_lookup_alter.
  case_decide; [subst; now rewrite H | reflexivity].
Qed.

(** An invariant of the body of a loop is an invariant of the loop. *)
Lemma forEach_invariant {A} (I : Base -> Prop) (l : list A) (body : A -> M unit) :
  (forall a s r s', I s -> body a s = Some (r, s') -> I s') ->
  forall s r s', I s -> forEach l body s = Some (r, s') -> I s'.
Proof.
  intros Hbody. induction l as [| a l IH]; intros s r s' Hs H.
  - cbn in H. injection H as <- <-. exact Hs.
  - cbn [forEach] in H. unfold bind in H.
    destruct (body a s) as [[u s1] |] eqn:E; [| discriminate].
    apply (IH s1 r s'); [| exact H]. now apply (Hbody a s u s1).
Qed.

Section TreeInvariant.

Variable jointTransform : JointKind -> Properties -> list float -> Isometry3d.

Local Abbreviation ConstructSdfJoint :=
  (SDFFeatures.ConstructSdfJoint jointTransform).
Local Abbreviation FindOrConstructLink :=
  (SDFFeatures.FindOrConstructLink jointTransform).
Local Abbreviation joinLinks := (SDFFeatures.joinLinks jointTransform).
Local Abbreviation ConstructSdfModel :=
  (SDFFeatures.ConstructSdfModel jointTransform).
Local Abbreviation ConstructSdfWorld :=
  (SDFFeatures.ConstructSdfWorld jointTransform).

(** The Joint Builder keeps the tree. *)
Lemma ConstructSdfJoint_tree mi j parent child s r s' :
  tree (bodyNodes s) ->
  (forall p, parent = Some p -> p < length (bodyNodes s)) ->
  ConstructSdfJoint mi j parent child s = Some (r, s') ->
  tree (bodyNodes s').
Proof.
  intros Ht Hp H.
  destruct (ConstructSdfJoint_inv jointTransform _ _ _ _ _ _ _ H)
    as [(_ & Hrep) | (p & c & jt & id & -> & -> & Hd & _ & Hbs & _)].
  - apply only_reports_fields in Hrep as (-> & _). exact Ht.
  - rewrite Hbs. destruct (bodyNodes s !! c) as [bn |] eqn:Hc.
    + apply moved_tree with (bn := bn); auto.
    + now rewrite alter_None.
Qed.

(** The Link Resolver keeps the tree and the model registry, and the body
    it returns is a body of the table. *)
Lemma FindOrConstructLink_tree skel modelID m name s mi r s' :
  tree (bodyNodes s) ->
  models s !! modelID = Some mi ->
  FindOrConstructLink skel modelID m name s = Some (r, s') ->
  tree (bodyNodes s') /\
  models s' !! modelID = Some mi /\
  (forall b, r = Some b -> b < length (bodyNodes s')).
Proof.
  intros Ht Hm H.
  destruct (getBodyNode (bodyNodes s) skel name) as [b |] eqn:Hg.
  - rewrite (FindOrConstructLink_found _ _ _ _ _ _ _ Hg) in H.
    simplify_eq. split_and!; try assumption.
    intros b' [= <-]. apply getBodyNode_Some in Hg as (bn & Hb & _).
    now apply lookup_lt_Some in Hb.
  - destruct (sdf.Model.LinkByName m name) as [l |] eqn:Hn.
    + destruct (FindOrConstructLink_construct jointTransform _ _ _ _ _ _ _
                  Hg Hn Hm) as (s1 & H1 & Hrun).
      rewrite H1 in H. simplify_eq.
      destruct (ConstructSdfLink_run jointTransform modelID l s mi Hm)
        as (s2 & Hrun2 & Hbs & _ & _ & _ & Hmod & _).
      rewrite Hrun in Hrun2. injection Hrun2 as <-.
      rewrite Hbs, Hmod. split_and!; try assumption.
      * now apply tree_add_root.
      * intros b [= <-]. rewrite length_app. cbn. lia.
    + destruct (FindOrConstructLink_undeclared jointTransform _ modelID _ _ _
                  Hg Hn) as (msg & H1).
      rewrite H1 in H. simplify_eq.
      split_and!; try assumption. discriminate.
Qed.

(** One step of the loop over the joints keeps the tree. *)
Lemma joinLinks_tree skel modelID mi m i s r s' :
  tree (bodyNodes s) ->
  models s !! modelID = Some mi ->
  joinLinks skel modelID mi m i s = Some (r, s') ->
  tree (bodyNodes s') /\ models s' !! modelID = Some mi.
Proof.
  intros Ht Hm. unfold SDFFeatures.joinLinks.
  destruct (sdf.Model.JointByIndex m i) as [j |].
  - unfold bind.
    destruct (FindOrConstructLink skel modelID m (sdf.Joint.ParentLinkName j) s)
      as [[parent s1] |] eqn:E1; [| discriminate].
    destruct (FindOrConstructLink_tree _ _ _ _ _ _ _ _ Ht Hm E1)
      as (Ht1 & Hm1 & Hp1).
    destruct (FindOrConstructLink skel modelID m (sdf.Joint.ChildLinkName j) s1)
      as [[child s2] |] eqn:E2; [| discriminate].
    destruct (FindOrConstructLink_tree _ _ _ _ _ _ _ _ Ht1 Hm1 E2)
      as (Ht2 & Hm2 & _).
    destruct (FindOrConstructLink_inv jointTransform _ _ _ _ _ _ _ _ Hm1 E2)
      as ((tail & Htail) & _).
    destruct (ConstructSdfJoint mi j parent child s2) as [[id s3] |] eqn:E3;
      [| discriminate].
    intros [= _ <-]. split.
    + apply (ConstructSdfJoint_tree _ _ _ _ _ _ _ Ht2) in E3; [exact E3 |].
      intros p Hp. apply Hp1 in Hp. rewrite Htail, length_app. lia.
    + destruct (ConstructSdfJoint_inv jointTransform _ _ _ _ _ _ _ E3)
        as [(_ & Hrep) | (p & c & jt & id' & _ & _ & _ & _ & _ & _ & _ & Hmod & _)].
      * apply only_reports_fields in Hrep as (_&_&_&_&_&->&_). exact Hm2.
      * now rewrite Hmod.
  - unfold report, modify. intros [= _ <-]. split; assumption.
Qed.

(** The Model Assembler keeps the tree. *)
Lemma ConstructSdfModel_tree worldID m s r s' :
  tree (bodyNodes s) ->
  ConstructSdfModel worldID m s = Some (r, s') ->
  tree (bodyNodes s').
Proof.
  intros Ht. unfold SDFFeatures.ConstructSdfModel.
  cbv [Skeleton_create SimpleFrame_createShared AddModel GetNextEntity
       setMobile setSelfCollisionCheck].
  cbv [bind get modify ret fst snd].
  cbn [bodyNodes simpleFrames shapeNodes skeletons worlds models links joints
       shapes entityCount cerr
       set_bodyNodes set_simpleFrames set_shapeNodes set_skeletons set_worlds
       set_models set_links set_joints set_shapes set_entityCount set_cerr].
  set (skel := length (skeletons s)).
  set (mi := mkModelInfo skel (length (simpleFrames s))).
  match goal with
  | |- context [forEach (seq 0 (sdf.Model.LinkCount m)) ?body ?s0] =>
      set (links_body := body); set (st0 := s0)
  end.
  set (I := fun st : Base =>
              tree (bodyNodes st) /\ models st !! entityCount s = Some mi).
  assert (H0 : I st0).
  { split; [exact Ht |]. unfold st0. cbn. apply lookup_insert_eq. }
  destruct (forEach (seq 0 (sdf.Model.LinkCount m)) links_body st0)
    as [[u s1] |] eqn:E1; [| discriminate].
  assert (H1 : I s1).
  { apply (forEach_invariant I (seq 0 (sdf.Model.LinkCount m)) links_body)
      with (s := st0) (r := u); [| assumption | assumption].
    intros i st r0 st' [Hti Hmi]. unfold links_body.
    destruct (sdf.Model.LinkByIndex m i) as [l |]; cbv [deref ret throw];
      [| discriminate].
    destruct (FindOrConstructLink skel (entityCount s) m (sdf.Link.Name l) st)
      as [[b st1] |] eqn:E; [| discriminate].
    intros [= _ <-].
    destruct (FindOrConstructLink_tree _ _ _ _ _ _ _ _ Hti Hmi E) as (? & ? & _).
    now split. }
  destruct (forEach (seq 0 (sdf.Model.JointCount m))
                    (joinLinks skel (entityCount s) mi m) s1)
    as [[u2 s2] |] eqn:E2; [| discriminate].
  intros [= _ <-].
  assert (H2 : I s2).
  { apply (forEach_invariant I (seq 0 (sdf.Model.JointCount m))
                             (joinLinks skel (entityCount s) mi m))
      with (s := s1) (r := u2); [| assumption | assumption].
    intros i st r0 st' [Hti Hmi] E.
    now apply (joinLinks_tree _ _ _ _ _ _ _ _ Hti Hmi E). }
  apply H2.
Qed.

(** The whole construction of a world keeps the tree. *)
Lemma ConstructSdfWorld_tree w s r s' :
  tree (bodyNodes s) ->
  ConstructSdfWorld w s = Some (r, s') ->
  tree (bodyNodes s').
Proof.
  intros Ht. unfold SDFFeatures.ConstructSdfWorld.
  cbv [AddWorld GetNextEntity]. cbv [bind get modify ret].
  match goal with
  | |- context [forEach _ ?body ?s0] => set (models_body := body); set (st0 := s0)
  end.
  destruct (forEach (seq 0 (sdf.World.ModelCount w)) models_body st0)
    as [[u s1] |] eqn:E; [| discriminate].
  intros [= _ <-].
  apply (forEach_invariant (fun st => tree (bodyNodes st))
                           (seq 0 (sdf.World.ModelCount w)) models_body)
    with (s := st0) (r := u); [| exact Ht | exact E].
  intros i st r0 st' Hti. unfold models_body.
  destruct (sdf.World.ModelByIndex w i) as [model0 |].
  - destruct (ConstructSdfModel _ model0 st) as [[id st1] |] eqn:Em;
      [| discriminate].
    intros [= _ <-]. now apply (ConstructSdfModel_tree _ _ _ _ _ Hti Em).
  - now intros [= _ <-].
Qed.

End TreeInvariant.

(** *** C2 and C4 *)

Section ErrorPaths.

Variable jointTransform : JointKind -> Properties -> list float -> Isometry3d.

Local Abbreviation ConstructSdfJoint :=
  (SDFFeatures.ConstructSdfJoint jointTransform).
Local Abbreviation FindOrConstructLink :=
  (SDFFeatures.FindOrConstructLink jointTransform).
Local Abbreviation joinLinks := (SDFFeatures.joinLinks jointTransform).
Local Abbreviation ConstructSdfWorld :=
  (SDFFeatures.ConstructSdfWorld jointTransform).

(** C2. In a tree, when the parent is the child or lies below it, the
    Joint Builder returns the invalid handle and changes nothing but the
    diagnostic stream.  Every run of the Joint Builder on bodies of the
    table keeps the tree invariant, and so does the construction of a whole
    world: afterwards no body is its own ancestor. *)
Theorem closed_chain_rejected :
  (forall mi j p c s,
     tree (bodyNodes s) -> p < length (bodyNodes s) ->
     p = c \/ is_ancestor (bodyNodes s) c p ->
     exists msg,
       ConstructSdfJoint mi j (Some p) (Some c) s
         = Some (InvalidId, set_cerr (cons msg) s)) /\
  (forall mi j parent child s r s',
     tree (bodyNodes s) ->
     (forall p, parent = Some p -> p < length (bodyNodes s)) ->
     ConstructSdfJoint mi j parent child s = Some (r, s') ->
     tree (bodyNodes s')) /\
  (forall w r s',
     ConstructSdfWorld w emptyBase = Some (r, s') ->
     forall b, ~ is_ancestor (bodyNodes s') b b).
Proof.
  split; [| split].
  - intros mi j p c s Ht Hp Hdesc.
    apply ConstructSdfJoint_closed_chain.
    destruct (descendsFrom (bodyNodes s) p c) eqn:Hd; [reflexivity |].
    exfalso. pose proof (descendsFrom_false _ _ _ Ht Hp Hd) as Hno.
    destruct Hdesc as [-> | [k Hk]].
    + now apply (Hno 0).
    + now apply (Hno (S k)).
  - intros mi j parent child s r s'. apply ConstructSdfJoint_tree.
  - intros w r s' H.
    assert (Ht : tree (bodyNodes emptyBase)).
    { apply tree_of_roots. intros b. reflexivity. }
    apply (ConstructSdfWorld_tree jointTransform _ _ _ _ Ht H).
Qed.

(** The Link Resolver returns on every registered model. *)
Lemma FindOrConstructLink_total skel modelID m name s mi :
  models s !! modelID = Some mi ->
  exists r s', FindOrConstructLink skel modelID m name s = Some (r, s').
Proof.
  intros Hm.
  destruct (getBodyNode (bodyNodes s) skel name) as [b |] eqn:Hg.
  - exists (Some b), s. now apply FindOrConstructLink_found.
  - destruct (sdf.Model.LinkByName m name) as [l |] eqn:Hn.
    + destruct (FindOrConstructLink_construct jointTransform _ _ _ _ _ _ _
                  Hg Hn Hm) as (s1 & H1 & _).
      eauto.
    + destruct (FindOrConstructLink_undeclared jointTransform _ modelID _ _ _
                  Hg Hn) as (msg & H1).
      eauto.
Qed.

(** A dangling name resolves to null. *)
Lemma FindOrConstructLink_dangling skel modelID m name s :
  dangling m (bodyNodes s) skel name ->
  exists msg,
    FindOrConstructLink skel modelID m name s
      = Some (None, set_cerr (cons msg) s).
Proof. intros [Hn Hg]. now apply FindOrConstructLink_undeclared. Qed.

(** A resolution leaves the bodies it finds where they are. *)
Lemma FindOrConstructLink_keeps skel modelID m name s mi r s' :
  models s !! modelID = Some mi ->
  FindOrConstructLink skel modelID m name s = Some (r, s') ->
  forall b bn, bodyNodes s !! b = Some bn -> bodyNodes s' !! b = Some bn.
Proof.
  intros Hm H b bn Hb.
  destruct (FindOrConstructLink_inv jointTransform _ _ _ _ _ _ _ _ Hm H)
    as ((tail & ->) & _).
  now apply lookup_app_l_Some.
Qed.

(** A resolution keeps the bodies of a skeleton among the declared
    links. *)
Lemma FindOrConstructLink_declared skel skel' modelID m name s mi r s' :
  models s !! modelID = Some mi ->
  bodies_declared (bodyNodes s) skel' m ->
  FindOrConstructLink skel modelID m name s = Some (r, s') ->
  bodies_declared (bodyNodes s') skel' m.
Proof.
  intros Hm Hd H.
  destruct (getBodyNode (bodyNodes s) skel name) as [b |] eqn:Hg.
  - rewrite (FindOrConstructLink_found _ _ _ _ _ _ _ Hg) in H.
    now simplify_eq.
  - destruct (sdf.Model.LinkByName m name) as [l |] eqn:Hn.
    + destruct (FindOrConstructLink_construct jointTransform _ _ _ _ _ _ _
                  Hg Hn Hm) as (s1 & H1 & Hrun).
      rewrite H1 in H. simplify_eq.
      destruct (ConstructSdfLink_run jointTransform modelID l s mi Hm)
        as (s2 & Hrun2 & Hbs & _).
      rewrite Hrun in Hrun2. simplify_eq.
      intros b bn. rewrite Hbs.
      intros [Hb | [_ Hb]]%lookup_app_Some Hsk; [now apply (Hd b bn) |].
      apply list_lookup_singleton_Some in Hb as [_ <-]. cbn.
      rewrite (LinkByName_name _ _ _ Hn). congruence.
    + destruct (FindOrConstructLink_undeclared jointTransform _ modelID _ _ _
                  Hg Hn) as (msg & H1).
      rewrite H1 in H. now simplify_eq.
Qed.

Lemma undeclared_dangling m bs skel name :
  bodies_declared bs skel m ->
  sdf.Model.LinkByName m name = None ->
  dangling m bs skel name.
Proof.
  intros Hd Hn. split; [exact Hn |].
  destruct (getBodyNode bs skel name) as [b |] eqn:Hg; [| reflexivity].
  exfalso. apply getBodyNode_Some in Hg as (bn & Hb & Hs & Hnm).
  apply (Hd b bn Hb Hs). now rewrite Hnm.
Qed.

(** C4 (as amended). A null parent or a null child makes the Joint
    Builder report an error and return the invalid handle, for the first
    joint of a model as for any other, and nothing else changes.  In the
    loop over the joints of a model, a joint whose parent name or child
    name is not declared is passed over: the step returns with an error
    reported, the bodies built so far stay as they are, and the loop goes
    on with the next joint. *)
Theorem missing_body_rejected :
  (forall mi j parent child s,
     parent = None \/ child = None ->
     exists msg,
       ConstructSdfJoint mi j parent child s
         = Some (InvalidId, set_cerr (cons msg) s)) /\
  (forall skel modelID mi m i rest s j,
     sdf.Model.JointByIndex m i = Some j ->
     models s !! modelID = Some mi ->
     bodies_declared (bodyNodes s) skel m ->
     sdf.Model.LinkByName m (sdf.Joint.ParentLinkName j) = None
       \/ sdf.Model.LinkByName m (sdf.Joint.ChildLinkName j) = None ->
     exists s1,
       joinLinks skel modelID mi m i s = Some (tt, s1) /\
       forEach (i :: rest) (joinLinks skel modelID mi m) s
         = forEach rest (joinLinks skel modelID mi m) s1 /\
       (forall b bn, bodyNodes s !! b = Some bn ->
                     bodyNodes s1 !! b = Some bn) /\
       (exists msg rest_of_cerr, cerr s1 = msg :: rest_of_cerr)).
Proof.
  split.
  - intros mi j parent child s. apply ConstructSdfJoint_null.
  - intros skel modelID mi m i rest s j Hj Hm Hd Hdangling.
    assert (Hstep : exists s1,
              joinLinks skel modelID mi m i s = Some (tt, s1) /\
              (forall b bn, bodyNodes s !! b = Some bn ->
                            bodyNodes s1 !! b = Some bn) /\
              (exists msg rest_of_cerr, cerr s1 = msg :: rest_of_cerr)).
    { unfold SDFFeatures.joinLinks. rewrite Hj. unfold bind.
      destruct (FindOrConstructLink_total skel modelID m
                  (sdf.Joint.ParentLinkName j) s mi Hm) as (rp & sa & Ea).
      rewrite Ea.
      pose proof (FindOrConstructLink_keeps _ _ _ _ _ _ _ _ Hm Ea) as Ka.
      pose proof (FindOrConstructLink_declared _ _ _ _ _ _ _ _ _ Hm Hd Ea) as Da.
      destruct (FindOrConstructLink_inv jointTransform _ _ _ _ _ _ _ _ Hm Ea)
        as (_ & Hma).
      assert (Hm' : models sa !! modelID = Some mi) by now rewrite Hma.
      destruct (FindOrConstructLink_total skel modelID m
                  (sdf.Joint.ChildLinkName j) sa mi Hm') as (rc & sb & Eb).
      rewrite Eb.
      pose proof (FindOrConstructLink_keeps _ _ _ _ _ _ _ _ Hm' Eb) as Kb.
      assert (Hnull : rp = None \/ rc = None).
      { destruct Hdangling as [Hn | Hn].
        - left.
          destruct (FindOrConstructLink_dangling skel modelID m _ s
                      (undeclared_dangling _ _ _ _ Hd Hn)) as (msg & E).
          rewrite E in Ea. now simplify_eq.
        - right.
          destruct (FindOrConstructLink_dangling skel modelID m _ sa
                      (undeclared_dangling _ _ _ _ Da Hn)) as (msg & E).
          rewrite E in Eb. now simplify_eq. }
      destruct (ConstructSdfJoint_null jointTransform mi j rp rc sb Hnull)
        as (msg & E).
      rewrite E. eexists. split; [reflexivity |]. split.
      + intros b bn Hb. cbn. auto.
      + cbn. eauto. }
    destruct Hstep as (s1 & Hrun & Hkeep & Hmsg).
    exists s1. split_and!; try assumption.
    cbn [forEach]. unfold bind at 1. now rewrite Hrun.
Qed.

End ErrorPaths.

(** *** The error paths on concrete scenes *)

Lemma example_chain_state_tree : tree (bodyNodes example_chain_state).
Proof.
  split.
  - intros [| [| b]] p; cbn; intros [= <-] || discriminate. lia.
  - intros [| [| b]] [k Hk]; cbn in Hk; try discriminate.
    destruct k; cbn in Hk; discriminate.
Qed.

Lemma example_anchored_declared :
  bodies_declared (bodyNodes example_state) 0 example_anchored_model.
Proof.
  intros b bn Hb _. destruct b as [| [| b]]; cbn in Hb; try discriminate;
    injection Hb as <-; cbn; discriminate.
Qed.

Lemma closed_chain_rejected_witness :
  tree (bodyNodes example_chain_state) /\
  is_ancestor (bodyNodes example_chain_state) 0 1 /\
  exists msg,
    ConstructSdfJoint example_jointTransform (mkModelInfo 0 0) example_backward
                      (Some 1) (Some 0) example_chain_state
      = Some (InvalidId, set_cerr (cons msg) example_chain_state).
Proof.
  assert (Ha : is_ancestor (bodyNodes example_chain_state) 0 1)
    by (exists 0; reflexivity).
  split; [exact example_chain_state_tree |]. split; [exact Ha |].
  apply (proj1 (closed_chain_rejected example_jointTransform)).
  - exact example_chain_state_tree.
  - cbn. lia.
  - right. exact Ha.
Defined.

Lemma missing_body_rejected_witness :
  let step := joinLinks example_jointTransform 0 0 (mkModelInfo 0 0)
                        example_anchored_model in
  exists s1,
    step 0 example_state = Some (tt, s1) /\
    forEach [0; 1] step example_state = forEach [1] step s1 /\
    (forall b bn, bodyNodes example_state !! b = Some bn ->
                  bodyNodes s1 !! b = Some bn) /\
    (exists msg rest_of_cerr, cerr s1 = msg :: rest_of_cerr).
Proof.
  apply (proj2 (missing_body_rejected example_jointTransform)
           0 0 (mkModelInfo 0 0) example_anchored_model 0 [1] example_state
           example_anchor).
  - reflexivity.
  - reflexivity.
  - exact example_anchored_declared.
  - left. reflexivity.
Defined.

(** The first joint of [example_anchored_model] names "world" as its
    parent.  The resolver has no body for that name, and the Joint Builder,
    called for this first joint with the null parent, reports an error and
    returns the invalid handle: no joint is made and "base" keeps the free
    joint it was built with. *)
Lemma first_joint_null_parent_rejected :
  sdf.Model.JointByIndex example_anchored_model 0 = Some example_anchor /\
  exists msg1 msg2,
    FindOrConstructLink example_jointTransform 0 0 example_anchored_model
                        (sdf.Joint.ParentLinkName example_anchor) example_state
      = Some (None, set_cerr (cons msg1) example_state) /\
    FindOrConstructLink example_jointTransform 0 0 example_anchored_model
                        (sdf.Joint.ChildLinkName example_anchor)
                        (set_cerr (cons msg1) example_state)
      = Some (Some 0, set_cerr (cons msg1) example_state) /\
    ConstructSdfJoint example_jointTransform (mkModelInfo 0 0) example_anchor
                      None (Some 0) (set_cerr (cons msg1) example_state)
      = Some (InvalidId,
              set_cerr (cons msg2) (set_cerr (cons msg1) example_state)) /\
    bodyNodes (set_cerr (cons msg2) (set_cerr (cons msg1) example_state))
      = bodyNodes example_state.
Proof.
  split; [reflexivity |].
  destruct (FindOrConstructLink_undeclared example_jointTransform 0 0
              example_anchored_model "world" example_state)
    as (msg1 & H1); [reflexivity | reflexivity |].
  destruct (ConstructSdfJoint_null example_jointTransform (mkModelInfo 0 0)
              example_anchor None (Some 0)
              (set_cerr (cons msg1) example_state))
    as (msg2 & H2); [now left |].
  exists msg1, msg2. split_and!.
  - exact H1.
  - now apply FindOrConstructLink_found.
  - exact H2.
  - reflexivity.
Qed.

(** ** C6: the model frame *)

Lemma getNumBodyNodes_zero bs skel :
  getNumBodyNodes bs skel = 0 <->
  forall b bn, bs !! b = Some bn -> bodySkeleton bn <> skel.
Proof.
  unfold getNumBodyNodes. split.
  - intros H b bn Hb Hs. apply nil_length_inv in H.
    assert (Hin : bn ∈ filter (fun bn => bodySkeleton bn = skel) bs).
    { apply list_elem_of_filter. split; [exact Hs |].
      now apply list_elem_of_lookup_2 with b. }
    rewrite H in Hin. now apply not_elem_of_nil in Hin.
  - intros H.
    destruct (filter (fun bn => bodySkeleton bn = skel) bs) as [| bn l] eqn:E;
      [reflexivity | exfalso].
    assert (Hin : bn ∈ filter (fun bn => bodySkeleton bn = skel) bs)
      by (rewrite E; left).
    apply list_elem_of_filter in Hin as [Hs Hin].
    apply list_elem_of_lookup_1 in Hin as [b Hb]. now apply (H b bn).
Qed.

Lemma getNumBodyNodes_zero_getBodyNode bs skel name :
  getNumBodyNodes bs skel = 0 -> getBodyNode bs skel name = None.
Proof.
  intros H. destruct (getBodyNode bs skel name) as [b |] eqn:E; [| reflexivity].
  apply getBodyNode_Some in E as (bn & Hb & Hs & _).
  now apply (proj1 (getNumBodyNodes_zero _ _) H b bn) in Hs.
Qed.

Lemma LinkByName_head m l0 rest :
  sdf.Model.Links m = l0 :: rest ->
  sdf.Model.LinkByName m (sdf.Link.Name l0) = Some l0.
Proof.
  unfold sdf.Model.LinkByName. intros ->. cbn.
  now rewrite bool_decide_eq_true_2.
Qed.

Lemma LinkByName_nil m name :
  sdf.Model.Links m = [] -> sdf.Model.LinkByName m name = None.
Proof. unfold sdf.Model.LinkByName. now intros ->. Qed.

(** A loop whose body returns under an invariant returns. *)
Lemma forEach_total {A} (I : Base -> Prop) (l : list A) (body : A -> M unit) :
  (forall a s, a ∈ l -> I s -> exists s', body a s = Some (tt, s') /\ I s') ->
  forall s, I s -> exists s', forEach l body s = Some (tt, s') /\ I s'.
Proof.
  induction l as [| a l IH]; intros Hbody s Hs.
  - exists s. now split.
  - destruct (Hbody a s) as (s1 & E1 & H1); [left | exact Hs |].
    destruct (IH (fun a' s0 Ha => Hbody a' s0 (list_elem_of_further _ _ _ Ha))
                 s1 H1) as (s2 & E2 & H2).
    exists s2. split; [| exact H2].
    cbn [forEach]. unfold bind. now rewrite E1.
Qed.

Section ModelFrame.

Variable jointTransform : JointKind -> Properties -> list float -> Isometry3d.

Local Abbreviation getWorldTransform :=
  (SDFFeatures.getWorldTransform jointTransform).
Local Abbreviation getRelativeTransform :=
  (SDFFeatures.getRelativeTransform jointTransform).
Local Abbreviation SimpleFrame_getWorldTransform :=
  (SDFFeatures.SimpleFrame_getWorldTransform jointTransform).
Local Abbreviation ConstructSdfLink :=
  (SDFFeatures.ConstructSdfLink jointTransform).
Local Abbreviation ConstructSdfJoint :=
  (SDFFeatures.ConstructSdfJoint jointTransform).
Local Abbreviation FindOrConstructLink :=
  (SDFFeatures.FindOrConstructLink jointTransform).
Local Abbreviation joinLinks := (SDFFeatures.joinLinks jointTransform).
Local Abbreviation ConstructSdfModel :=
  (SDFFeatures.ConstructSdfModel jointTransform).

(** The world transform of a body without parent is its relative
    transform. *)
Lemma getWorldTransform_last bs bn :
  parentBodyNode bn = None ->
  getWorldTransform (bs ++ [bn]) (length bs) = getRelativeTransform bn.
Proof.
  intros Hp. unfold SDFFeatures.getWorldTransform.
  rewrite length_app, Nat.add_comm. cbn [length Nat.add worldTransformFrom].
  rewrite (list_lookup_middle bs [] bn (length bs) eq_refl), Hp.
  apply compose_id_l.
Qed.

(** Appending a body leaves the world transform of a frame as it is. *)
Lemma SimpleFrame_getWorldTransform_app s bn f sf :
  tree (bodyNodes s) ->
  simpleFrames s !! f = Some sf ->
  (forall p, parentFrame sf = Some p -> p < length (bodyNodes s)) ->
  SimpleFrame_getWorldTransform (set_bodyNodes (fun _ => bodyNodes s ++ [bn]) s) f
    = SimpleFrame_getWorldTransform s f.
Proof.
  intros Ht Hf Hp. unfold SDFFeatures.SimpleFrame_getWorldTransform.
  cbn [simpleFrames bodyNodes set_bodyNodes]. rewrite Hf.
  destruct (parentFrame sf) as [p |]; [| reflexivity].
  cbn [Frame_getWorldTransform]. f_equal.
  apply getWorldTransform_app; [exact Ht | now apply Hp].
Qed.

(** The Link Builder on a skeleton without bodies: the model frame moves
    onto the new body and keeps its world transform. *)
Lemma ConstructSdfLink_first modelID l s mi sf :
  models s !! modelID = Some mi ->
  simpleFrames s !! frame mi = Some sf ->
  getNumBodyNodes (bodyNodes s) (model mi) = 0 ->
  exists s' bn sf',
    ConstructSdfLink modelID l s = Some (ValidId (entityCount s), s') /\
    bodyNodes s' = bodyNodes s ++ [bn] /\
    bodySkeleton bn = model mi /\ bodyName bn = sdf.Link.Name l /\
    simpleFrames s' !! frame mi = Some sf' /\
    parentFrame sf' = Some (length (bodyNodes s)) /\
    (tree (bodyNodes s) ->
     (forall p, parentFrame sf = Some p -> p < length (bodyNodes s)) ->
     isometry (sdf.Link.Pose l) ->
     isometry (SimpleFrame_getWorldTransform s (frame mi)) ->
     SimpleFrame_getWorldTransform s' (frame mi)
       = SimpleFrame_getWorldTransform s (frame mi)).
Proof.
  intros Hm Hf H0.
  destruct (ConstructSdfLink_run jointTransform modelID l s mi Hm)
    as (s' & Hrun & Hbs & Hsf & _).
  rewrite decide_True in Hsf by exact H0.
  eexists s', _, _. split; [exact Hrun |]. split; [exact Hbs |].
  split; [reflexivity |]. split; [reflexivity |].
  split; [rewrite Hsf, list_lookup_alter_eq, Hf; reflexivity |].
  split; [reflexivity |].
  intros Ht Hp Hpose Hframe.
  unfold SDFFeatures.SimpleFrame_getWorldTransform at 1.
  rewrite Hsf, list_lookup_alter_eq, Hf, Hbs. cbn [fmap option_fmap option_map].
  cbn [parentFrame relativeTransform Frame_getWorldTransform
       SDFFeatures.World_getTransform].
  rewrite !(SimpleFrame_getWorldTransform_app s _ (frame mi) sf Ht Hf Hp).
  rewrite !compose_id_r. apply compose_inverse_cancel_l.
  rewrite getWorldTransform_last by reflexivity.
  unfold SDFFeatures.getRelativeTransform, freeBody,
    SDFFeatures.jointRelativeTransform.
  cbn [parentJoint mPositions mT_ParentBodyToJoint mT_ChildBodyToJoint].
  case_decide; auto 10 with isometry.
Qed.

(** The Link Builder on a skeleton that has a body leaves the frames
    alone. *)
Lemma ConstructSdfLink_later modelID l s mi :
  models s !! modelID = Some mi ->
  getNumBodyNodes (bodyNodes s) (model mi) <> 0 ->
  exists s' bn,
    ConstructSdfLink modelID l s = Some (ValidId (entityCount s), s') /\
    bodyNodes s' = bodyNodes s ++ [bn] /\
    bodySkeleton bn = model mi /\ bodyName bn = sdf.Link.Name l /\
    simpleFrames s' = simpleFrames s.
Proof.
  intros Hm H0.
  destruct (ConstructSdfLink_run jointTransform modelID l s mi Hm)
    as (s' & Hrun & Hbs & Hsf & _).
  rewrite decide_False in Hsf by exact H0.
  eexists s', _. split; [exact Hrun |]. split; [exact Hbs |].
  split; [reflexivity |]. split; [reflexivity | exact Hsf].
Qed.

(** A resolution keeps the model frame on the first body. *)
Lemma FindOrConstructLink_on_first_body skel f modelID m name s r s' b0 n0 :
  models s !! modelID = Some (mkModelInfo skel f) ->
  frame_on_first_body s skel f b0 n0 ->
  FindOrConstructLink skel modelID m name s = Some (r, s') ->
  frame_on_first_body s' skel f b0 n0.
Proof.
  intros Hm Hfr H.
  destruct (getBodyNode (bodyNodes s) skel name) as [b |] eqn:Hg.
  - rewrite (FindOrConstructLink_found _ _ _ _ _ _ _ Hg) in H. now simplify_eq.
  - destruct (sdf.Model.LinkByName m name) as [l |] eqn:Hn.
    + destruct (FindOrConstructLink_construct jointTransform _ _ _ _ _ _ _
                  Hg Hn Hm) as (s1 & H1 & Hrun).
      rewrite H1 in H. simplify_eq.
      destruct Hfr as ((sf & Hsf & Hpar) & (bn & Hb & Hs & Hname) & Hmin).
      destruct (ConstructSdfLink_later modelID l s _ Hm)
        as (s2 & bn2 & Hrun2 & Hbs & _ & _ & Hfs).
      { intros H0. now apply (proj1 (getNumBodyNodes_zero _ _) H0 b0 bn Hb). }
      rewrite Hrun in Hrun2. simplify_eq. split_and!.
      * exists sf. rewrite Hfs. split; assumption.
      * exists bn. rewrite Hbs.
        split_and!; [now apply lookup_app_l_Some | done | done].
      * intros b bn' Hlt Hb'. apply (Hmin b bn' Hlt).
        rewrite Hbs, lookup_app_l in Hb'; [exact Hb' |].
        apply lookup_lt_Some in Hb. lia.
    + destruct (FindOrConstructLink_undeclared jointTransform _ modelID _ _ _
                  Hg Hn) as (msg & H1).
      rewrite H1 in H. now simplify_eq.
Qed.

(** The first resolution of a declared name moves the model frame onto
    the body it builds. *)
Lemma FindOrConstructLink_first skel f modelID m name s r s' l :
  models s !! modelID = Some (mkModelInfo skel f) ->
  frame_on_world s skel f ->
  sdf.Model.LinkByName m name = Some l ->
  FindOrConstructLink skel modelID m name s = Some (r, s') ->
  frame_on_first_body s' skel f (length (bodyNodes s)) name.
Proof.
  intros Hm ((sf & Hsf & Hpar) & H0) Hn H.
  pose proof (getNumBodyNodes_zero_getBodyNode _ _ name H0) as Hg.
  destruct (FindOrConstructLink_construct jointTransform _ _ _ _ _ _ _
              Hg Hn Hm) as (s1 & H1 & Hrun).
  rewrite H1 in H. simplify_eq.
  destruct (ConstructSdfLink_first modelID l s _ sf Hm Hsf H0)
    as (s2 & bn & sf' & Hrun2 & Hbs & Hsk & Hnm & Hsf' & Hpar' & _).
  rewrite Hrun in Hrun2. simplify_eq. split_and!.
  - exists sf'. now split.
  - exists bn. rewrite Hbs. split_and!.
    + now apply list_lookup_middle.
    + exact Hsk.
    + rewrite Hnm. now apply LinkByName_name with m.
  - intros b bn' Hlt Hb'. rewrite Hbs, lookup_app_l in Hb' by exact Hlt.
    exact (proj1 (getNumBodyNodes_zero _ _) H0 b bn' Hb').
Qed.

(** The resolution of a name that is not declared leaves the model frame
    on the world. *)
Lemma FindOrConstructLink_on_world skel f modelID m name s r s' :
  frame_on_world s skel f ->
  sdf.Model.LinkByName m name = None ->
  FindOrConstructLink skel modelID m name s = Some (r, s') ->
  frame_on_world s' skel f /\ models s' = models s.
Proof.
  intros Hfr Hn H.
  pose proof (getNumBodyNodes_zero_getBodyNode _ _ name (proj2 Hfr)) as Hg.
  destruct (FindOrConstructLink_undeclared jointTransform skel modelID _ _ _
              Hg Hn) as (msg & H1).
  rewrite H1 in H. now simplify_eq.
Qed.

(** The Joint Builder touches neither the frames nor the skeleton and the
    name of a body. *)
Lemma ConstructSdfJoint_frame mi j parent child s r s' :
  ConstructSdfJoint mi j parent child s = Some (r, s') ->
  simpleFrames s' = simpleFrames s /\
  models s' = models s /\
  forall b,
    (bodySkeleton <$> bodyNodes s' !! b) = (bodySkeleton <$> bodyNodes s !! b) /\
    (bodyName <$> bodyNodes s' !! b) = (bodyName <$> bodyNodes s !! b).
Proof.
  intros H.
  destruct (ConstructSdfJoint_inv jointTransform _ _ _ _ _ _ _ H)
    as [(_ & Hrep) |
        (p & c & jt & id & _ & _ & _ & _ & Hbs & Hsf & _ & Hmod & _)].
  - apply only_reports_fields in Hrep as (-> & -> & _ & _ & _ & -> & _).
    now split_and!.
  - rewrite Hbs, Hsf, Hmod. split_and!; try reflexivity.
    intros b. rewrite list_lookup_alter.
    case_decide; [subst | now split].
    now destruct (bodyNodes s !! b).
Qed.

Lemma ConstructSdfJoint_on_first_body mi j parent child s r s' skel f b0 n0 :
  frame_on_first_body s skel f b0 n0 ->
  ConstructSdfJoint mi j parent child s = Some (r, s') ->
  frame_on_first_body s' skel f b0 n0.
Proof.
  intros ((sf & Hsf & Hpar) & (bn & Hb & Hs & Hname) & Hmin) H.
  destruct (ConstructSdfJoint_frame _ _ _ _ _ _ _ H) as (Hfs & _ & Hbody).
  split_and!.
  - exists sf. rewrite Hfs. now split.
  - destruct (Hbody b0) as [H1 H2]. rewrite Hb in H1, H2.
    destruct (bodyNodes s' !! b0) as [bn' |]; [| discriminate].
    exists bn'. cbn in H1, H2. split_and!; congruence.
  - intros b bn' Hlt Hb'. destruct (Hbody b) as [H1 _]. rewrite Hb' in H1.
    destruct (bodyNodes s !! b) as [bn0 |] eqn:E; [| discriminate].
    cbn in H1. injection H1 as ->. now apply (Hmin b bn0).
Qed.

Lemma ConstructSdfJoint_on_world mi j parent child s r s' skel f :
  frame_on_world s skel f ->
  ConstructSdfJoint mi j parent child s = Some (r, s') ->
  frame_on_world s' skel f.
Proof.
  intros ((sf & Hsf & Hpar) & H0) H.
  destruct (ConstructSdfJoint_frame _ _ _ _ _ _ _ H) as (Hfs & _ & Hbody).
  split.
  - exists sf. rewrite Hfs. now split.
  - apply getNumBodyNodes_zero. intros b bn' Hb'.
    destruct (Hbody b) as [H1 _]. rewrite Hb' in H1.
    destruct (bodyNodes s !! b) as [bn0 |] eqn:E; [| discriminate].
    cbn in H1. injection H1 as ->.
    exact (proj1 (getNumBodyNodes_zero _ _) H0 b bn0 E).
Qed.

(** One step of the loop over the joints keeps the model frame where it
    is. *)
Lemma joinLinks_on_first_body skel f modelID m i s r s' b0 n0 :
  models s !! modelID = Some (mkModelInfo skel f) ->
  frame_on_first_body s skel f b0 n0 ->
  joinLinks skel modelID (mkModelInfo skel f) m i s = Some (r, s') ->
  frame_on_first_body s' skel f b0 n0 /\
  models s' !! modelID = Some (mkModelInfo skel f).
Proof.
  intros Hm Hfr. unfold SDFFeatures.joinLinks.
  destruct (sdf.Model.JointByIndex m i) as [j |].
  - unfold bind.
    destruct (FindOrConstructLink skel modelID m (sdf.Joint.ParentLinkName j) s)
      as [[parent s1] |] eqn:E1; [| discriminate].
    pose proof (FindOrConstructLink_on_first_body _ _ _ _ _ _ _ _ _ _
                  Hm Hfr E1) as Hfr1.
    destruct (FindOrConstructLink_inv jointTransform _ _ _ _ _ _ _ _ Hm E1)
      as (_ & Hm1). rewrite <- Hm1 in Hm.
    destruct (FindOrConstructLink skel modelID m (sdf.Joint.ChildLinkName j) s1)
      as [[child s2] |] eqn:E2; [| discriminate].
    pose proof (FindOrConstructLink_on_first_body _ _ _ _ _ _ _ _ _ _
                  Hm Hfr1 E2) as Hfr2.
    destruct (FindOrConstructLink_inv jointTransform _ _ _ _ _ _ _ _ Hm E2)
      as (_ & Hm2). rewrite <- Hm2 in Hm.
    destruct (ConstructSdfJoint (mkModelInfo skel f) j parent child s2)
      as [[id s3] |] eqn:E3; [| discriminate].
    intros [= _ <-]. split.
    + exact (ConstructSdfJoint_on_first_body _ _ _ _ _ _ _ _ _ _ _ Hfr2 E3).
    + destruct (ConstructSdfJoint_frame _ _ _ _ _ _ _ E3) as (_ & -> & _).
      exact Hm.
  - unfold report, modify. intros [= _ <-]. now split.
Qed.

Lemma joinLinks_on_world skel f modelID m i s r s' :
  sdf.Model.Links m = [] ->
  frame_on_world s skel f ->
  joinLinks skel modelID (mkModelInfo skel f) m i s = Some (r, s') ->
  frame_on_world s' skel f /\ models s' = models s.
Proof.
  intros Hnil Hfr. unfold SDFFeatures.joinLinks.
  destruct (sdf.Model.JointByIndex m i) as [j |].
  - unfold bind.
    destruct (FindOrConstructLink skel modelID m (sdf.Joint.ParentLinkName j) s)
      as [[parent s1] |] eqn:E1; [| discriminate].
    destruct (FindOrConstructLink_on_world _ _ _ _ _ _ _ _ Hfr
                (LinkByName_nil _ _ Hnil) E1) as (Hfr1 & Hm1).
    destruct (FindOrConstructLink skel modelID m (sdf.Joint.ChildLinkName j) s1)
      as [[child s2] |] eqn:E2; [| discriminate].
    destruct (FindOrConstructLink_on_world _ _ _ _ _ _ _ _ Hfr1
                (LinkByName_nil _ _ Hnil) E2) as (Hfr2 & Hm2).
    destruct (ConstructSdfJoint (mkModelInfo skel f) j parent child s2)
      as [[id s3] |] eqn:E3; [| discriminate].
    intros [= _ <-]. split.
    + exact (ConstructSdfJoint_on_world _ _ _ _ _ _ _ _ _ Hfr2 E3).
    + destruct (ConstructSdfJoint_frame _ _ _ _ _ _ _ E3) as (_ & -> & _).
      congruence.
  - unfold report, modify. intros [= _ <-]. now split.
Qed.

(** The Model Assembler: where the model frame hangs in the end. *)
Lemma ConstructSdfModel_frame worldID m s r s' :
  getNumBodyNodes (bodyNodes s) (length (skeletons s)) = 0 ->
  ConstructSdfModel worldID m s = Some (r, s') ->
  let skel := length (skeletons s) in
  let f := length (simpleFrames s) in
  r = ValidId (entityCount s) /\
  models s' !! entityCount s = Some (mkModelInfo skel f) /\
  match sdf.Model.Links m with
  | [] => frame_on_world s' skel f
  | l0 :: _ =>
      frame_on_first_body s' skel f (length (bodyNodes s)) (sdf.Link.Name l0)
  end.
Proof.
  intros H0. unfold SDFFeatures.ConstructSdfModel.
  cbv [Skeleton_create SimpleFrame_createShared AddModel GetNextEntity
       setMobile setSelfCollisionCheck].
  cbv [bind get modify ret fst snd].
  cbn [bodyNodes simpleFrames shapeNodes skeletons worlds models links joints
       shapes entityCount cerr
       set_bodyNodes set_simpleFrames set_shapeNodes set_skeletons set_worlds
       set_models set_links set_joints set_shapes set_entityCount set_cerr].
  set (skel := length (skeletons s)).
  set (f := length (simpleFrames s)).
  set (mi := mkModelInfo skel f).
  match goal with
  | |- context [forEach (seq 0 (sdf.Model.LinkCount m)) ?body ?s0] =>
      set (links_body := body); set (st0 := s0)
  end.
  assert (Hm0 : models st0 !! entityCount s = Some mi)
    by (unfold st0; cbn; apply lookup_insert_eq).
  assert (Hw0 : frame_on_world st0 skel f).
  { split; [| exact H0].
    exists (mkSimpleFrame (sdf.Model.Name m +:+ "_frame") None
                          (sdf.Model.Pose m)).
    split; [| reflexivity]. unfold st0. cbn. now apply list_lookup_middle. }
  destruct (forEach (seq 0 (sdf.Model.LinkCount m)) links_body st0)
    as [[u s1] |] eqn:E1; [| discriminate].
  destruct (forEach (seq 0 (sdf.Model.JointCount m))
                    (joinLinks skel (entityCount s) mi m) s1)
    as [[u2 s2] |] eqn:E2; [| discriminate].
  intros [= <- <-]. split; [reflexivity |].
  unfold sdf.Model.LinkCount in E1.
  destruct (sdf.Model.Links m) as [| l0 rest] eqn:EL.
  - cbn in E1. injection E1 as _ <-.
    set (I := fun st : Base =>
                frame_on_world st skel f /\
                models st !! entityCount s = Some mi).
    assert (H2 : I s2).
    { apply (forEach_invariant I (seq 0 (sdf.Model.JointCount m))
                               (joinLinks skel (entityCount s) mi m))
        with (s := st0) (r := u2); [| now split | assumption].
      intros i st r0 st' [Hfr Hmi] E.
      destruct (joinLinks_on_world _ _ _ _ _ _ _ _ EL Hfr E) as (? & Hmod).
      split; [assumption | now rewrite Hmod]. }
    destruct H2. now split.
  - cbn [length seq forEach] in E1. unfold bind in E1.
    destruct (links_body 0 st0) as [[u0 st1] |] eqn:E0; [| discriminate].
    set (I := fun st : Base =>
                frame_on_first_body st skel f (length (bodyNodes s))
                                    (sdf.Link.Name l0) /\
                models st !! entityCount s = Some mi).
    assert (HI1 : I st1).
    { unfold links_body, sdf.Model.LinkByIndex in E0. rewrite EL in E0.
      cbv [deref ret lookup list_lookup] in E0.
      destruct (FindOrConstructLink skel (entityCount s) m (sdf.Link.Name l0) st0)
        as [[b st1'] |] eqn:E; [| discriminate].
      injection E0 as _ <-. split.
      - exact (FindOrConstructLink_first _ _ _ _ _ _ _ _ _ Hm0 Hw0
                 (LinkByName_head _ _ _ EL) E).
      - destruct (FindOrConstructLink_inv jointTransform _ _ _ _ _ _ _ _ Hm0 E)
          as (_ & ->). exact Hm0. }
    assert (H1 : I s1).
    { apply (forEach_invariant I (seq 1 (length rest)) links_body)
        with (s := st1) (r := u); [| assumption | assumption].
      intros i st r0 st' [Hfr Hmi]. unfold links_body.
      destruct (sdf.Model.LinkByIndex m i) as [l |]; cbv [deref ret throw];
        [| discriminate].
      destruct (FindOrConstructLink skel (entityCount s) m (sdf.Link.Name l) st)
        as [[b st1'] |] eqn:E; [| discriminate].
      intros [= _ <-]. split.
      - exact (FindOrConstructLink_on_first_body _ _ _ _ _ _ _ _ _ _ Hmi Hfr E).
      - destruct (FindOrConstructLink_inv jointTransform _ _ _ _ _ _ _ _ Hmi E)
          as (_ & ->). exact Hmi. }
    assert (H2 : I s2).
    { apply (forEach_invariant I (seq 0 (sdf.Model.JointCount m))
                               (joinLinks skel (entityCount s) mi m))
        with (s := s1) (r := u2); [| assumption | assumption].
      intros i st r0 st' [Hfr Hmi] E.
      exact (joinLinks_on_first_body _ _ _ _ _ _ _ _ _ _ Hmi Hfr E). }
    destruct H2. now split.
Qed.

(** The Model Assembler returns on a model without joints. *)
Lemma ConstructSdfModel_total worldID m s :
  sdf.Model.Joints m = [] ->
  exists r s', ConstructSdfModel worldID m s = Some (r, s').
Proof.
  intros HJ. unfold SDFFeatures.ConstructSdfModel.
  cbv [Skeleton_create SimpleFrame_createShared AddModel GetNextEntity
       setMobile setSelfCollisionCheck].
  cbv [bind get modify ret fst snd].
  cbn [bodyNodes simpleFrames shapeNodes skeletons worlds models links joints
       shapes entityCount cerr
       set_bodyNodes set_simpleFrames set_shapeNodes set_skeletons set_worlds
       set_models set_links set_joints set_shapes set_entityCount set_cerr].
  set (skel := length (skeletons s)).
  set (mi := mkModelInfo skel (length (simpleFrames s))).
  match goal with
  | |- context [forEach (seq 0 (sdf.Model.LinkCount m)) ?body ?s0] =>
      set (links_body := body); set (st0 := s0)
  end.
  destruct (forEach_total
              (fun st => models st !! entityCount s = Some mi)
              (seq 0 (sdf.Model.LinkCount m)) links_body) with (s := st0)
    as (s1 & E1 & _).
  - intros i st Hi Hmi. unfold links_body.
    apply elem_of_seq in Hi as [_ Hi].
    destruct (lookup_lt_is_Some_2 (sdf.Model.Links m) i Hi) as [l Hl].
    unfold sdf.Model.LinkByIndex. rewrite Hl. cbv [deref ret].
    destruct (FindOrConstructLink_total jointTransform skel (entityCount s) m
                (sdf.Link.Name l) st mi Hmi) as (b & st' & E).
    rewrite E. exists st'. split; [reflexivity |].
    destruct (FindOrConstructLink_inv jointTransform _ _ _ _ _ _ _ _ Hmi E)
      as (_ & ->). exact Hmi.
  - unfold st0. cbn. apply lookup_insert_eq.
  - rewrite E1. unfold sdf.Model.JointCount. rewrite HJ. cbn. eauto.
Qed.

(** C6. When the Link Builder adds the first body of a skeleton, the
    model frame is moved from where it hangs onto that body, and its world
    transform after the move is its world transform before; when the
    skeleton has a body already, the Link Builder leaves the frames alone.
    After the Model Assembler has run on a fresh skeleton, the model frame
    hangs on the world if the model declares no link, and otherwise on the
    body built for the first declared link, which is the first body of the
    skeleton in the table. *)
Theorem model_frame_parent :
  (forall modelID l s mi sf,
     models s !! modelID = Some mi ->
     simpleFrames s !! frame mi = Some sf ->
     getNumBodyNodes (bodyNodes s) (model mi) = 0 ->
     tree (bodyNodes s) ->
     (forall p, parentFrame sf = Some p -> p < length (bodyNodes s)) ->
     isometry (sdf.Link.Pose l) ->
     isometry (SimpleFrame_getWorldTransform s (frame mi)) ->
     exists s' sf',
       ConstructSdfLink modelID l s = Some (ValidId (entityCount s), s') /\
       simpleFrames s' !! frame mi = Some sf' /\
       parentFrame sf' = Some (length (bodyNodes s)) /\
       length (bodyNodes s') = S (length (bodyNodes s)) /\
       SimpleFrame_getWorldTransform s' (frame mi)
         = SimpleFrame_getWorldTransform s (frame mi)) /\
  (forall modelID l s mi,
     models s !! modelID = Some mi ->
     getNumBodyNodes (bodyNodes s) (model mi) <> 0 ->
     exists s',
       ConstructSdfLink modelID l s = Some (ValidId (entityCount s), s') /\
       simpleFrames s' = simpleFrames s) /\
  (forall worldID m s r s',
     getNumBodyNodes (bodyNodes s) (length (skeletons s)) = 0 ->
     ConstructSdfModel worldID m s = Some (r, s') ->
     let skel := length (skeletons s) in
     let f := length (simpleFrames s) in
     models s' !! entityCount s = Some (mkModelInfo skel f) /\
     match sdf.Model.Links m with
     | [] => frame_on_world s' skel f
     | l0 :: _ =>
         frame_on_first_body s' skel f (length (bodyNodes s))
                             (sdf.Link.Name l0)
     end).
Proof.
  split_and!.
  - intros modelID l s mi sf Hm Hf H0 Ht Hp Hpose Hframe.
    destruct (ConstructSdfLink_first modelID l s mi sf Hm Hf H0)
      as (s' & bn & sf' & Hrun & Hbs & _ & _ & Hsf' & Hpar & Hkeep).
    exists s', sf'. split_and!; try assumption.
    + rewrite Hbs, length_app. cbn. lia.
    + now apply Hkeep.
  - intros modelID l s mi Hm H0.
    destruct (ConstructSdfLink_later modelID l s mi Hm H0)
      as (s' & bn & Hrun & _ & _ & _ & Hfs).
    now exists s'.
  - intros worldID m s r s' H0 H.
    destruct (ConstructSdfModel_frame worldID m s r s' H0 H) as (_ & Hm & Hfr).
    now split.
Qed.

End ModelFrame.

(** *** The model frame on concrete scenes *)

Lemma model_frame_parent_witness :
  (exists s' sf',
     ConstructSdfLink example_jointTransform 0
                      (example_link "base" (mkT MIdentity (mkV 1 0 0)))
                      example_fresh_state
       = Some (ValidId (entityCount example_fresh_state), s') /\
     simpleFrames s' !! 0 = Some sf' /\
     parentFrame sf' = Some 0 /\
     length (bodyNodes s') = 1 /\
     SimpleFrame_getWorldTransform example_jointTransform s' 0
       = SimpleFrame_getWorldTransform example_jointTransform
                                       example_fresh_state 0) /\
  (exists r s',
     ConstructSdfModel example_jointTransform 0 example_jointless_model
                       emptyBase = Some (r, s') /\
     models s' !! 0 = Some (mkModelInfo 0 0) /\
     frame_on_first_body s' 0 0 0 "base").
Proof.
  split.
  - apply (proj1 (model_frame_parent example_jointTransform) 0
             (example_link "base" (mkT MIdentity (mkV 1 0 0)))
             example_fresh_state (mkModelInfo 0 0)
             (mkSimpleFrame "model_frame" None (mkT MIdentity (mkV 0 0 2)))).
    + reflexivity.
    + reflexivity.
    + reflexivity.
    + apply tree_of_roots. intros b. reflexivity.
    + discriminate.
    + apply isometry_translation.
    + apply isometry_compose;
        [apply isometry_Identity | apply isometry_translation].
  - destruct (ConstructSdfModel_total example_jointTransform 0
                example_jointless_model emptyBase eq_refl) as (r & s' & E).
    exists r, s'. split; [exact E |].
    exact (proj2 (proj2 (model_frame_parent example_jointTransform))
             0 example_jointless_model emptyBase r s' eq_refl E).
Defined.

(* ================================================================== *)
(** * Part IV: further properties of the builders                     *)
(* ================================================================== *)

(** ** Geometry Builder: where the corrective rotation of a plane points *)
Section PlaneDirection.
Local Open Scope R_scope.

(** The cross product of the up axis with a unit normal, and the sine and
    cosine of the angle that [ConstructPlane] computes from it. *)
Lemma plane_trigonometry (n : Vector3d) (size : R * R) :
  norm n = 1 ->
  let _plane := sdf.Plane.mk n size in
  plane_axis _plane = mkV (- vy n) (vx n) 0 /\
  plane_norm _plane * plane_norm _plane = vx n * vx n + vy n * vy n /\
  0 <= plane_norm _plane /\
  plane_angle _plane = asin (plane_norm _plane) /\
  sin (plane_angle _plane) = plane_norm _plane /\
  cos (plane_angle _plane) = Rabs (vz n).
Proof.
  intros Hn _plane. destruct n as [x y z].
  assert (Hsq : x * x + y * y + z * z = 1).
  { unfold norm, squaredNorm in Hn. cbn [vx vy vz] in Hn.
    assert (H0 : 0 <= x * x + y * y + z * z) by nra.
    rewrite <- (sqrt_sqrt _ H0), Hn. ring. }
  assert (Hax : plane_axis _plane = mkV (- y) x 0).
  { unfold plane_axis, cross, UnitZ. cbn. f_equal; ring. }
  assert (Hs0 : 0 <= plane_norm _plane) by apply sqrt_pos.
  assert (Hs2 : plane_norm _plane * plane_norm _plane = x * x + y * y).
  { unfold plane_norm. rewrite Hax. unfold norm, squaredNorm. cbn [vx vy vz].
    rewrite sqrt_sqrt by nra. ring. }
  assert (Hs1 : -1 <= plane_norm _plane <= 1) by nra.
  assert (Hang : plane_angle _plane = asin (plane_norm _plane)).
  { unfold plane_angle. cbn [sdf.Plane.Normal _plane]. rewrite Hn.
    f_equal. field. }
  cbn [vx vy vz]. split_and!; try assumption.
  - rewrite Hang. now apply sin_asin.
  - rewrite Hang, cos_asin by assumption.
    replace (1 - (plane_norm _plane)²) with (z²) by (unfold Rsqr; nra).
    apply sqrt_Rsqr_abs.
Qed.

(** X1. For a plane with a unit normal [n] that is rotated at all, the
    corrective rotation turns the up axis of the thin box onto
    [(n.x, n.y, |n.z|)] and does not translate: onto the normal itself
    when the normal points upwards or sideways, onto its mirror image
    in the horizontal plane when it points downwards. *)
Theorem plane_rotation_direction (n : Vector3d) (size : R * R) (aa : AngleAxisd) :
  norm n = 1 ->
  plane_rotation (sdf.Plane.mk n size) = Some aa ->
  let tf := st_tf (ConstructPlane (sdf.Plane.mk n size)) in
  mvmul (linear tf) UnitZ = mkV (vx n) (vy n) (Rabs (vz n)) /\
  translation tf = Zero3 /\
  (0 <= vz n -> mvmul (linear tf) UnitZ = n) /\
  (vz n < 0 -> mvmul (linear tf) UnitZ = mkV (vx n) (vy n) (- vz n)).
Proof.
  intros Hn Hrot tf.
  destruct (plane_trigonometry n size Hn) as (Hax & Hs2 & Hs0 & Hang & Hsin & Hcos).
  assert (Hdir : mvmul (linear tf) UnitZ = mkV (vx n) (vy n) (Rabs (vz n))).
  { unfold tf, ConstructPlane. rewrite Hrot.
    unfold plane_rotation in Hrot.
    destruct (Rgt_dec (plane_angle (sdf.Plane.mk n size)) (1 / 10 ^ 12))
      as [Hgt | _]; [| discriminate].
    injection Hrot as <-.
    assert (Hs : plane_norm (sdf.Plane.mk n size) <> 0).
    { intros H0. rewrite Hang, H0, asin_0 in Hgt.
      pose proof tolerance_pos. lra. }
    cbn [st_tf rotate linear Isometry3d_Identity]. rewrite mmul_id_l.
    unfold toRotationMatrix, mvmul, UnitZ, vscale, vdiv.
    cbn [angle axis vx vy vz m00 m01 m02 m10 m11 m12 m20 m21 m22].
    rewrite Hsin, Hcos, Hax. cbn [vx vy vz].
    f_equal; field; exact Hs. }
  split_and!.
  - exact Hdir.
  - unfold tf, ConstructPlane. now destruct (plane_rotation _).
  - intros Hz. rewrite Hdir, Rabs_right by lra. now destruct n.
  - intros Hz. rewrite Hdir, Rabs_left by lra. reflexivity.
Qed.

Lemma plane_rotation_direction_witness :
  let n := mkV 1 0 0 in
  let _plane := sdf.Plane.mk n (1, 1) in
  let tf := st_tf (ConstructPlane _plane) in
  mvmul (linear tf) UnitZ = mkV (vx n) (vy n) (Rabs (vz n)) /\
  translation tf = Zero3 /\
  (0 <= vz n -> mvmul (linear tf) UnitZ = n) /\
  (vz n < 0 -> mvmul (linear tf) UnitZ = mkV (vx n) (vy n) (- vz n)).
Proof.
  intros n _plane.
  apply (plane_rotation_direction n (1, 1)
           (mkAA (plane_angle _plane)
                 (vdiv (plane_axis _plane) (plane_norm _plane)))).
  - unfold norm, squaredNorm, n. cbn [vx vy vz].
    replace (1 * 1 + 0 * 0 + 0 * 0) with 1 by ring. apply sqrt_1.
  - apply plane_rotation_sideways.
Defined.

End PlaneDirection.

(** ** Link Builder: the inertia of a body *)
Section LinkInertia.
Local Open Scope R_scope.

(** The inverse of a rotation matrix, computed as the adjugate over the
    determinant, is its transpose. *)
Lemma minverse_rotation (M : Matrix3d) :
  is_rotation M -> minverse M = transpose M.
Proof.
  destruct M as [a b c d e f g h i].
  unfold is_rotation, orthogonal, minverse.
  unfold determinant, mmul, transpose, MIdentity. simpl.
  intros [H D]. injection H; clear H; intros.
  assert (a = e * i - f * h) by nsatz.
  assert (b = f * g - d * i) by nsatz.
  assert (c = d * h - e * g) by nsatz.
  assert (d = c * h - b * i) by nsatz.
  assert (e = a * i - c * g) by nsatz.
  assert (f = b * g - a * h) by nsatz.
  assert (g = b * f - c * e) by nsatz.
  assert (h = c * d - a * f) by nsatz.
  assert (i = a * e - b * d) by nsatz.
  rewrite D. f_equal; lra.
Qed.

Lemma transpose_mmul3 A B C :
  transpose (mmul (mmul A B) C)
    = mmul (mmul (transpose C) (transpose B)) (transpose A).
Proof.
  destruct A, B, C. unfold transpose, mmul; simpl. f_equal; ring.
Qed.

End LinkInertia.

(** ** Geometry Builder and the shapes of a link *)
Section Shapes.

Ltac run_shapes :=
  cbv [bind ret get modify report deref throw
       createShapeNodeWith ShapeNode_setRelativeTransform ShapeNode_setColor
       AddShape GetNextEntity GenerateIdentity GenerateInvalidId].

Ltac shape_fields :=
  cbn [bodyNodes simpleFrames shapeNodes skeletons worlds models links joints
       shapes entityCount cerr
       set_bodyNodes set_simpleFrames set_shapeNodes set_skeletons set_worlds
       set_models set_links set_joints set_shapes set_entityCount set_cerr].

(** A geometry that yields a shape leaves the state as it is. *)
Lemma ConstructGeometry_shape g s st s1 sh :
  ConstructGeometry g s = Some (st, s1) -> st_shape st = Some sh -> s1 = s.
Proof.
  unfold ConstructGeometry, ConstructMesh.
  destruct (sdf.Geometry.BoxShape g) as [b |];
    [| destruct (sdf.Geometry.CylinderShape g) as [c |];
       [| destruct (sdf.Geometry.SphereShape g) as [sp |];
          [| destruct (sdf.Geometry.PlaneShape g) as [p |];
             [| destruct (sdf.Geometry.MeshShape g) as [mesh |]]]]];
    run_shapes; intros Hg Hsh; simplify_eq; try reflexivity;
    cbn in Hsh; discriminate.
Qed.

(** X2. The Geometry Builder always returns.  It yields no shape exactly
    when the geometry declares neither a box, a cylinder, a sphere nor a
    plane; a declared mesh is never built, and it is the only case that
    reports.  Of several declared shapes the first in the order box,
    cylinder, sphere, plane wins, and only a plane gets a transform other
    than the identity. *)
Theorem geometry_dispatch (g : sdf.Geometry.t) (s : Base) :
  exists st s',
    ConstructGeometry g s = Some (st, s') /\
    (st_shape st = None <->
       sdf.Geometry.BoxShape g = None /\ sdf.Geometry.CylinderShape g = None /\
       sdf.Geometry.SphereShape g = None /\ sdf.Geometry.PlaneShape g = None) /\
    (st_shape st <> None \/ sdf.Geometry.MeshShape g = None -> s' = s) /\
    (st_shape st = None -> sdf.Geometry.MeshShape g <> None ->
     exists msg, s' = set_cerr (cons msg) s) /\
    (forall b, sdf.Geometry.BoxShape g = Some b -> st = ConstructBox b) /\
    (sdf.Geometry.BoxShape g = None ->
     forall c, sdf.Geometry.CylinderShape g = Some c ->
               st = ConstructCylinder c) /\
    (sdf.Geometry.BoxShape g = None -> sdf.Geometry.CylinderShape g = None ->
     forall sp, sdf.Geometry.SphereShape g = Some sp ->
                st = ConstructSphere sp) /\
    (sdf.Geometry.BoxShape g = None -> sdf.Geometry.CylinderShape g = None ->
     sdf.Geometry.SphereShape g = None ->
     forall p, sdf.Geometry.PlaneShape g = Some p -> st = ConstructPlane p) /\
    (sdf.Geometry.PlaneShape g = None -> st_tf st = Isometry3d_Identity).
Proof.
  unfold ConstructGeometry, ConstructMesh.
  destruct (sdf.Geometry.BoxShape g) as [b |];
    [| destruct (sdf.Geometry.CylinderShape g) as [c |];
       [| destruct (sdf.Geometry.SphereShape g) as [sp |];
          [| destruct (sdf.Geometry.PlaneShape g) as [p |];
             [| destruct (sdf.Geometry.MeshShape g) as [mesh |]]]]];
    run_shapes; do 2 eexists; (split; [reflexivity |]);
    cbn [st_shape st_tf ConstructBox ConstructCylinder ConstructSphere
         ConstructPlane];
    split_and!; try (intros; congruence); try reflexivity;
    try (intros; simplify_eq; reflexivity);
    try (split; [intros; discriminate | intros (? & ? & ? & ?); discriminate]);
    try (intros [? | ?]; [congruence | reflexivity || discriminate]);
    try (split; [intros _; split_and!; reflexivity | reflexivity]);
    try (intros; eexists; reflexivity).
Qed.

(** X3. The construction of a collision shape.  Without a geometry
    element it reports and returns the invalid handle; with a geometry
    that yields no shape it returns the invalid handle and creates
    nothing; with a shape but a link id that the registry does not hold
    it does not return.  Otherwise it appends one shape node to the
    engine's table: owned by the body of the link, named
    [<body>_collision_<name>], with the collision aspect, no colour, and
    the pose of the collision composed with the transform of the shape as
    relative transform.  The node is registered under the next entity id,
    which is returned, and bodies, frames and the other registries are
    untouched. *)
Theorem collision_shape_node (linkID : nat) (col : sdf.Collision.t) (s : Base) :
  (sdf.Collision.Geom col = None ->
   exists msg,
     ConstructSdfCollision linkID col s
       = Some (InvalidId, set_cerr (cons msg) s)) /\
  (forall geom st s1,
     sdf.Collision.Geom col = Some geom ->
     ConstructGeometry geom s = Some (st, s1) ->
     st_shape st = None ->
     ConstructSdfCollision linkID col s = Some (InvalidId, s1)) /\
  (forall geom st s1 sh,
     sdf.Collision.Geom col = Some geom ->
     ConstructGeometry geom s = Some (st, s1) ->
     st_shape st = Some sh ->
     links s !! linkID = None ->
     ConstructSdfCollision linkID col s = None) /\
  (forall geom st s1 sh bn,
     sdf.Collision.Geom col = Some geom ->
     ConstructGeometry geom s = Some (st, s1) ->
     st_shape st = Some sh ->
     links s !! linkID = Some bn ->
     exists s',
       ConstructSdfCollision linkID col s
         = Some (ValidId (entityCount s), s') /\
       shapeNodes s' =
         shapeNodes s ++
         [mkShapeNode bn
            (getName (bodyNodes s) bn +:+ "_collision_"
             +:+ sdf.Collision.Name col)
            sh CollisionAspect
            (compose (sdf.Collision.Pose col) (st_tf st)) None] /\
       shapes s' =
         <[entityCount s := mkShapeInfo (length (shapeNodes s)) (st_tf st)]>
           (shapes s) /\
       entityCount s' = S (entityCount s) /\
       cerr s' = cerr s /\
       same_bodies s s').
Proof.
  unfold SDFFeatures.ConstructSdfCollision. split_and!.
  - intros ->. run_shapes. eexists. reflexivity.
  - intros geom st s1 -> Hg Hsh. unfold bind at 1. rewrite Hg, Hsh.
    reflexivity.
  - intros geom st s1 sh -> Hg Hsh Hl. unfold bind at 1. rewrite Hg, Hsh.
    rewrite (ConstructGeometry_shape _ _ _ _ _ Hg Hsh).
    run_shapes. now rewrite Hl.
  - intros geom st s1 sh bn -> Hg Hsh Hl. unfold bind at 1. rewrite Hg, Hsh.
    rewrite (ConstructGeometry_shape _ _ _ _ _ Hg Hsh).
    run_shapes. rewrite Hl. shape_fields.
    eexists. split; [reflexivity |]. shape_fields.
    rewrite alter_last. split_and!; try reflexivity.
    repeat split.
Qed.

(** X4. The construction of a visual shape follows that of a collision
    shape, with the visual aspect and the name [<body>_visual_<name>];
    the node carries the ambient colour of the material when the visual
    declares one, and no colour otherwise. *)
Theorem visual_shape_node (linkID : nat) (vis : sdf.Visual.t) (s : Base) :
  (sdf.Visual.Geom vis = None ->
   exists msg,
     ConstructSdfVisual linkID vis s
       = Some (InvalidId, set_cerr (cons msg) s)) /\
  (forall geom st s1,
     sdf.Visual.Geom vis = Some geom ->
     ConstructGeometry geom s = Some (st, s1) ->
     st_shape st = None ->
     ConstructSdfVisual linkID vis s = Some (InvalidId, s1)) /\
  (forall geom st s1 sh,
     sdf.Visual.Geom vis = Some geom ->
     ConstructGeometry geom s = Some (st, s1) ->
     st_shape st = Some sh ->
     links s !! linkID = None ->
     ConstructSdfVisual linkID vis s = None) /\
  (forall geom st s1 sh bn,
     sdf.Visual.Geom vis = Some geom ->
     ConstructGeometry geom s = Some (st, s1) ->
     st_shape st = Some sh ->
     links s !! linkID = Some bn ->
     exists s',
       ConstructSdfVisual linkID vis s
         = Some (ValidId (entityCount s), s') /\
       shapeNodes s' =
         shapeNodes s ++
         [mkShapeNode bn
            (getName (bodyNodes s) bn +:+ "_visual_" +:+ sdf.Visual.Name vis)
            sh VisualAspect
            (compose (sdf.Visual.Pose vis) (st_tf st))
            (sdf.Material.Ambient <$> sdf.Visual.Material vis)] /\
       shapes s' =
         <[entityCount s := mkShapeInfo (length (shapeNodes s)) (st_tf st)]>
           (shapes s) /\
       entityCount s' = S (entityCount s) /\
       cerr s' = cerr s /\
       same_bodies s s').
Proof.
  unfold SDFFeatures.ConstructSdfVisual. split_and!.
  - intros ->. run_shapes. eexists. reflexivity.
  - intros geom st s1 -> Hg Hsh. unfold bind at 1. rewrite Hg, Hsh.
    reflexivity.
  - intros geom st s1 sh -> Hg Hsh Hl. unfold bind at 1. rewrite Hg, Hsh.
    rewrite (ConstructGeometry_shape _ _ _ _ _ Hg Hsh).
    run_shapes. now rewrite Hl.
  - intros geom st s1 sh bn -> Hg Hsh Hl. unfold bind at 1. rewrite Hg, Hsh.
    rewrite (ConstructGeometry_shape _ _ _ _ _ Hg Hsh).
    run_shapes. rewrite Hl. shape_fields.
    destruct (sdf.Visual.Material vis) as [material |];
      (eexists; split; [reflexivity |]); shape_fields;
      rewrite ?alter_alter, alter_last; split_and!; try reflexivity;
      repeat split.
Qed.

End Shapes.

(** ** Link Builder: the body that it makes *)
Section LinkBody.

Variable jointTransform : JointKind -> Properties -> list float -> Isometry3d.

Local Abbreviation getWorldTransform :=
  (SDFFeatures.getWorldTransform jointTransform).
Local Abbreviation SimpleFrame_getWorldTransform :=
  (SDFFeatures.SimpleFrame_getWorldTransform jointTransform).
Local Abbreviation ConstructSdfLink :=
  (SDFFeatures.ConstructSdfLink jointTransform).

(** X5. The Link Builder on a registered model always returns.  It
    appends one body to the table: named after the link, in the skeleton
    of the model, attached to the world by a free joint named
    [<link>_FreeJoint].  The body is registered as a link under the next
    entity id, which is returned, and its joint under the id after that.
    The world transform of the new body is the pose of the link, taken in
    the model frame when the link names no reference frame, and in the
    world frame otherwise.  The bodies that were there keep their world
    transforms. *)
Theorem link_body_placement modelID l s mi sf :
  models s !! modelID = Some mi ->
  simpleFrames s !! frame mi = Some sf ->
  tree (bodyNodes s) ->
  (forall p, parentFrame sf = Some p -> p < length (bodyNodes s)) ->
  exists s' bn,
    ConstructSdfLink modelID l s = Some (ValidId (entityCount s), s') /\
    bodyNodes s' = bodyNodes s ++ [bn] /\
    bodyName bn = sdf.Link.Name l /\
    bodySkeleton bn = model mi /\
    parentBodyNode bn = None /\
    jointKind (parentJoint bn) = FreeJoint /\
    jointName (parentJoint bn) = sdf.Link.Name l +:+ "_FreeJoint" /\
    links s' !! entityCount s = Some (length (bodyNodes s)) /\
    joints s' !! S (entityCount s) = Some (length (bodyNodes s)) /\
    getWorldTransform (bodyNodes s') (length (bodyNodes s)) =
      compose (if decide (sdf.Link.PoseFrame l = "")
               then SimpleFrame_getWorldTransform s (frame mi)
               else Isometry3d_Identity)
              (sdf.Link.Pose l) /\
    (forall b, b < length (bodyNodes s) ->
               getWorldTransform (bodyNodes s') b
                 = getWorldTransform (bodyNodes s) b).
Proof.
  intros Hm Hf Ht Hp.
  destruct (ConstructSdfLink_run jointTransform modelID l s mi Hm)
    as (s' & Hrun & Hbs & _ & _ & _ & _ & Hlinks & Hjoints).
  eexists s', _. split; [exact Hrun |]. split; [exact Hbs |].
  split_and!; try reflexivity.
  - rewrite Hlinks. apply lookup_insert_eq.
  - rewrite Hjoints. apply lookup_insert_eq.
  - rewrite Hbs, getWorldTransform_last by reflexivity.
    unfold SDFFeatures.getRelativeTransform, freeBody,
      SDFFeatures.jointRelativeTransform.
    cbn [parentJoint mPositions mT_ParentBodyToJoint mT_ChildBodyToJoint].
    rewrite (SimpleFrame_getWorldTransform_app jointTransform s _ (frame mi)
               sf Ht Hf Hp).
    now rewrite !inverse_Identity, !compose_id_l, !compose_id_r.
  - intros b Hb. rewrite Hbs. now apply getWorldTransform_app.
Qed.

(** X6. The inertia of the body that the Link Builder makes: the mass and
    the centre of mass are those of the link.  When the orientation of
    the inertial frame is a rotation [R], the moment of inertia is
    [R * Moi * R^T], and it is symmetric when the declared [Moi] is. *)
Theorem link_body_inertia modelID l s mi :
  models s !! modelID = Some mi ->
  is_rotation (sdf.Inertial.PoseRot (sdf.Link.Inertial l)) ->
  exists s' bn,
    ConstructSdfLink modelID l s = Some (ValidId (entityCount s), s') /\
    bodyNodes s' !! length (bodyNodes s) = Some bn /\
    mMass (mInertia bn) = sdf.Inertial.Mass (sdf.Link.Inertial l) /\
    mLocalCOM (mInertia bn) = sdf.Inertial.PosePos (sdf.Link.Inertial l) /\
    (let R_inertial := sdf.Inertial.PoseRot (sdf.Link.Inertial l) in
     let Moi := sdf.Inertial.Moi (sdf.Link.Inertial l) in
     mMoment (mInertia bn) = mmul (mmul R_inertial Moi) (transpose R_inertial) /\
     (transpose Moi = Moi ->
      transpose (mMoment (mInertia bn)) = mMoment (mInertia bn))).
Proof.
  intros Hm HR.
  destruct (ConstructSdfLink_run jointTransform modelID l s mi Hm)
    as (s' & Hrun & Hbs & _).
  eexists s', _. split; [exact Hrun |].
  split; [rewrite Hbs; now apply list_lookup_middle |].
  cbn [freeBody mInertia linkInertia mMass mLocalCOM mMoment].
  rewrite (minverse_rotation _ HR).
  split_and!; try reflexivity.
  intros Hsym. now rewrite transpose_mmul3, transpose_involutive, Hsym.
Qed.

End LinkBody.

(** ** Joint Builder: the outcomes by joint type *)
Section JointOutcomes.

Variable jointTransform : JointKind -> Properties -> list float -> Isometry3d.

Local Abbreviation getWorldTransform :=
  (SDFFeatures.getWorldTransform jointTransform).
Local Abbreviation GetParentModelFrame :=
  (SDFFeatures.GetParentModelFrame jointTransform).
Local Abbreviation ConstructSdfJoint :=
  (SDFFeatures.ConstructSdfJoint jointTransform).
Local Abbreviation createJointOfType :=
  (SDFFeatures.createJointOfType jointTransform).
Local Abbreviation ConstructSdfJoint_byName :=
  (SDFFeatures.ConstructSdfJoint_byName jointTransform).

Ltac run_joint :=
  unfold SDFFeatures.ConstructSdfJoint;
  cbv [bind ret get modify report SDFFeatures.ResolveSdfJointReferenceFrame].

(** A joint type that the dispatch does not know: the builder reports and
    returns the invalid handle. *)
Lemma ConstructSdfJoint_unsupported mi j p c s :
  descendsFrom (bodyNodes s) p c = false ->
  jointKindOf (sdf.Joint.Type_ j) = None ->
  exists s' msg older,
    ConstructSdfJoint mi j (Some p) (Some c) s = Some (InvalidId, s') /\
    cerr s' = msg :: older /\ only_reports s s'.
Proof.
  intros Hd Hk. run_joint. rewrite Hd.
  case_decide;
    match goal with
    | |- context [createJointOfType _ _ _ _ ?T ?s0] =>
        destruct (createJointOfType_unsupported jointTransform mi j p c
                    T s0 Hk) as (msg & ->)
    end;
    do 3 eexists; (split; [reflexivity |]); (split; [reflexivity |]).
  - now exists [msg].
  - now eexists [msg; _].
Qed.

(** A supported joint type whose axis is missing: the builder does not
    return. *)
Lemma ConstructSdfJoint_null_axis mi j p c s k :
  descendsFrom (bodyNodes s) p c = false ->
  jointKindOf (sdf.Joint.Type_ j) = Some k ->
  (forall T_joint,
     jointPropertiesOf (GetParentModelFrame s mi) j T_joint = None) ->
  ConstructSdfJoint mi j (Some p) (Some c) s = None.
Proof.
  intros Hd Hk Hp. run_joint. rewrite Hd.
  case_decide;
    match goal with
    | |- context [createJointOfType _ _ _ _ ?T ?s0] =>
        rewrite (createJointOfType_null_axis jointTransform mi j p c T s0 k
                   Hk (Hp T))
    end; reflexivity.
Qed.

(** The body of the child after a joint was built. *)
Lemma ConstructSdfJoint_built mi j p c s k props bn :
  descendsFrom (bodyNodes s) p c = false ->
  bodyNodes s !! c = Some bn ->
  jointKindOf (sdf.Joint.Type_ j) = Some k ->
  jointPropertiesOf
    (GetParentModelFrame s mi) j
    (compose (if decide (sdf.Joint.PoseFrame j = "")
              then getWorldTransform (bodyNodes s) c
              else Isometry3d_Identity)
             (sdf.Joint.Pose j)) = Some props ->
  exists s' bn',
    ConstructSdfJoint mi j (Some p) (Some c) s
      = Some (ValidId (entityCount s), s') /\
    bodyNodes s' !! c = Some bn' /\
    bodyName bn' = bodyName bn /\
    bodySkeleton bn' = bodySkeleton bn /\
    mInertia bn' = mInertia bn /\
    parentBodyNode bn' = Some p /\
    jointKind (parentJoint bn') = k /\
    jointName (parentJoint bn') = sdf.Joint.Name j /\
    jointProperties (parentJoint bn') = props /\
    mPositions (parentJoint bn') = Coordinates (mInitialPositions props) /\
    (forall b, b <> c -> bodyNodes s' !! b = bodyNodes s !! b) /\
    length (bodyNodes s') = length (bodyNodes s) /\
    joints s' = <[entityCount s := c]> (joints s) /\
    entityCount s' = S (entityCount s) /\
    links s' = links s /\ models s' = models s /\
    simpleFrames s' = simpleFrames s /\ skeletons s' = skeletons s /\
    shapeNodes s' = shapeNodes s /\ shapes s' = shapes s.
Proof.
  intros Hd Hc Hk Hp.
  destruct (ConstructSdfJoint_run jointTransform mi j p c s k props Hd Hk Hp)
    as (s' & Hrun & Hbs & Hsf & Hsn & Hsk & _ & Hmod & Hl & Hj & Hsh & Hec).
  eexists s', _. split; [exact Hrun |].
  split; [rewrite Hbs; apply moved_lookup_eq; exact Hc |].
  cbn [movedBody builtJoint bodyName bodySkeleton mInertia parentBodyNode
       parentJoint jointKind jointName jointProperties mPositions].
  split_and!; try reflexivity; try assumption.
  - intros b Hb. rewrite Hbs. now apply list_lookup_alter_ne.
  - rewrite Hbs. apply length_alter.
Qed.

(** The handle of a joint that was made, and where it is registered. *)
Lemma joint_registration_fields mi j p c s id s' :
  ConstructSdfJoint mi j (Some p) (Some c) s = Some (ValidId id, s') ->
  id = entityCount s /\ joints s' = <[id := c]> (joints s).
Proof.
  intros H.
  destruct (ConstructSdfJoint_inv jointTransform _ _ _ _ _ _ _ H)
    as [(Hr & _) | (p' & c' & jt & id' & [= <-] & [= <-] & Hd & _)];
    [discriminate |].
  destruct (jointKindOf (sdf.Joint.Type_ j)) as [k |] eqn:Hk.
  2: { destruct (ConstructSdfJoint_unsupported mi j p c s Hd Hk)
         as (s1 & msg & older & Hrun & _).
       rewrite Hrun in H. discriminate. }
  destruct (jointPropertiesOf
              (GetParentModelFrame s mi) j
              (compose (if decide (sdf.Joint.PoseFrame j = "")
                        then getWorldTransform (bodyNodes s) c
                        else Isometry3d_Identity)
                       (sdf.Joint.Pose j))) as [props |] eqn:Hp.
  2: { exfalso. revert Hp H. run_joint. rewrite Hd.
       destruct (decide (sdf.Joint.PoseFrame j = "")); intros Hp;
         match goal with
         | |- context [createJointOfType _ _ _ _ ?T ?s0] =>
             rewrite (createJointOfType_null_axis jointTransform mi j p c T s0
                        k Hk Hp)
         end; discriminate. }
  destruct (ConstructSdfJoint_run jointTransform mi j p c s k props Hd Hk Hp)
    as (s1 & Hrun & _ & _ & _ & _ & _ & _ & _ & Hj & _).
  rewrite Hrun in H. injection H as <- <-. now split.
Qed.

(** X7. A joint of a type other than ball, fixed, prismatic, revolute,
    screw and universal, between two bodies that would not close a chain:
    the Joint Builder returns the invalid handle and reports; the child is
    not moved, no entity id is used and no registry changes. *)
Theorem unsupported_joint_type mi j p c s :
  descendsFrom (bodyNodes s) p c = false ->
  sdf.Joint.Type_ j = sdf.INVALID \/ sdf.Joint.Type_ j = sdf.CONTINUOUS \/
  sdf.Joint.Type_ j = sdf.GEARBOX \/ sdf.Joint.Type_ j = sdf.REVOLUTE2 ->
  exists s' msg older,
    ConstructSdfJoint mi j (Some p) (Some c) s = Some (InvalidId, s') /\
    cerr s' = msg :: older /\
    bodyNodes s' = bodyNodes s /\
    joints s' = joints s /\
    links s' = links s /\
    entityCount s' = entityCount s.
Proof.
  intros Hd Hty.
  assert (Hk : jointKindOf (sdf.Joint.Type_ j) = None)
    by (destruct Hty as [-> | [-> | [-> | ->]]]; reflexivity).
  destruct (ConstructSdfJoint_unsupported mi j p c s Hd Hk)
    as (s' & msg & older & Hrun & Hmsg & Hrep).
  apply only_reports_fields in Hrep
    as (Hb & _ & _ & _ & _ & _ & Hl & Hj & _ & He).
  now exists s', msg, older.
Qed.

(** X8. A prismatic, revolute or screw joint that declares no axis, or a
    universal joint that declares fewer than two, between two bodies that
    would not close a chain: the Joint Builder dereferences the missing
    axis and does not return. *)
Theorem joint_without_axis mi j p c s :
  descendsFrom (bodyNodes s) p c = false ->
  ((sdf.Joint.Type_ j = sdf.PRISMATIC \/ sdf.Joint.Type_ j = sdf.REVOLUTE \/
    sdf.Joint.Type_ j = sdf.SCREW) /\ sdf.Joint.Axis j 0 = None) \/
  (sdf.Joint.Type_ j = sdf.UNIVERSAL /\
   (sdf.Joint.Axis j 0 = None \/ sdf.Joint.Axis j 1 = None)) ->
  ConstructSdfJoint mi j (Some p) (Some c) s = None.
Proof.
  intros Hd Hty.
  assert (exists k, jointKindOf (sdf.Joint.Type_ j) = Some k) as [k Hk].
  { destruct Hty as [[[-> | [-> | ->]] _] | [-> _]]; eexists; reflexivity. }
  apply (ConstructSdfJoint_null_axis mi j p c s k Hd Hk).
  intros T. unfold jointPropertiesOf.
  destruct Hty as [[Hty H0] | [-> H01]].
  - unfold SingleAxisProperties.
    destruct Hty as [-> | [-> | ->]]; now rewrite H0.
  - unfold UniversalProperties. cbn [foldl].
    destruct H01 as [-> | H1]; [reflexivity |].
    rewrite H1. now destruct (sdf.Joint.Axis j 0).
Qed.

(** X9. Whenever the Joint Builder returns a valid handle, both bodies
    were given, the handle carries the next entity id, and the joint
    registry maps that id to the child.  The child is the only body that
    changes: it keeps its name, skeleton and inertia, hangs under the
    parent, and its joint carries the name that the description declares
    and the engine class of the declared type.  Links, models, frames,
    skeletons and shapes are as before. *)
Theorem joint_registration mi j parent child s id s' :
  ConstructSdfJoint mi j parent child s = Some (ValidId id, s') ->
  exists p c,
    parent = Some p /\ child = Some c /\
    id = entityCount s /\ entityCount s' = S (entityCount s) /\
    joints s' = <[id := c]> (joints s) /\
    links s' = links s /\ models s' = models s /\
    simpleFrames s' = simpleFrames s /\ skeletons s' = skeletons s /\
    shapeNodes s' = shapeNodes s /\ shapes s' = shapes s /\
    length (bodyNodes s') = length (bodyNodes s) /\
    (forall b, b <> c -> bodyNodes s' !! b = bodyNodes s !! b) /\
    (forall bn, bodyNodes s !! c = Some bn ->
       exists bn',
         bodyNodes s' !! c = Some bn' /\
         bodyName bn' = bodyName bn /\
         bodySkeleton bn' = bodySkeleton bn /\
         mInertia bn' = mInertia bn /\
         parentBodyNode bn' = Some p /\
         jointName (parentJoint bn') = sdf.Joint.Name j /\
         jointKindOf (sdf.Joint.Type_ j) = Some (jointKind (parentJoint bn'))).
Proof.
  intros H.
  destruct (ConstructSdfJoint_inv jointTransform _ _ _ _ _ _ _ H)
    as [(Hr & _) | (p & c & jt & id' & -> & -> & Hd & _ & Hbs & _)];
    [discriminate |].
  exists p, c. split; [reflexivity |]. split; [reflexivity |].
  destruct (jointKindOf (sdf.Joint.Type_ j)) as [k |] eqn:Hk.
  2: { destruct (ConstructSdfJoint_unsupported mi j p c s Hd Hk)
         as (s1 & msg & older & Hrun & _).
       rewrite Hrun in H. discriminate. }
  destruct (jointPropertiesOf
              (GetParentModelFrame s mi) j
              (compose (if decide (sdf.Joint.PoseFrame j = "")
                        then getWorldTransform (bodyNodes s) c
                        else Isometry3d_Identity)
                       (sdf.Joint.Pose j))) as [props |] eqn:Hp.
  2: { exfalso. revert Hp H. run_joint. rewrite Hd.
       destruct (decide (sdf.Joint.PoseFrame j = "")); intros Hp;
         match goal with
         | |- context [createJointOfType _ _ _ _ ?T ?s0] =>
             rewrite (createJointOfType_null_axis jointTransform mi j p c T s0
                        k Hk Hp)
         end; discriminate. }
  destruct (ConstructSdfJoint_run jointTransform mi j p c s k props Hd Hk Hp)
    as (s1 & Hrun & Hbs1 & Hsf & Hsn & Hsk & _ & Hmod & Hl & Hj & Hsh & Hec).
  rewrite Hrun in H. injection H as <- <-.
  split_and!; try reflexivity; try assumption.
  - rewrite Hbs1. apply length_alter.
  - intros b Hb. rewrite Hbs1. now apply list_lookup_alter_ne.
  - intros bn Hc. eexists. rewrite Hbs1.
    split; [apply moved_lookup_eq; exact Hc |].
    cbn. now split_and!.
Qed.

(** X10. A ball or a fixed joint between two bodies that would not close a
    chain is always built, whatever axes the description declares: the
    child hangs under the parent by a ball joint or a weld joint with the
    engine's default properties, its coordinates at zero. *)
Theorem ball_and_fixed_joints mi j p c s bn :
  descendsFrom (bodyNodes s) p c = false ->
  bodyNodes s !! c = Some bn ->
  sdf.Joint.Type_ j = sdf.BALL \/ sdf.Joint.Type_ j = sdf.FIXED ->
  exists s' bn',
    ConstructSdfJoint mi j (Some p) (Some c) s
      = Some (ValidId (entityCount s), s') /\
    bodyNodes s' !! c = Some bn' /\
    parentBodyNode bn' = Some p /\
    jointName (parentJoint bn') = sdf.Joint.Name j /\
    jointKind (parentJoint bn')
      = match sdf.Joint.Type_ j with
        | sdf.BALL => BallJoint
        | _ => WeldJoint
        end /\
    jointProperties (parentJoint bn')
      = defaultPropertiesOf (jointKind (parentJoint bn')) /\
    mPositions (parentJoint bn')
      = Coordinates match sdf.Joint.Type_ j with
                    | sdf.BALL => [0; 0; 0]%float
                    | _ => []
                    end.
Proof.
  intros Hd Hc Hty.
  destruct Hty as [Hty | Hty].
  - destruct (ConstructSdfJoint_built mi j p c s BallJoint
                (defaultPropertiesOf BallJoint) bn Hd Hc)
      as (s' & bn' & Hrun & Hb & _ & _ & _ & Hp & Hk & Hn & Hpr & Hq & _).
    { unfold jointKindOf. now rewrite Hty. }
    { unfold jointPropertiesOf. now rewrite Hty. }
    exists s', bn'. rewrite Hk, Hpr, Hq, Hty. now split_and!.
  - destruct (ConstructSdfJoint_built mi j p c s WeldJoint
                (defaultPropertiesOf WeldJoint) bn Hd Hc)
      as (s' & bn' & Hrun & Hb & _ & _ & _ & Hp & Hk & Hn & Hpr & Hq & _).
    { unfold jointKindOf. now rewrite Hty. }
    { unfold jointPropertiesOf. now rewrite Hty. }
    exists s', bn'. rewrite Hk, Hpr, Hq, Hty. now split_and!.
Qed.


(** X12. The properties of a universal joint with two axes: each
    per-coordinate array holds the value of the first axis at index 0 and
    that of the second at index 1.  Copying the second axis leaves what
    was copied from the first in place. *)
Theorem universal_axis_arrays T_model (j : sdf.Joint.t) T_joint a0 a1 :
  sdf.Joint.Axis j 0 = Some a0 ->
  sdf.Joint.Axis j 1 = Some a1 ->
  exists props,
    UniversalProperties T_model j T_joint = Some props /\
    mInitialPositions props
      = [sdf.JointAxis.InitialPosition a0; sdf.JointAxis.InitialPosition a1] /\
    mDampingCoefficients props
      = [sdf.JointAxis.Damping a0; sdf.JointAxis.Damping a1] /\
    mFrictions props
      = [sdf.JointAxis.Friction a0; sdf.JointAxis.Friction a1] /\
    mRestPositions props
      = [sdf.JointAxis.SpringReference a0; sdf.JointAxis.SpringReference a1] /\
    mSpringStiffnesses props
      = [sdf.JointAxis.SpringStiffness a0; sdf.JointAxis.SpringStiffness a1] /\
    mPositionLowerLimits props
      = [sdf.JointAxis.Lower a0; sdf.JointAxis.Lower a1] /\
    mPositionUpperLimits props
      = [sdf.JointAxis.Upper a0; sdf.JointAxis.Upper a1] /\
    mForceLowerLimits props
      = [(- infIfNeg (sdf.JointAxis.Effort a0))%float;
         (- infIfNeg (sdf.JointAxis.Effort a1))%float] /\
    mForceUpperLimits props
      = [infIfNeg (sdf.JointAxis.Effort a0);
         infIfNeg (sdf.JointAxis.Effort a1)] /\
    mVelocityLowerLimits props
      = [(- infIfNeg (sdf.JointAxis.MaxVelocity a0))%float;
         (- infIfNeg (sdf.JointAxis.MaxVelocity a1))%float] /\
    mVelocityUpperLimits props
      = [infIfNeg (sdf.JointAxis.MaxVelocity a0);
         infIfNeg (sdf.JointAxis.MaxVelocity a1)].
Proof.
  intros H0 H1. unfold UniversalProperties. cbn [foldl]. rewrite H0, H1.
  eexists. split; [reflexivity |]. now split_and!.
Qed.

(** X13. The entry point that takes the id of a registered model and
    looks the two bodies up by the link names of the joint.  When the
    skeleton of the model has no body of the parent's or of the child's
    name, it reports and returns the invalid handle, and builds no link.
    A joint from a link to itself is rejected in the same way.  A valid
    handle means that the joint was made between the bodies of those two
    names. *)
Theorem joint_by_link_names modelID (j : sdf.Joint.t) s mi :
  models s !! modelID = Some mi ->
  (getBodyNode (bodyNodes s) (model mi) (sdf.Joint.ParentLinkName j) = None \/
   getBodyNode (bodyNodes s) (model mi) (sdf.Joint.ChildLinkName j) = None ->
   exists msg,
     ConstructSdfJoint_byName modelID j s
       = Some (InvalidId, set_cerr (cons msg) s)) /\
  (forall b,
     sdf.Joint.ParentLinkName j = sdf.Joint.ChildLinkName j ->
     getBodyNode (bodyNodes s) (model mi) (sdf.Joint.ChildLinkName j) = Some b ->
     exists msg,
       ConstructSdfJoint_byName modelID j s
         = Some (InvalidId, set_cerr (cons msg) s)) /\
  (forall id s',
     ConstructSdfJoint_byName modelID j s = Some (ValidId id, s') ->
     exists p c bn_p bn_c,
       bodyNodes s !! p = Some bn_p /\ bodySkeleton bn_p = model mi /\
       bodyName bn_p = sdf.Joint.ParentLinkName j /\
       bodyNodes s !! c = Some bn_c /\ bodySkeleton bn_c = model mi /\
       bodyName bn_c = sdf.Joint.ChildLinkName j /\
       joints s' !! id = Some c /\
       parentOf (bodyNodes s') c = Some p).
Proof.
  intros Hm. unfold SDFFeatures.ConstructSdfJoint_byName.
  split_and!.
  - intros Hnull. cbv [bind get deref ret]. rewrite Hm.
    apply ConstructSdfJoint_null. exact Hnull.
  - intros b Hsame Hb. cbv [bind get deref ret]. rewrite Hm.
    rewrite Hsame, Hb. apply ConstructSdfJoint_closed_chain.
    unfold descendsFrom. now rewrite decide_True.
  - intros id s'. cbv [bind get deref ret]. rewrite Hm. intros H.
    destruct (ConstructSdfJoint_inv jointTransform _ _ _ _ _ _ _ H)
      as [(Hr & _) | (p & c & jt & id' & Hp & Hc & _ & _ & Hbs & _)];
      [discriminate |].
    apply getBodyNode_Some in Hp as (bn_p & Hbp & Hsp & Hnp).
    pose proof Hc as Hc'.
    apply getBodyNode_Some in Hc as (bn_c & Hbc & Hsc & Hnc).
    exists p, c, bn_p, bn_c. split_and!; try assumption.
    + rewrite Hc' in H.
      match type of H with
      | SDFFeatures.ConstructSdfJoint _ _ _ ?par _ _ = _ =>
          destruct par as [p' |] eqn:Ep
      end.
      2: { destruct (ConstructSdfJoint_null jointTransform mi j None (Some c) s)
             as (msg & E); [now left |]. rewrite E in H. discriminate. }
      destruct (joint_registration_fields mi j p' c s id s' H) as (-> & Hj).
      rewrite Hj. apply lookup_insert_eq.
    + rewrite Hbs. now apply moved_parentOf with bn_c.
Qed.

End JointOutcomes.

(** ** Model Assembler and World Assembler: what a construction leaves *)

(** A loop over the indices of a list is a loop over its elements. *)
Lemma forEach_indices {A} (l : list A) (body_i : nat -> M unit)
    (body : A -> M unit) (k : nat) :
  (forall i x s, l !! i = Some x -> body_i (k + i) s = body x s) ->
  forall s, forEach (seq k (length l)) body_i s = forEach l body s.
Proof.
  revert k. induction l as [| a l IH]; intros k H s; [reflexivity |].
  cbn [length seq forEach]. unfold bind.
  rewrite <- (Nat.add_0_r k) at 1. rewrite (H 0 a s eq_refl).
  destruct (body a s) as [[u s1] |]; [| reflexivity].
  apply IH. intros i x s0 Hi.
  replace (S k + i) with (k + S i) by lia. now apply H.
Qed.

(** What each step of a loop establishes for its element, and every
    later step keeps, holds for all elements after the loop; [I] is an
    invariant that the steps may rest on. *)
Lemma forEach_establish {A} (I : Base -> Prop) (Q : A -> Base -> Prop)
    (l : list A) (body : A -> M unit) :
  (forall a s u s', a ∈ l -> I s -> body a s = Some (u, s') ->
                    I s' /\ Q a s') ->
  (forall a b s u s', I s -> Q a s -> body b s = Some (u, s') -> Q a s') ->
  forall s u s', I s -> forEach l body s = Some (u, s') ->
  forall a, a ∈ l -> Q a s'.
Proof.
  intros Hest Hkeep.
  assert (Hrest : forall l' x s u s',
            (forall b, b ∈ l' -> b ∈ l) ->
            I s -> Q x s -> forEach l' body s = Some (u, s') -> Q x s').
  { induction l' as [| y l' IH]; intros x s u s' Hsub HI Hx H.
    - cbn in H. now injection H as _ <-.
    - cbn [forEach] in H. unfold bind in H.
      destruct (body y s) as [[u2 s2] |] eqn:E2; [| discriminate].
      apply (IH x s2 u s'); try assumption.
      + intros b Hb. apply Hsub. now right.
      + apply (Hest y s u2 s2); [apply Hsub; left | |]; assumption.
      + now apply (Hkeep x y s u2). }
  assert (Hall : forall l' s u s',
            (forall b, b ∈ l' -> b ∈ l) ->
            I s -> forEach l' body s = Some (u, s') ->
            forall a, a ∈ l' -> Q a s').
  { induction l' as [| x l' IH]; intros s u s' Hsub HI H a Ha.
    - now apply elem_of_nil in Ha.
    - cbn [forEach] in H. unfold bind in H.
      destruct (body x s) as [[u1 s1] |] eqn:E; [| discriminate].
      assert (Hx : x ∈ l) by (apply Hsub; left).
      destruct (Hest x s u1 s1 Hx HI E) as (HI1 & HQ1).
      assert (Hsub' : forall b, b ∈ l' -> b ∈ l)
        by (intros b Hb; apply Hsub; now right).
      apply elem_of_cons in Ha as [-> | Ha].
      + now apply (Hrest l' x s1 u s').
      + now apply (IH s1 u s'). }
  intros s u s' HI H. now apply (Hall l s u s').
Qed.

Section ModelAssembly.

Variable jointTransform : JointKind -> Properties -> list float -> Isometry3d.

Local Abbreviation ConstructSdfLink :=
  (SDFFeatures.ConstructSdfLink jointTransform).
Local Abbreviation ConstructSdfJoint :=
  (SDFFeatures.ConstructSdfJoint jointTransform).
Local Abbreviation FindOrConstructLink :=
  (SDFFeatures.FindOrConstructLink jointTransform).
Local Abbreviation joinLinks := (SDFFeatures.joinLinks jointTransform).
Local Abbreviation ConstructSdfModel :=
  (SDFFeatures.ConstructSdfModel jointTransform).
Local Abbreviation ConstructSdfWorld :=
  (SDFFeatures.ConstructSdfWorld jointTransform).

(** The Model Assembler, taken apart: the state after the skeleton and
    the model frame were made and registered, then the loop over the
    links and the loop over the joints. *)
Lemma ConstructSdfModel_loops worldID m s r s' :
  ConstructSdfModel worldID m s = Some (r, s') ->
  let skel := length (skeletons s) in
  let f := length (simpleFrames s) in
  let mi := mkModelInfo skel f in
  let id := entityCount s in
  exists st0 s1,
    (bodyNodes st0 = bodyNodes s /\
     simpleFrames st0 =
       simpleFrames s ++
       [mkSimpleFrame (sdf.Model.Name m +:+ "_frame") None (sdf.Model.Pose m)] /\
     skeletons st0 =
       skeletons s ++
       [mkSkeleton (sdf.Model.Name m) (negb (sdf.Model.Static m))
                   (sdf.Model.SelfCollide m)] /\
     shapeNodes st0 = shapeNodes s /\
     models st0 = <[id := mi]> (models s) /\
     links st0 = links s /\ joints st0 = joints s /\ shapes st0 = shapes s /\
     entityCount st0 = S id /\ cerr st0 = cerr s) /\
    forEach (sdf.Model.Links m)
            (fun l => bind (FindOrConstructLink skel id m (sdf.Link.Name l))
                           (fun _ => ret tt)) st0 = Some (tt, s1) /\
    forEach (seq 0 (sdf.Model.JointCount m)) (joinLinks skel id mi m) s1
      = Some (tt, s') /\
    r = ValidId id.
Proof.
  intros H skel f mi id. revert H.
  unfold SDFFeatures.ConstructSdfModel.
  cbv [Skeleton_create SimpleFrame_createShared AddModel GetNextEntity
       setMobile setSelfCollisionCheck].
  cbv [bind get modify ret fst snd].
  cbn [bodyNodes simpleFrames shapeNodes skeletons worlds models links joints
       shapes entityCount cerr
       set_bodyNodes set_simpleFrames set_shapeNodes set_skeletons set_worlds
       set_models set_links set_joints set_shapes set_entityCount set_cerr].
  fold skel f id. fold mi. intros H.
  match type of H with
  | context [forEach (seq 0 (sdf.Model.LinkCount m)) ?body ?s0] =>
      set (links_body := body) in H; set (st0 := s0) in H
  end.
  destruct (forEach (seq 0 (sdf.Model.LinkCount m)) links_body st0)
    as [[[] s1] |] eqn:E1; [| discriminate].
  destruct (forEach (seq 0 (sdf.Model.JointCount m))
                    (SDFFeatures.joinLinks jointTransform skel id mi m) s1)
    as [[[] s2] |] eqn:E2; [| discriminate].
  injection H as <- <-.
  exists st0, s1. split_and!; try reflexivity; try assumption.
  - unfold st0, skel. cbn. now rewrite alter_alter, alter_last.
  - rewrite <- E1. symmetry. unfold sdf.Model.LinkCount.
    apply (forEach_indices (sdf.Model.Links m) links_body _ 0).
    intros i l st Hl. unfold links_body, sdf.Model.LinkByIndex.
    cbn [Nat.add]. rewrite Hl. reflexivity.
Qed.

Section Steps.

Variables (m : sdf.Model.t) (id : nat) (skel : SkeletonPtr)
          (f : SimpleFramePtr) (bs0 : list BodyNode).

(** the skeleton is new: the table held no body of it *)
Hypothesis fresh :
  forall b bn, bs0 !! b = Some bn -> bodySkeleton bn <> skel.

Lemma model_bodies_new st b bn :
  model_bodies m skel bs0 (bodyNodes st) ->
  bodyNodes st !! b = Some bn -> bodySkeleton bn = skel ->
  length bs0 <= b.
Proof.
  intros (K1 & _) Hb Hs.
  destruct (decide (length bs0 <= b)) as [| Hlt]; [assumption | exfalso].
  rewrite K1 in Hb by lia. now apply (fresh b bn).
Qed.

(** A resolution keeps the table in that form, and the body it returns
    is one of the new ones. *)
Lemma FindOrConstructLink_model_bodies name st r st' :
  models st !! id = Some (mkModelInfo skel f) ->
  model_bodies m skel bs0 (bodyNodes st) ->
  FindOrConstructLink skel id m name st = Some (r, st') ->
  model_bodies m skel bs0 (bodyNodes st') /\
  models st' !! id = Some (mkModelInfo skel f) /\
  (forall b, r = Some b ->
     exists bn, bodyNodes st' !! b = Some bn /\ length bs0 <= b /\
                bodyName bn = name).
Proof.
  intros Hm HK H.
  destruct (getBodyNode (bodyNodes st) skel name) as [b |] eqn:Hg.
  - rewrite (FindOrConstructLink_found _ _ _ _ _ _ _ Hg) in H.
    injection H as <- <-. split_and!; try assumption.
    intros b' [= <-].
    apply getBodyNode_Some in Hg as (bn & Hb & Hs & Hn).
    exists bn. split_and!; try assumption.
    now apply (model_bodies_new st b bn).
  - destruct (sdf.Model.LinkByName m name) as [l |] eqn:Hn.
    + destruct (FindOrConstructLink_construct jointTransform _ _ _ _ _ _ _
                  Hg Hn Hm) as (s1 & H1 & Hrun).
      rewrite H1 in H. injection H as <- <-.
      destruct (ConstructSdfLink_run jointTransform id l st _ Hm)
        as (s2 & Hrun2 & Hbs & _ & _ & _ & Hmod & _).
      rewrite Hrun in Hrun2. injection Hrun2 as <-.
      cbn [model] in Hbs.
      pose proof (LinkByName_name _ _ _ Hn) as Hname.
      destruct HK as (K1 & K2 & K3 & K4).
      split_and!.
      * split_and!.
        -- intros b Hb. rewrite Hbs, lookup_app_l by lia. now apply K1.
        -- rewrite Hbs, length_app. lia.
        -- intros b bn Hb. rewrite Hbs.
           intros [Hl | [_ Hl]]%lookup_app_Some; [now apply (K3 b) |].
           apply list_lookup_singleton_Some in Hl as [_ <-]. cbn.
           split; [reflexivity |]. rewrite Hname. congruence.
        -- intros b1 b2 bn1 bn2 Hb1 Hb2. rewrite Hbs.
           intros [Hl1 | [Hge1 Hl1]]%lookup_app_Some
                  [Hl2 | [Hge2 Hl2]]%lookup_app_Some Heq.
           ++ now apply (K4 b1 b2 bn1 bn2).
           ++ exfalso. apply list_lookup_singleton_Some in Hl2 as [_ <-].
              cbn in Heq. destruct (K3 b1 bn1 Hb1 Hl1) as [Hs1 _].
              apply (getBodyNode_None _ _ _ Hg b1 bn1 Hl1 Hs1). congruence.
           ++ exfalso. apply list_lookup_singleton_Some in Hl1 as [_ <-].
              cbn in Heq. destruct (K3 b2 bn2 Hb2 Hl2) as [Hs2 _].
              apply (getBodyNode_None _ _ _ Hg b2 bn2 Hl2 Hs2). congruence.
           ++ apply list_lookup_singleton_Some in Hl1 as [E1 _].
              apply list_lookup_singleton_Some in Hl2 as [E2 _]. lia.
      * now rewrite Hmod.
      * intros b [= <-]. eexists. rewrite Hbs.
        split; [now apply list_lookup_middle |]. split; [exact K2 |].
        exact Hname.
    + destruct (FindOrConstructLink_undeclared jointTransform skel id _ _ _
                  Hg Hn) as (msg & H1).
      rewrite H1 in H. injection H as <- <-. split_and!; try assumption.
      intros b. discriminate.
Qed.

(** So does a step of the loop over the joints. *)
Lemma joinLinks_model_bodies i st u st' :
  models st !! id = Some (mkModelInfo skel f) ->
  model_bodies m skel bs0 (bodyNodes st) ->
  joinLinks skel id (mkModelInfo skel f) m i st = Some (u, st') ->
  model_bodies m skel bs0 (bodyNodes st') /\
  models st' !! id = Some (mkModelInfo skel f).
Proof.
  intros Hm HK. unfold SDFFeatures.joinLinks.
  destruct (sdf.Model.JointByIndex m i) as [j |].
  2: { unfold report, modify. intros [= _ <-]. now split. }
  unfold bind.
  destruct (FindOrConstructLink skel id m (sdf.Joint.ParentLinkName j) st)
    as [[parent s1] |] eqn:E1; [| discriminate].
  destruct (FindOrConstructLink_model_bodies _ _ _ _ Hm HK E1)
    as (HK1 & Hm1 & _).
  destruct (FindOrConstructLink skel id m (sdf.Joint.ChildLinkName j) s1)
    as [[child s2] |] eqn:E2; [| discriminate].
  destruct (FindOrConstructLink_model_bodies _ _ _ _ Hm1 HK1 E2)
    as (HK2 & Hm2 & Hchild).
  destruct (ConstructSdfJoint (mkModelInfo skel f) j parent child s2)
    as [[r s3] |] eqn:E3; [| discriminate].
  intros [= _ <-].
  destruct (ConstructSdfJoint_inv jointTransform _ _ _ _ _ _ _ E3)
    as [(_ & Hrep) |
        (p & c & jt & id' & _ & -> & _ & _ & Hbs & _ & _ & Hmod & _)].
  - apply only_reports_fields in Hrep as (-> & _ & _ & _ & _ & -> & _).
    now split.
  - split; [| now rewrite Hmod].
    destruct (Hchild c eq_refl) as (bn_c & Hc & Hge & _).
    destruct HK2 as (K1 & K2 & K3 & K4).
    assert (Hlook : forall b bn',
              bodyNodes s3 !! b = Some bn' ->
              exists bn, bodyNodes s2 !! b = Some bn /\
                         bodySkeleton bn' = bodySkeleton bn /\
                         bodyName bn' = bodyName bn).
    { intros b bn'. rewrite Hbs, list_lookup_alter.
      case_decide; [subst b | intros Hl; now exists bn'].
      rewrite Hc. intros [= <-]. now exists bn_c. }
    split_and!.
    + intros b Hb. rewrite Hbs, list_lookup_alter_ne by lia. now apply K1.
    + now rewrite Hbs, length_alter.
    + intros b bn' Hb Hl. destruct (Hlook b bn' Hl) as (bn & Hl0 & -> & ->).
      now apply (K3 b).
    + intros b1 b2 bn1 bn2 Hb1 Hb2 Hl1 Hl2.
      destruct (Hlook b1 bn1 Hl1) as (bn1' & Hl1' & _ & ->).
      destruct (Hlook b2 bn2 Hl2) as (bn2' & Hl2' & _ & ->).
      now apply (K4 b1 b2 bn1' bn2').
Qed.

End Steps.

(** the names and skeletons of the bodies of [bs] are kept in [bs'] *)
Lemma has_body_keep (bs bs' : list BodyNode) (skel : SkeletonPtr) (name : string) :
  (forall b bn, bs !! b = Some bn ->
     exists bn', bs' !! b = Some bn' /\
                 bodySkeleton bn' = bodySkeleton bn /\
                 bodyName bn' = bodyName bn) ->
  (exists b bn, bs !! b = Some bn /\ bodySkeleton bn = skel /\
                bodyName bn = name) ->
  exists b bn, bs' !! b = Some bn /\ bodySkeleton bn = skel /\
               bodyName bn = name.
Proof.
  intros Hkeep (b & bn & Hb & Hs & Hn).
  destruct (Hkeep b bn Hb) as (bn' & Hb' & Hs' & Hn').
  exists b, bn'. split_and!; congruence.
Qed.

Lemma FindOrConstructLink_keeps_bodies skel id m name st mi r st' :
  models st !! id = Some mi ->
  FindOrConstructLink skel id m name st = Some (r, st') ->
  forall b bn, bodyNodes st !! b = Some bn ->
    exists bn', bodyNodes st' !! b = Some bn' /\
                bodySkeleton bn' = bodySkeleton bn /\
                bodyName bn' = bodyName bn.
Proof.
  intros Hm H b bn Hb.
  destruct (FindOrConstructLink_inv jointTransform _ _ _ _ _ _ _ _ Hm H)
    as ((tail & ->) & _).
  exists bn. split_and!; try reflexivity. now apply lookup_app_l_Some.
Qed.

Lemma ConstructSdfJoint_keeps_bodies mi j parent child st r st' :
  ConstructSdfJoint mi j parent child st = Some (r, st') ->
  forall b bn, bodyNodes st !! b = Some bn ->
    exists bn', bodyNodes st' !! b = Some bn' /\
                bodySkeleton bn' = bodySkeleton bn /\
                bodyName bn' = bodyName bn.
Proof.
  intros H b bn Hb.
  destruct (ConstructSdfJoint_frame jointTransform _ _ _ _ _ _ _ H)
    as (_ & _ & Hbody).
  destruct (Hbody b) as [H1 H2]. rewrite Hb in H1, H2.
  destruct (bodyNodes st' !! b) as [bn' |]; [| discriminate].
  exists bn'. cbn in H1, H2. split_and!; congruence.
Qed.

Lemma joinLinks_keeps_bodies skel id mi m i st u st' :
  models st !! id = Some mi ->
  joinLinks skel id mi m i st = Some (u, st') ->
  forall b bn, bodyNodes st !! b = Some bn ->
    exists bn', bodyNodes st' !! b = Some bn' /\
                bodySkeleton bn' = bodySkeleton bn /\
                bodyName bn' = bodyName bn.
Proof.
  intros Hm. unfold SDFFeatures.joinLinks.
  destruct (sdf.Model.JointByIndex m i) as [j |].
  2: { unfold report, modify. intros [= _ <-] b bn Hb. now exists bn. }
  unfold bind.
  destruct (FindOrConstructLink skel id m (sdf.Joint.ParentLinkName j) st)
    as [[parent s1] |] eqn:E1; [| discriminate].
  destruct (FindOrConstructLink_inv jointTransform _ _ _ _ _ _ _ _ Hm E1)
    as (_ & Hm1). rewrite <- Hm1 in Hm.
  destruct (FindOrConstructLink skel id m (sdf.Joint.ChildLinkName j) s1)
    as [[child s2] |] eqn:E2; [| discriminate].
  destruct (ConstructSdfJoint mi j parent child s2)
    as [[r s3] |] eqn:E3; [| discriminate].
  intros [= _ <-] b bn Hb.
  rewrite Hm1 in Hm.
  destruct (FindOrConstructLink_keeps_bodies _ _ _ _ _ _ _ _ Hm E1 b bn Hb)
    as (bn1 & Hb1 & Hs1 & Hn1).
  rewrite <- Hm1 in Hm.
  destruct (FindOrConstructLink_keeps_bodies _ _ _ _ _ _ _ _ Hm E2 b bn1 Hb1)
    as (bn2 & Hb2 & Hs2 & Hn2).
  destruct (ConstructSdfJoint_keeps_bodies _ _ _ _ _ _ _ E3 b bn2 Hb2)
    as (bn3 & Hb3 & Hs3 & Hn3).
  exists bn3. split_and!; congruence.
Qed.

(** The first link of a name answers for every link of that name. *)
Lemma LinkByName_declared m l :
  l ∈ sdf.Model.Links m ->
  exists l', sdf.Model.LinkByName m (sdf.Link.Name l) = Some l'.
Proof.
  intros Hl. unfold sdf.Model.LinkByName.
  destruct (List.find _ (sdf.Model.Links m)) as [l' |] eqn:E; [eauto |].
  exfalso. apply list_elem_of_In in Hl.
  pose proof (find_none _ _ E l Hl) as Hf. cbn in Hf.
  now rewrite bool_decide_eq_true_2 in Hf.
Qed.

Lemma LinkByName_elem m name l :
  sdf.Model.LinkByName m name = Some l ->
  l ∈ sdf.Model.Links m /\ sdf.Link.Name l = name.
Proof.
  unfold sdf.Model.LinkByName. intros H. apply find_some in H as [Hin Hn].
  split; [now apply list_elem_of_In | now apply bool_decide_eq_true in Hn].
Qed.

(** The table of bodies after the Model Assembler has run on a new
    skeleton. *)
Lemma ConstructSdfModel_bodies worldID m s r s' :
  getNumBodyNodes (bodyNodes s) (length (skeletons s)) = 0 ->
  ConstructSdfModel worldID m s = Some (r, s') ->
  let skel := length (skeletons s) in
  model_bodies m skel (bodyNodes s) (bodyNodes s') /\
  (forall l, l ∈ sdf.Model.Links m ->
     exists b bn, bodyNodes s' !! b = Some bn /\ bodySkeleton bn = skel /\
                  bodyName bn = sdf.Link.Name l).
Proof.
  intros H0 H skel.
  assert (fresh : forall b bn, bodyNodes s !! b = Some bn ->
                               bodySkeleton bn <> skel)
    by exact (proj1 (getNumBodyNodes_zero _ _) H0).
  destruct (ConstructSdfModel_loops worldID m s r s' H)
    as (st0 & s1 & (Hb0 & _ & _ & _ & Hmod0 & _) & Hlinks & Hjoints & _).
  fold skel in Hlinks, Hjoints, Hmod0.
  set (f := length (simpleFrames s)) in *.
  set (id := entityCount s) in *.
  set (mi := mkModelInfo skel f) in *.
  set (I := fun st : Base =>
              model_bodies m skel (bodyNodes s) (bodyNodes st) /\
              models st !! id = Some mi).
  assert (HI0 : I st0).
  { split; [| rewrite Hmod0; apply lookup_insert_eq].
    rewrite Hb0. split_and!; try reflexivity.
    - intros b bn Hge Hb. apply lookup_lt_Some in Hb. lia.
    - intros b1 b2 bn1 bn2 Hge _ Hb. apply lookup_lt_Some in Hb. lia. }
  set (links_body := fun l : sdf.Link.t =>
         bind (FindOrConstructLink skel id m (sdf.Link.Name l))
              (fun _ => ret tt)) in *.
  assert (Hstep : forall l st u st',
            I st -> links_body l st = Some (u, st') ->
            I st' /\
            (sdf.Model.LinkByName m (sdf.Link.Name l) <> None ->
             exists b bn, bodyNodes st' !! b = Some bn /\
                          bodySkeleton bn = skel /\
                          bodyName bn = sdf.Link.Name l)).
  { intros l st u st' [HK Hm]. unfold links_body, bind.
    destruct (FindOrConstructLink skel id m (sdf.Link.Name l) st)
      as [[r0 st1] |] eqn:E; [| discriminate].
    intros [= _ <-].
    destruct (FindOrConstructLink_model_bodies m id skel f (bodyNodes s) fresh
                _ _ _ _ Hm HK E) as (HK1 & Hm1 & Hres).
    split; [now split |]. intros Hdecl.
    destruct r0 as [b |].
    - destruct (Hres b eq_refl) as (bn & Hb & Hge & Hn).
      exists b, bn. split_and!; try assumption.
      now apply (proj1 (proj2 (proj2 HK1)) b bn Hge Hb).
    - exfalso.
      destruct (getBodyNode (bodyNodes st) skel (sdf.Link.Name l)) eqn:Hg.
      + rewrite (FindOrConstructLink_found _ _ _ _ _ _ _ Hg) in E.
        discriminate.
      + destruct (sdf.Model.LinkByName m (sdf.Link.Name l)) as [l' |] eqn:Hn;
          [| now apply Hdecl].
        destruct (FindOrConstructLink_construct jointTransform _ _ _ _ _ _ _
                    Hg Hn Hm) as (s2 & E' & _).
        rewrite E' in E. discriminate. }
  assert (HI1 : I s1).
  { apply (forEach_invariant I (sdf.Model.Links m) links_body)
      with (s := st0) (r := tt); [| assumption | assumption].
    intros l st u st' HI E. now apply (Hstep l st u st'). }
  assert (Hjstep : forall i st u st',
            I st -> joinLinks skel id mi m i st = Some (u, st') -> I st').
  { intros i st u st' [HK Hm] E.
    now apply (joinLinks_model_bodies m id skel f (bodyNodes s) fresh
                 i st u st'). }
  assert (HI2 : I s').
  { apply (forEach_invariant I (seq 0 (sdf.Model.JointCount m))
                             (joinLinks skel id mi m))
      with (s := s1) (r := tt); assumption. }
  split; [apply HI2 |].
  intros l Hl.
  assert (Hex1 : exists b bn, bodyNodes s1 !! b = Some bn /\
                               bodySkeleton bn = skel /\
                               bodyName bn = sdf.Link.Name l).
  { apply (forEach_establish I
             (fun l st => exists b bn, bodyNodes st !! b = Some bn /\
                                       bodySkeleton bn = skel /\
                                       bodyName bn = sdf.Link.Name l)
             (sdf.Model.Links m) links_body)
      with (s := st0) (u := tt); try assumption.
    - intros a st u st' Ha HI E.
      destruct (Hstep a st u st' HI E) as (HI' & Hex).
      split; [exact HI' |]. apply Hex.
      destruct (LinkByName_declared m a Ha) as (l' & ->). discriminate.
    - intros a b st u st' HI Hex. unfold links_body, bind.
      destruct (FindOrConstructLink skel id m (sdf.Link.Name b) st)
        as [[r0 st1] |] eqn:E; [| discriminate].
      intros [= _ <-]. revert Hex. apply has_body_keep.
      apply (FindOrConstructLink_keeps_bodies _ _ _ _ _ _ _ _ (proj2 HI) E). }
  revert Hex1. clear Hl.
  assert (Hkeep : forall js st u st',
            I st ->
            forEach js (joinLinks skel id mi m) st = Some (u, st') ->
            forall b bn, bodyNodes st !! b = Some bn ->
              exists bn', bodyNodes st' !! b = Some bn' /\
                          bodySkeleton bn' = bodySkeleton bn /\
                          bodyName bn' = bodyName bn).
  { induction js as [| i rest IH]; intros st u st' HIst Hrun b bn Hb.
    - cbn in Hrun. injection Hrun as _ <-. now exists bn.
    - cbn [forEach] in Hrun. unfold bind in Hrun.
      destruct (joinLinks skel id mi m i st) as [[u1 st1] |] eqn:E;
        [| discriminate].
      destruct (joinLinks_keeps_bodies _ _ _ _ _ _ _ _ (proj2 HIst) E b bn Hb)
        as (bn1 & Hb1 & Hs1 & Hn1).
      destruct (IH st1 u st' (Hjstep i st u1 st1 HIst E) Hrun b bn1 Hb1)
        as (bn2 & Hb2 & Hs2 & Hn2).
      exists bn2. split_and!; congruence. }
  apply has_body_keep.
  now apply (Hkeep (seq 0 (sdf.Model.JointCount m)) s1 tt s').
Qed.

Lemma frames_kept_refl f s : frames_kept f s s.
Proof. now split_and!. Qed.

Lemma frames_kept_trans f s1 s2 s3 :
  frames_kept f s1 s2 -> frames_kept f s2 s3 -> frames_kept f s1 s3.
Proof.
  intros (A1 & A2 & A3 & A4) (B1 & B2 & B3 & B4). split_and!; try congruence.
  intros f' Hf. now rewrite B3, A3.
Qed.

Lemma FindOrConstructLink_frames skel id m name st mi r st' :
  models st !! id = Some mi ->
  FindOrConstructLink skel id m name st = Some (r, st') ->
  frames_kept (frame mi) st st'.
Proof.
  intros Hm H.
  destruct (getBodyNode (bodyNodes st) skel name) as [b |] eqn:Hg.
  - rewrite (FindOrConstructLink_found _ _ _ _ _ _ _ Hg) in H.
    injection H as <- <-. apply frames_kept_refl.
  - destruct (sdf.Model.LinkByName m name) as [l |] eqn:Hn.
    + destruct (FindOrConstructLink_construct jointTransform _ _ _ _ _ _ _
                  Hg Hn Hm) as (s1 & H1 & Hrun).
      rewrite H1 in H. injection H as <- <-.
      destruct (ConstructSdfLink_run jointTransform id l st _ Hm)
        as (s2 & Hrun2 & _ & Hsf & Hsk & _).
      rewrite Hrun in Hrun2. injection Hrun2 as <-.
      split; [exact Hsk |]. rewrite Hsf.
      case_decide; [| now split_and!].
      split_and!.
      * apply length_alter.
      * intros f' Hf. now apply list_lookup_alter_ne.
      * rewrite list_lookup_alter_eq.
        now destruct (simpleFrames st !! frame mi).
    + destruct (FindOrConstructLink_undeclared jointTransform skel id _ _ _
                  Hg Hn) as (msg & H1).
      rewrite H1 in H. injection H as <- <-. now split_and!.
Qed.

Lemma ConstructSdfJoint_frames f mi j parent child st r st' :
  ConstructSdfJoint mi j parent child st = Some (r, st') ->
  frames_kept f st st'.
Proof.
  intros H.
  destruct (ConstructSdfJoint_inv jointTransform _ _ _ _ _ _ _ H)
    as [(_ & Hrep) |
        (p & c & jt & id' & _ & _ & _ & _ & _ & Hsf & Hsk & _)].
  - apply only_reports_fields in Hrep as (_ & Hsf & _ & Hsk & _).
    split; [exact Hsk |]. rewrite Hsf. now split_and!.
  - split; [exact Hsk |]. rewrite Hsf. now split_and!.
Qed.

Lemma joinLinks_frames skel id mi m i st u st' :
  models st !! id = Some mi ->
  joinLinks skel id mi m i st = Some (u, st') ->
  frames_kept (frame mi) st st' /\ models st' !! id = Some mi.
Proof.
  intros Hm. unfold SDFFeatures.joinLinks.
  destruct (sdf.Model.JointByIndex m i) as [j |].
  2: { unfold report, modify. intros [= _ <-]. now split_and!. }
  unfold bind.
  destruct (FindOrConstructLink skel id m (sdf.Joint.ParentLinkName j) st)
    as [[parent s1] |] eqn:E1; [| discriminate].
  pose proof (FindOrConstructLink_frames _ _ _ _ _ _ _ _ Hm E1) as F1.
  destruct (FindOrConstructLink_inv jointTransform _ _ _ _ _ _ _ _ Hm E1)
    as (_ & Hm1).
  assert (Hm' : models s1 !! id = Some mi) by now rewrite Hm1.
  destruct (FindOrConstructLink skel id m (sdf.Joint.ChildLinkName j) s1)
    as [[child s2] |] eqn:E2; [| discriminate].
  pose proof (FindOrConstructLink_frames _ _ _ _ _ _ _ _ Hm' E2) as F2.
  destruct (FindOrConstructLink_inv jointTransform _ _ _ _ _ _ _ _ Hm' E2)
    as (_ & Hm2).
  destruct (ConstructSdfJoint mi j parent child s2)
    as [[r s3] |] eqn:E3; [| discriminate].
  intros [= _ <-]. split.
  - apply frames_kept_trans with s2;
      [now apply frames_kept_trans with s1 |].
    now apply (ConstructSdfJoint_frames _ _ _ _ _ _ _ _ E3).
  - destruct (ConstructSdfJoint_frame jointTransform _ _ _ _ _ _ _ E3)
      as (_ & -> & _). now rewrite Hm2.
Qed.

(** The skeletons and the frames after the Model Assembler has run. *)
Lemma ConstructSdfModel_frames worldID m s r s' :
  ConstructSdfModel worldID m s = Some (r, s') ->
  let f := length (simpleFrames s) in
  r = ValidId (entityCount s) /\
  models s' !! entityCount s
    = Some (mkModelInfo (length (skeletons s)) f) /\
  skeletons s' =
    skeletons s ++
    [mkSkeleton (sdf.Model.Name m) (negb (sdf.Model.Static m))
                (sdf.Model.SelfCollide m)] /\
  length (simpleFrames s') = S f /\
  (forall f', f' < f -> simpleFrames s' !! f' = simpleFrames s !! f') /\
  (exists sf, simpleFrames s' !! f = Some sf /\
              frameName sf = sdf.Model.Name m +:+ "_frame").
Proof.
  intros H f.
  destruct (ConstructSdfModel_loops worldID m s r s' H)
    as (st0 & s1 & (_ & Hsf0 & Hsk0 & _ & Hmod0 & _) & Hlinks & Hjoints & Hr).
  set (skel := length (skeletons s)) in *.
  set (id := entityCount s) in *.
  set (mi := mkModelInfo skel (length (simpleFrames s))) in *.
  set (I := fun st : Base =>
              frames_kept f st0 st /\ models st !! id = Some mi).
  assert (HI0 : I st0).
  { split; [apply frames_kept_refl |]. rewrite Hmod0. apply lookup_insert_eq. }
  assert (HI1 : I s1).
  { apply (forEach_invariant I (sdf.Model.Links m)
             (fun l => bind (FindOrConstructLink skel id m (sdf.Link.Name l))
                            (fun _ => ret tt)))
      with (s := st0) (r := tt); [| assumption | assumption].
    intros l st u st' [HF Hm]. unfold bind.
    destruct (FindOrConstructLink skel id m (sdf.Link.Name l) st)
      as [[r0 st1] |] eqn:E; [| discriminate].
    intros [= _ <-]. split.
    - apply frames_kept_trans with st; [exact HF |].
      apply (FindOrConstructLink_frames _ _ _ _ _ _ _ _ Hm E).
    - destruct (FindOrConstructLink_inv jointTransform _ _ _ _ _ _ _ _ Hm E)
        as (_ & ->). exact Hm. }
  assert (HI2 : I s').
  { apply (forEach_invariant I (seq 0 (sdf.Model.JointCount m))
                             (joinLinks skel id mi m))
      with (s := s1) (r := tt); [| assumption | assumption].
    intros i st u st' [HF Hm] E.
    destruct (joinLinks_frames _ _ _ _ _ _ _ _ Hm E) as (HF' & Hm').
    split; [| exact Hm']. now apply frames_kept_trans with st. }
  destruct HI2 as ((Hsk & Hlen & Hother & Hname) & Hm).
  split_and!; try assumption.
  - congruence.
  - rewrite Hlen, Hsf0, length_app. cbn. unfold f. lia.
  - intros f' Hf. rewrite Hother by lia.
    rewrite Hsf0. apply lookup_app_l. exact Hf.
  - rewrite Hsf0 in Hname.
    rewrite (list_lookup_middle _ [] _ f eq_refl) in Hname.
    destruct (simpleFrames s' !! f) as [sf |]; [| discriminate].
    exists sf. split; [reflexivity |]. cbn in Hname. congruence.
Qed.

(** Bodies added behind a table do not change the world transforms of
    the bodies of the table. *)
Lemma worldTransformFrom_prefix bs bs' fuel x :
  valid_parents bs ->
  (forall b, b < length bs -> bs' !! b = bs !! b) ->
  x < length bs ->
  worldTransformFrom jointTransform fuel bs' x
    = worldTransformFrom jointTransform fuel bs x.
Proof.
  intros Hv Hpre. revert x; induction fuel as [| fuel IH]; intros x Hx;
    [reflexivity |].
  cbn [SDFFeatures.worldTransformFrom]. rewrite (Hpre x Hx).
  destruct (bs !! x) as [bx |] eqn:Eb; [| reflexivity].
  destruct (parentBodyNode bx) as [q |] eqn:Eq; [| reflexivity].
  f_equal. apply IH. apply (Hv x). now rewrite (parentOf_lookup _ _ _ Eb).
Qed.

Lemma getWorldTransform_prefix bs bs' x :
  tree bs ->
  (forall b, b < length bs -> bs' !! b = bs !! b) ->
  length bs <= length bs' ->
  x < length bs ->
  getWorldTransform jointTransform bs' x = getWorldTransform jointTransform bs x.
Proof.
  intros Ht Hpre Hlen Hx. unfold SDFFeatures.getWorldTransform.
  rewrite (worldTransformFrom_prefix bs bs') by (try apply Ht; assumption).
  apply worldTransformFrom_fuel; [now apply chain_ends | exact Hlen].
Qed.

(** X14. The Model Assembler makes one skeleton and one frame: the
    skeleton carries the name of the model, is mobile unless the model is
    static, and checks self-collisions as the model declares; the frame is
    named [<model>_frame].  The model is registered under the next entity
    id, which is returned, with that skeleton and that frame.  The
    skeletons and the frames that were there are untouched. *)
Theorem model_skeleton_and_frame worldID m s r s' :
  ConstructSdfModel worldID m s = Some (r, s') ->
  r = ValidId (entityCount s) /\
  models s' !! entityCount s
    = Some (mkModelInfo (length (skeletons s)) (length (simpleFrames s))) /\
  skeletons s' =
    skeletons s ++
    [mkSkeleton (sdf.Model.Name m) (negb (sdf.Model.Static m))
                (sdf.Model.SelfCollide m)] /\
  length (simpleFrames s') = S (length (simpleFrames s)) /\
  (forall f', f' < length (simpleFrames s) ->
              simpleFrames s' !! f' = simpleFrames s !! f') /\
  (exists sf, simpleFrames s' !! length (simpleFrames s) = Some sf /\
              frameName sf = sdf.Model.Name m +:+ "_frame").
Proof. apply ConstructSdfModel_frames. Qed.

(** X15. After the Model Assembler has run on a new skeleton, the bodies
    of the skeleton are the declared links, one body per name: every
    declared link has a body of its name, every body of the skeleton is
    named after a declared link, and no two bodies of the skeleton share a
    name (links that repeat a name share the body of the first). *)
Theorem model_links_built worldID m s r s' :
  getNumBodyNodes (bodyNodes s) (length (skeletons s)) = 0 ->
  ConstructSdfModel worldID m s = Some (r, s') ->
  let skel := length (skeletons s) in
  (forall l, l ∈ sdf.Model.Links m ->
     exists b bn, bodyNodes s' !! b = Some bn /\ bodySkeleton bn = skel /\
                  bodyName bn = sdf.Link.Name l) /\
  (forall b bn, bodyNodes s' !! b = Some bn -> bodySkeleton bn = skel ->
     exists l, l ∈ sdf.Model.Links m /\ sdf.Link.Name l = bodyName bn) /\
  (forall b1 b2 bn1 bn2,
     bodyNodes s' !! b1 = Some bn1 -> bodyNodes s' !! b2 = Some bn2 ->
     bodySkeleton bn1 = skel -> bodySkeleton bn2 = skel ->
     bodyName bn1 = bodyName bn2 -> b1 = b2).
Proof.
  intros H0 H skel.
  destruct (ConstructSdfModel_bodies worldID m s r s' H0 H) as (HK & Hall).
  pose proof (proj1 (getNumBodyNodes_zero _ _) H0) as fresh.
  assert (Hnew : forall b bn, bodyNodes s' !! b = Some bn ->
                              bodySkeleton bn = skel ->
                              length (bodyNodes s) <= b).
  { intros b bn Hb Hs.
    apply (model_bodies_new m skel (bodyNodes s) fresh s' b bn HK Hb Hs). }
  destruct HK as (K1 & K2 & K3 & K4).
  split_and!.
  - exact Hall.
  - intros b bn Hb Hs.
    destruct (K3 b bn (Hnew b bn Hb Hs) Hb) as (_ & Hdecl).
    destruct (sdf.Model.LinkByName m (bodyName bn)) as [l |] eqn:E;
      [| now destruct Hdecl].
    exists l. now apply LinkByName_elem.
  - intros b1 b2 bn1 bn2 Hb1 Hb2 Hs1 Hs2.
    apply K4; eauto.
Qed.

(** X16. The Model Assembler on a new skeleton leaves the bodies that
    were there as they are, and every body that it adds belongs to the new
    skeleton.  When the bodies that were there form a tree, each of them
    keeps its world transform. *)
Theorem model_isolation worldID m s r s' :
  getNumBodyNodes (bodyNodes s) (length (skeletons s)) = 0 ->
  ConstructSdfModel worldID m s = Some (r, s') ->
  (forall b, b < length (bodyNodes s) ->
             bodyNodes s' !! b = bodyNodes s !! b) /\
  length (bodyNodes s) <= length (bodyNodes s') /\
  (forall b bn, length (bodyNodes s) <= b -> bodyNodes s' !! b = Some bn ->
                bodySkeleton bn = length (skeletons s)) /\
  (tree (bodyNodes s) ->
   forall b, b < length (bodyNodes s) ->
     getWorldTransform jointTransform (bodyNodes s') b
       = getWorldTransform jointTransform (bodyNodes s) b).
Proof.
  intros H0 H.
  destruct (ConstructSdfModel_bodies worldID m s r s' H0 H)
    as ((K1 & K2 & K3 & _) & _).
  split_and!; try assumption.
  - intros b bn Hge Hb. now apply (K3 b bn).
  - intros Ht b Hb. now apply getWorldTransform_prefix.
Qed.

(** The loop of the World Assembler over the models. *)
Lemma models_loop worldID (ms : list sdf.Model.t) :
  forall st st',
    bodies_in_skeletons st ->
    forEach ms (fun mdl => bind (ConstructSdfModel worldID mdl)
                                (fun _ => ret tt)) st = Some (tt, st') ->
    skeletons st' = skeletons st ++ (skeletonOf <$> ms) /\
    length (simpleFrames st') = length (simpleFrames st) + length ms /\
    (forall b, b < length (bodyNodes st) ->
               bodyNodes st' !! b = bodyNodes st !! b) /\
    length (bodyNodes st) <= length (bodyNodes st') /\
    bodies_in_skeletons st' /\
    (forall i mdl l,
       ms !! i = Some mdl -> l ∈ sdf.Model.Links mdl ->
       exists b bn, bodyNodes st' !! b = Some bn /\
                    bodySkeleton bn = length (skeletons st) + i /\
                    bodyName bn = sdf.Link.Name l).
Proof.
  induction ms as [| mdl ms IH]; intros st st' HW H.
  - cbn in H. injection H as <-. rewrite app_nil_r, Nat.add_0_r.
    split_and!; try reflexivity; try assumption.
    intros i mdl l Hi. discriminate.
  - cbn [forEach] in H. unfold bind at 1 2 in H.
    destruct (ConstructSdfModel worldID mdl st) as [[r st1] |] eqn:E;
      [| discriminate].
    cbn in H.
    assert (H0 : getNumBodyNodes (bodyNodes st) (length (skeletons st)) = 0).
    { apply getNumBodyNodes_zero. intros b bn Hb Hs.
      pose proof (HW b bn Hb). lia. }
    destruct (ConstructSdfModel_frames worldID mdl st r st1 E)
      as (_ & _ & Hsk & Hlen & _).
    destruct (ConstructSdfModel_bodies worldID mdl st r st1 H0 E)
      as ((K1 & K2 & K3 & _) & Hall).
    assert (HW1 : bodies_in_skeletons st1).
    { intros b bn Hb. rewrite Hsk, length_app. cbn.
      destruct (decide (b < length (bodyNodes st))) as [Hlt | Hge].
      - rewrite K1 in Hb by exact Hlt. pose proof (HW b bn Hb). lia.
      - destruct (K3 b bn ltac:(lia) Hb) as [-> _]. lia. }
    destruct (IH st1 st' HW1 H) as (Hsk' & Hlen' & Hpre & Hle & HW' & Hall').
    split_and!.
    + rewrite Hsk', Hsk, <- app_assoc. reflexivity.
    + rewrite Hlen', Hlen. cbn. lia.
    + intros b Hb. rewrite Hpre by lia. now apply K1.
    + lia.
    + exact HW'.
    + intros i mdl' l Hi Hl. destruct i as [| i].
      * injection Hi as <-.
        destruct (Hall l Hl) as (b & bn & Hb & Hs & Hn).
        exists b, bn. rewrite Hpre by (apply lookup_lt_Some in Hb; lia).
        split_and!; try assumption. lia.
      * destruct (Hall' i mdl' l Hi Hl) as (b & bn & Hb & Hs & Hn).
        exists b, bn. split_and!; try assumption.
        rewrite Hs, Hsk, length_app. cbn. lia.
Qed.

(** X17. The World Assembler, run on a state in which every body belongs
    to a skeleton of the table, makes one skeleton per model, in the
    order of the description, each with the name and the flags of its
    model, and one frame per model.  Every declared link of the [i]-th
    model has a body of its name in the [i]-th new skeleton.  The bodies
    that were there are untouched, and again every body belongs to a
    skeleton of the table. *)
Theorem world_assembly w s r s' :
  bodies_in_skeletons s ->
  ConstructSdfWorld w s = Some (r, s') ->
  r = ValidId (entityCount s) /\
  skeletons s' = skeletons s ++ (skeletonOf <$> sdf.World.Models w) /\
  length (simpleFrames s')
    = length (simpleFrames s) + sdf.World.ModelCount w /\
  (forall b, b < length (bodyNodes s) ->
             bodyNodes s' !! b = bodyNodes s !! b) /\
  bodies_in_skeletons s' /\
  (forall i mdl l,
     sdf.World.Models w !! i = Some mdl -> l ∈ sdf.Model.Links mdl ->
     exists b bn, bodyNodes s' !! b = Some bn /\
                  bodySkeleton bn = length (skeletons s) + i /\
                  bodyName bn = sdf.Link.Name l).
Proof.
  intros HW. unfold SDFFeatures.ConstructSdfWorld.
  cbv [AddWorld GetNextEntity]. cbv [bind get modify ret].
  match goal with
  | |- context [forEach _ ?body ?s0] => set (models_body := body); set (st0 := s0)
  end.
  destruct (forEach (seq 0 (sdf.World.ModelCount w)) models_body st0)
    as [[[] s1] |] eqn:E; [| discriminate].
  intros [= <- <-].
  unfold sdf.World.ModelCount in *.
  rewrite (forEach_indices (sdf.World.Models w) models_body
             (fun mdl => bind (ConstructSdfModel (entityCount s) mdl)
                              (fun _ => ret tt)) 0) in E.
  2: { intros i mdl st Hi. unfold models_body, sdf.World.ModelByIndex.
       cbn [Nat.add]. rewrite Hi. reflexivity. }
  destruct (models_loop (entityCount s) (sdf.World.Models w) st0 s1 HW E)
    as (Hsk & Hlen & Hpre & _ & HW' & Hall).
  now split_and!.
Qed.

End ModelAssembly.

(** ** When the assemblers return *)

Section Totality.

Variable jointTransform : JointKind -> Properties -> list float -> Isometry3d.

Local Abbreviation ConstructSdfJoint :=
  (SDFFeatures.ConstructSdfJoint jointTransform).
Local Abbreviation FindOrConstructLink :=
  (SDFFeatures.FindOrConstructLink jointTransform).
Local Abbreviation joinLinks := (SDFFeatures.joinLinks jointTransform).
Local Abbreviation ConstructSdfModel :=
  (SDFFeatures.ConstructSdfModel jointTransform).
Local Abbreviation ConstructSdfWorld :=
  (SDFFeatures.ConstructSdfWorld jointTransform).

Lemma jointPropertiesOf_present T_model j T_joint k :
  axes_present j ->
  jointKindOf (sdf.Joint.Type_ j) = Some k ->
  exists props, jointPropertiesOf T_model j T_joint = Some props.
Proof.
  unfold axes_present, jointKindOf, jointPropertiesOf, SingleAxisProperties,
    UniversalProperties.
  destruct (sdf.Joint.Type_ j); try discriminate; intros Hax _;
    try (eexists; reflexivity);
    try (destruct (sdf.Joint.Axis j 0); [eexists; reflexivity | now destruct Hax]).
  cbn [foldl]. destruct Hax as [H0 H1].
  destruct (sdf.Joint.Axis j 0); [| now destruct H0].
  destruct (sdf.Joint.Axis j 1); [| now destruct H1].
  eexists; reflexivity.
Qed.

(** The Joint Builder returns on a joint whose axes are present. *)
Lemma ConstructSdfJoint_total mi j parent child s :
  axes_present j ->
  exists r s', ConstructSdfJoint mi j parent child s = Some (r, s').
Proof.
  intros Hax.
  destruct parent as [p |].
  2: { destruct (ConstructSdfJoint_null jointTransform mi j None child s)
         as (msg & E); [now left | eauto]. }
  destruct child as [c |].
  2: { destruct (ConstructSdfJoint_null jointTransform mi j (Some p) None s)
         as (msg & E); [now right | eauto]. }
  destruct (descendsFrom (bodyNodes s) p c) eqn:Hd.
  { destruct (ConstructSdfJoint_closed_chain jointTransform mi j p c s Hd)
      as (msg & E). eauto. }
  destruct (jointKindOf (sdf.Joint.Type_ j)) as [k |] eqn:Hk.
  - destruct (jointPropertiesOf_present
                (GetParentModelFrame jointTransform s mi) j
                (compose (if decide (sdf.Joint.PoseFrame j = "")
                          then getWorldTransform jointTransform (bodyNodes s) c
                          else Isometry3d_Identity)
                         (sdf.Joint.Pose j)) k Hax Hk) as (props & Hp).
    destruct (ConstructSdfJoint_run jointTransform mi j p c s k props Hd Hk Hp)
      as (s' & Hrun & _). eauto.
  - destruct (ConstructSdfJoint_unsupported jointTransform mi j p c s Hd Hk)
      as (s' & msg & older & Hrun & _). eauto.
Qed.

(** The Model Assembler returns on a model whose joints declare their
    axes. *)
Lemma ConstructSdfModel_returns worldID m s :
  (forall j, j ∈ sdf.Model.Joints m -> axes_present j) ->
  exists r s', ConstructSdfModel worldID m s = Some (r, s').
Proof.
  intros Hax. unfold SDFFeatures.ConstructSdfModel.
  cbv [Skeleton_create SimpleFrame_createShared AddModel GetNextEntity
       setMobile setSelfCollisionCheck].
  cbv [bind get modify ret fst snd].
  cbn [bodyNodes simpleFrames shapeNodes skeletons worlds models links joints
       shapes entityCount cerr
       set_bodyNodes set_simpleFrames set_shapeNodes set_skeletons set_worlds
       set_models set_links set_joints set_shapes set_entityCount set_cerr].
  set (skel := length (skeletons s)).
  set (mi := mkModelInfo skel (length (simpleFrames s))).
  match goal with
  | |- context [forEach (seq 0 (sdf.Model.LinkCount m)) ?body ?s0] =>
      set (links_body := body); set (st0 := s0)
  end.
  set (I := fun st : Base => models st !! entityCount s = Some mi).
  destruct (forEach_total I (seq 0 (sdf.Model.LinkCount m)) links_body)
    with (s := st0) as (s1 & E1 & HI1).
  - intros i st Hi Hmi. unfold links_body.
    apply elem_of_seq in Hi as [_ Hi].
    destruct (lookup_lt_is_Some_2 (sdf.Model.Links m) i Hi) as [l Hl].
    unfold sdf.Model.LinkByIndex. rewrite Hl. cbv [deref ret].
    destruct (FindOrConstructLink_total jointTransform skel (entityCount s) m
                (sdf.Link.Name l) st mi Hmi) as (b & st' & E).
    rewrite E. exists st'. split; [reflexivity |].
    destruct (FindOrConstructLink_inv jointTransform _ _ _ _ _ _ _ _ Hmi E)
      as (_ & Hmod). unfold I. now rewrite Hmod.
  - unfold I, st0. cbn. apply lookup_insert_eq.
  - rewrite E1.
    destruct (forEach_total I (seq 0 (sdf.Model.JointCount m))
                (joinLinks skel (entityCount s) mi m))
      with (s := s1) as (s2 & E2 & _); [| exact HI1 |].
    + intros i st Hi Hmi. unfold SDFFeatures.joinLinks.
      apply elem_of_seq in Hi as [_ Hi].
      destruct (lookup_lt_is_Some_2 (sdf.Model.Joints m) i Hi) as [j Hj].
      unfold sdf.Model.JointByIndex. rewrite Hj. unfold bind.
      destruct (FindOrConstructLink_total jointTransform skel (entityCount s)
                  m (sdf.Joint.ParentLinkName j) st mi Hmi)
        as (parent & sa & Ea).
      rewrite Ea.
      destruct (FindOrConstructLink_inv jointTransform _ _ _ _ _ _ _ _
                  Hmi Ea) as (_ & Hma).
      assert (Hmi' : models sa !! entityCount s = Some mi)
        by now rewrite Hma.
      destruct (FindOrConstructLink_total jointTransform skel (entityCount s)
                  m (sdf.Joint.ChildLinkName j) sa mi Hmi')
        as (child & sb & Eb).
      rewrite Eb.
      destruct (FindOrConstructLink_inv jointTransform _ _ _ _ _ _ _ _
                  Hmi' Eb) as (_ & Hmb).
      destruct (ConstructSdfJoint_total mi j parent child sb) as (r & sc & Ec).
      { apply Hax. now apply list_elem_of_lookup_2 with i. }
      rewrite Ec. exists sc. split; [reflexivity |].
      destruct (ConstructSdfJoint_frame jointTransform _ _ _ _ _ _ _ Ec)
        as (_ & Hmc & _).
      unfold I. now rewrite Hmc, Hmb.
    + rewrite E2. eauto.
Qed.

(** So does the World Assembler on a world of such models. *)
Lemma ConstructSdfWorld_returns w s :
  (forall m j, m ∈ sdf.World.Models w -> j ∈ sdf.Model.Joints m ->
               axes_present j) ->
  exists r s', ConstructSdfWorld w s = Some (r, s').
Proof.
  intros Hax. unfold SDFFeatures.ConstructSdfWorld.
  cbv [AddWorld GetNextEntity]. cbv [bind get modify ret].
  match goal with
  | |- context [forEach _ ?body ?s0] => set (models_body := body); set (st0 := s0)
  end.
  destruct (forEach_total (fun _ => True) (seq 0 (sdf.World.ModelCount w))
              models_body) with (s := st0) as (s1 & E1 & _);
    [| exact I |].
  - intros i st Hi _. unfold models_body.
    destruct (sdf.World.ModelByIndex w i) as [mdl |] eqn:Em.
    + destruct (ConstructSdfModel_returns (entityCount s) mdl st)
        as (r & st' & E).
      { intros j Hj. apply (Hax mdl j); [| exact Hj].
        now apply list_elem_of_lookup_2 with i. }
      rewrite E. now exists st'.
    + now exists st.
  - rewrite E1. eauto.
Qed.

(** X18. A model every joint of which declares the axes that its type
    reads (one for a prismatic, revolute or screw joint, two for a
    universal joint) is always assembled: the Model Assembler returns on
    every state that holds the world, whatever else the description
    holds, and the World Assembler returns on every state for a world of
    such models. *)
Theorem assemblers_return :
  (forall worldID m s,
     is_Some (worlds s !! worldID) ->
     (forall j, j ∈ sdf.Model.Joints m -> axes_present j) ->
     exists r s', ConstructSdfModel worldID m s = Some (r, s')) /\
  (forall w s,
     (forall m j, m ∈ sdf.World.Models w -> j ∈ sdf.Model.Joints m ->
                  axes_present j) ->
     exists r s', ConstructSdfWorld w s = Some (r, s')).
Proof.
  split.
  - intros worldID m s _. apply ConstructSdfModel_returns.
  - exact ConstructSdfWorld_returns.
Qed.

End Totality.

(** ** Link Builder: the shapes of a link *)

Lemma shapes_added_refl bn s : shapes_added bn 0 s s.
Proof.
  split; [apply same_bodies_refl |]. exists []. now rewrite app_nil_r.
Qed.

Lemma shapes_added_trans bn n1 n2 s1 s2 s3 :
  shapes_added bn n1 s1 s2 -> shapes_added bn n2 s2 s3 ->
  shapes_added bn (n1 + n2) s1 s3.
Proof.
  intros (HA & t1 & E1 & F1 & L1) (HB & t2 & E2 & F2 & L2).
  split; [now apply same_bodies_trans with s2 |].
  exists (t1 ++ t2). rewrite E2, E1, app_assoc, length_app.
  split_and!; [reflexivity | now apply Forall_app | lia].
Qed.

(** A loop whose steps append shape nodes appends the sum. *)
Lemma forEach_shapes_added {A} (bn : BodyNodePtr) (P : Base -> Prop)
    (has : A -> bool) (l : list A) (body : A -> M unit) :
  (forall a s, P s ->
     exists s', body a s = Some (tt, s') /\
                shapes_added bn (if has a then 1 else 0) s s') ->
  (forall n s s', P s -> shapes_added bn n s s' -> P s') ->
  forall s, P s ->
  exists s', forEach l body s = Some (tt, s') /\
             shapes_added bn (length (filter (fun a => has a = true) l)) s s'.
Proof.
  intros Hbody HP. induction l as [| a l IH]; intros s Hs.
  - exists s. split; [reflexivity | apply shapes_added_refl].
  - destruct (Hbody a s Hs) as (s1 & H1 & Hs1).
    destruct (IH s1 (HP _ _ _ Hs Hs1)) as (s2 & H2 & Hs2).
    exists s2. split.
    + cbn [forEach]. unfold bind. rewrite H1. exact H2.
    + rewrite filter_cons.
      pose proof (shapes_added_trans _ _ _ _ _ _ Hs1 Hs2) as Hsum.
      destruct (has a); [rewrite decide_True by reflexivity
                        | rewrite decide_False by discriminate];
        exact Hsum.
Qed.

Section LinkShapes.

Variable jointTransform : JointKind -> Properties -> list float -> Isometry3d.

Local Abbreviation ConstructSdfLink :=
  (SDFFeatures.ConstructSdfLink jointTransform).

Ltac run_shapes :=
  cbv [bind ret get modify report deref throw
       createShapeNodeWith ShapeNode_setRelativeTransform ShapeNode_setColor
       AddShape GetNextEntity GenerateIdentity GenerateInvalidId].

Ltac shape_fields :=
  cbn [bodyNodes simpleFrames shapeNodes skeletons worlds models links joints
       shapes entityCount cerr
       set_bodyNodes set_simpleFrames set_shapeNodes set_skeletons set_worlds
       set_models set_links set_joints set_shapes set_entityCount set_cerr].

(** The shape of a geometry, by what the geometry declares. *)
Lemma ConstructGeometry_has_shape g s :
  exists st s',
    ConstructGeometry g s = Some (st, s') /\ same_bodies s s' /\
    shapeNodes s' = shapeNodes s /\
    (if geometry_has_shape g then st_shape st <> None /\ s' = s
     else st_shape st = None).
Proof.
  unfold ConstructGeometry, ConstructMesh, geometry_has_shape.
  destruct (sdf.Geometry.BoxShape g) as [b |];
    [| destruct (sdf.Geometry.CylinderShape g) as [c |];
       [| destruct (sdf.Geometry.SphereShape g) as [sp |];
          [| destruct (sdf.Geometry.PlaneShape g) as [p |];
             [| destruct (sdf.Geometry.MeshShape g) as [mesh |]]]]];
    run_shapes; do 2 eexists; (split; [reflexivity |]);
    (split; [repeat split |]); (split; [reflexivity |]);
    try (split; [discriminate | reflexivity]); reflexivity.
Qed.

Lemma ConstructSdfCollision_added linkID col s bn :
  links s !! linkID = Some bn ->
  exists r s',
    SDFFeatures.ConstructSdfCollision linkID col s = Some (r, s') /\
    shapes_added bn (if collision_has_shape col then 1 else 0) s s'.
Proof.
  intros Hl. unfold SDFFeatures.ConstructSdfCollision, collision_has_shape.
  destruct (sdf.Collision.Geom col) as [g |].
  2: { run_shapes. do 2 eexists. split; [reflexivity |].
       split; [repeat split |]. exists []. now rewrite app_nil_r. }
  destruct (ConstructGeometry_has_shape g s) as (st & s1 & Hg & Hsame & Hsn & Hsh).
  unfold bind at 1. rewrite Hg.
  destruct (geometry_has_shape g).
  - destruct Hsh as [Hsh ->].
    destruct (st_shape st) as [sh |]; [| now destruct Hsh].
    run_shapes. rewrite Hl. shape_fields.
    do 2 eexists. split; [reflexivity |].
    split; [repeat split |]. shape_fields. rewrite alter_last.
    eexists [_]. split_and!; [reflexivity | | reflexivity].
    now apply Forall_singleton.
  - rewrite Hsh. run_shapes. do 2 eexists. split; [reflexivity |].
    split; [exact Hsame |]. exists []. now rewrite app_nil_r.
Qed.

Lemma ConstructSdfVisual_added linkID vis s bn :
  links s !! linkID = Some bn ->
  exists r s',
    SDFFeatures.ConstructSdfVisual linkID vis s = Some (r, s') /\
    shapes_added bn (if visual_has_shape vis then 1 else 0) s s'.
Proof.
  intros Hl. unfold SDFFeatures.ConstructSdfVisual, visual_has_shape.
  destruct (sdf.Visual.Geom vis) as [g |].
  2: { run_shapes. do 2 eexists. split; [reflexivity |].
       split; [repeat split |]. exists []. now rewrite app_nil_r. }
  destruct (ConstructGeometry_has_shape g s) as (st & s1 & Hg & Hsame & Hsn & Hsh).
  unfold bind at 1. rewrite Hg.
  destruct (geometry_has_shape g).
  - destruct Hsh as [Hsh ->].
    destruct (st_shape st) as [sh |]; [| now destruct Hsh].
    run_shapes. rewrite Hl. shape_fields.
    destruct (sdf.Visual.Material vis);
      (do 2 eexists; split; [reflexivity |]);
      (split; [repeat split |]); shape_fields;
      rewrite ?alter_alter, alter_last;
      (eexists [_]; split_and!; [reflexivity | | reflexivity]);
      now apply Forall_singleton.
  - rewrite Hsh. run_shapes. do 2 eexists. split; [reflexivity |].
    split; [exact Hsame |]. exists []. now rewrite app_nil_r.
Qed.

(** The two loops over the shapes of a link: one node per collision and
    per visual whose geometry has a shape. *)
Lemma shape_loops_added (linkID : nat) (l : sdf.Link.t) (bn : BodyNodePtr)
    (st : Base) :
  links st !! linkID = Some bn ->
  exists s',
    (bind (forEach (seq 0 (sdf.Link.CollisionCount l)) (fun i =>
             match sdf.Link.CollisionByIndex l i with
             | Some collision =>
                 bind (SDFFeatures.ConstructSdfCollision linkID collision)
                      (fun _ => ret tt)
             | None => ret tt
             end))
          (fun _ =>
     bind (forEach (seq 0 (sdf.Link.VisualCount l)) (fun i =>
             match sdf.Link.VisualByIndex l i with
             | Some visual =>
                 bind (SDFFeatures.ConstructSdfVisual linkID visual)
                      (fun _ => ret tt)
             | None => ret tt
             end))
          (fun _ => ret (GenerateIdentity linkID)))) st
      = Some (ValidId linkID, s') /\
    shapes_added bn
      (length (filter (fun c => collision_has_shape c = true)
                      (sdf.Link.Collisions l))
       + length (filter (fun v => visual_has_shape v = true)
                        (sdf.Link.Visuals l)))
      st s'.
Proof.
  intros Hl.
  set (P := fun st : Base => links st !! linkID = Some bn).
  assert (HP : forall n st st', P st -> shapes_added bn n st st' -> P st').
  { unfold P. intros n st0 st' H0 ((_&_&_&_&_&Hl'&_) & _). now rewrite Hl'. }
  destruct (forEach_shapes_added bn P collision_has_shape
              (sdf.Link.Collisions l)
              (fun c => bind (SDFFeatures.ConstructSdfCollision linkID c)
                             (fun _ => ret tt)))
    with (s := st) as (s1 & H1 & Hs1); try assumption.
  { intros c st0 H0.
    destruct (ConstructSdfCollision_added linkID c st0 bn H0)
      as (r & s' & Hr & Hs).
    exists s'. unfold bind, ret. now rewrite Hr. }
  destruct (forEach_shapes_added bn P visual_has_shape
              (sdf.Link.Visuals l)
              (fun v => bind (SDFFeatures.ConstructSdfVisual linkID v)
                             (fun _ => ret tt)))
    with (s := s1) as (s2 & H2 & Hs2); try assumption.
  { intros v st0 H0.
    destruct (ConstructSdfVisual_added linkID v st0 bn H0)
      as (r & s' & Hr & Hs).
    exists s'. unfold bind, ret. now rewrite Hr. }
  { exact (HP _ st s1 Hl Hs1). }
  exists s2. split; [| now apply shapes_added_trans with s1].
  unfold bind at 1. unfold sdf.Link.CollisionCount.
  rewrite (forEach_indices (sdf.Link.Collisions l) _
             (fun c => bind (SDFFeatures.ConstructSdfCollision linkID c)
                            (fun _ => ret tt)) 0).
  2: { intros i c st0 Hi. unfold sdf.Link.CollisionByIndex. cbn [Nat.add].
       now rewrite Hi. }
  rewrite H1. unfold bind at 1. unfold sdf.Link.VisualCount.
  rewrite (forEach_indices (sdf.Link.Visuals l) _
             (fun v => bind (SDFFeatures.ConstructSdfVisual linkID v)
                            (fun _ => ret tt)) 0).
  2: { intros i v st0 Hi. unfold sdf.Link.VisualByIndex. cbn [Nat.add].
       now rewrite Hi. }
  rewrite H2. reflexivity.
Qed.

(** X19. The shape nodes that the Link Builder makes: one for each
    collision and one for each visual of the link whose geometry declares
    a box, a cylinder, a sphere or a plane, none for the others.  They are
    appended to the engine's table, all of them on the new body; the
    nodes that were there are untouched. *)
Theorem link_shape_nodes modelID l s mi :
  models s !! modelID = Some mi ->
  exists s' tail,
    ConstructSdfLink modelID l s = Some (ValidId (entityCount s), s') /\
    shapeNodes s' = shapeNodes s ++ tail /\
    Forall (fun sn => shapeOwner sn = length (bodyNodes s)) tail /\
    length tail =
      length (filter (fun c => collision_has_shape c = true)
                     (sdf.Link.Collisions l))
      + length (filter (fun v => visual_has_shape v = true)
                       (sdf.Link.Visuals l)).
Proof.
  intros Hm.
  unfold SDFFeatures.ConstructSdfLink.
  unfold bind at 1, get at 1. unfold bind at 1. rewrite Hm.
  cbv [deref ret].
  cbv [bind ret get modify report deref throw createJointAndBodyNodePair
       SDFFeatures.ResolveSdfLinkReferenceFrame
       SDFFeatures.FreeJoint_setTransform onJointOf
       AddLink AddJoint GetNextEntity
       SimpleFrame_setParentFrame SDFFeatures.SimpleFrame_setTransform].
  case_decide as Hf; shape_fields;
    rewrite ?alter_last, ?parentOf_last, ?getNumBodyNodes_app;
    cbn [withJoint newJoint parentJoint parentBodyNode bodySkeleton
         Joint_setPositions mT_ParentBodyToJoint mT_ChildBodyToJoint
         jointKind jointName jointProperties bodyName mInertia
         SDFFeatures.World_getTransform];
    rewrite (decide_True (P := model mi = model mi)) by reflexivity;
    (destruct (decide (getNumBodyNodes (bodyNodes s) (model mi) = 0)) as [H0 | H0];
     [ rewrite (decide_True (P := _ + 1 = 1)) by lia
     | rewrite (decide_False (P := _ + 1 = 1)) by lia ]);
    shape_fields; rewrite ?alter_alter;
    match goal with
    | |- context [forEach _ _ ?st] =>
        destruct (shape_loops_added (entityCount s) l (length (bodyNodes s)) st)
          as (s' & Hrun & _ & tail & Htail & Hown & Hlen);
          [ shape_fields; apply lookup_insert_eq | ]
    end;
    (exists s', tail; split; [exact Hrun |]);
    split_and!; assumption.
Qed.

End LinkShapes.

(** ** The force and velocity intervals of an axis *)
Section LimitIntervals.
Local Open Scope float_scope.

(** The bound that [infIfNeg] yields is never below zero, its opposite
    never above; the two enclose an interval unless the value is not a
    number. *)
Lemma infIfNeg_interval v :
  (infIfNeg v <? 0) = false /\
  (0 <? - infIfNeg v) = false /\
  (is_nan v = false -> (- infIfNeg v <=? infIfNeg v) = true) /\
  (is_nan v = true ->
   is_nan (infIfNeg v) = true /\ is_nan (- infIfNeg v) = true).
Proof.
  unfold infIfNeg, is_nan.
  destruct (v <? 0) eqn:E.
  - split_and!; try reflexivity.
    intros Hn. exfalso. apply Bool.negb_true_iff in Hn.
    rewrite FloatAxioms.eqb_spec in Hn. rewrite FloatAxioms.ltb_spec in E.
    change (Prim2SF 0) with (S754_zero false) in E.
    unfold SFltb, SFeqb in *.
    destruct (Prim2SF v) as [ [] | [] | | [] m e]; simpl in *;
      try congruence;
      rewrite ?Pos.compare_refl, ?Z.compare_refl in Hn; simpl in Hn;
      congruence.
  - rewrite FloatAxioms.ltb_spec in E.
    change (Prim2SF 0) with (S754_zero false) in E.
    rewrite !FloatAxioms.ltb_spec, FloatAxioms.leb_spec,
      !FloatAxioms.eqb_spec, !FloatAxioms.opp_spec.
    change (Prim2SF 0) with (S754_zero false).
    unfold SFltb, SFleb, SFeqb, SFopp in *.
    split_and!; [exact E | | |].
    + destruct (Prim2SF v) as [ [] | [] | | [] m e]; simpl in *; congruence.
    + intros Hn. apply Bool.negb_false_iff in Hn.
      destruct (Prim2SF v) as [ [] | [] | | [] m e]; simpl in *; congruence.
    + intros Hn. apply Bool.negb_true_iff in Hn.
      destruct (Prim2SF v) as [ [] | [] | | [] m e]; simpl in *;
        try congruence; try (split; reflexivity);
        rewrite ?Pos.compare_refl, ?Z.compare_refl in Hn; simpl in Hn;
        congruence.
Qed.

End LimitIntervals.

(** X20. The force and the velocity interval that
    [CopyStandardJointAxisProperties] writes for an axis are symmetric
    around zero and never exclude zero: the upper bound is never below
    zero and the lower bound never above.  When the declared effort
    (maximal velocity) is a number the lower bound is at most the upper
    bound; when it is not a number, both bounds are not numbers. *)
Theorem axis_limit_intervals
    (_index : nat) (_properties : Properties) (_sdfAxis : sdf.JointAxis.t) :
  _index < length (mForceLowerLimits _properties) ->
  _index < length (mForceUpperLimits _properties) ->
  _index < length (mVelocityLowerLimits _properties) ->
  _index < length (mVelocityUpperLimits _properties) ->
  let p := CopyStandardJointAxisProperties _index _properties _sdfAxis in
  let interval declared lower upper :=
    lower = (- upper)%float /\
    (upper <? 0)%float = false /\
    (0 <? lower)%float = false /\
    (is_nan declared = false -> (lower <=? upper)%float = true) /\
    (is_nan declared = true ->
     is_nan upper = true /\ is_nan lower = true) in
  exists fl fu vl vu,
    mForceLowerLimits p !! _index = Some fl /\
    mForceUpperLimits p !! _index = Some fu /\
    mVelocityLowerLimits p !! _index = Some vl /\
    mVelocityUpperLimits p !! _index = Some vu /\
    interval (sdf.JointAxis.Effort _sdfAxis) fl fu /\
    interval (sdf.JointAxis.MaxVelocity _sdfAxis) vl vu.
Proof.
  intros H1 H2 H3 H4 p interval.
  exists (- infIfNeg (sdf.JointAxis.Effort _sdfAxis))%float,
         (infIfNeg (sdf.JointAxis.Effort _sdfAxis)),
         (- infIfNeg (sdf.JointAxis.MaxVelocity _sdfAxis))%float,
         (infIfNeg (sdf.JointAxis.MaxVelocity _sdfAxis)).
  subst p. cbn [CopyStandardJointAxisProperties mForceLowerLimits
                mForceUpperLimits mVelocityLowerLimits mVelocityUpperLimits].
  rewrite !list_lookup_insert_eq by assumption.
  split_and!; try reflexivity.
  - destruct (infIfNeg_interval (sdf.JointAxis.Effort _sdfAxis))
      as (A & B & C & D).
    unfold interval. split_and!; [reflexivity | exact A | exact B | exact C |].
    intros Hn. destruct (D Hn). now split.
  - destruct (infIfNeg_interval (sdf.JointAxis.MaxVelocity _sdfAxis))
      as (A & B & C & D).
    unfold interval. split_and!; [reflexivity | exact A | exact B | exact C |].
    intros Hn. destruct (D Hn). now split.
Qed.

Lemma axis_limit_intervals_witness :
  let p := CopyStandardJointAxisProperties
             0 (defaultPropertiesOf RevoluteJoint) example_axis in
  exists fl fu vl vu,
    mForceLowerLimits p !! 0 = Some fl /\
    mForceUpperLimits p !! 0 = Some fu /\
    mVelocityLowerLimits p !! 0 = Some vl /\
    mVelocityUpperLimits p !! 0 = Some vu /\
    (fl = (- fu)%float /\
     (fu <? 0)%float = false /\
     (0 <? fl)%float = false /\
     (is_nan (sdf.JointAxis.Effort example_axis) = false ->
      (fl <=? fu)%float = true) /\
     (is_nan (sdf.JointAxis.Effort example_axis) = true ->
      is_nan fu = true /\ is_nan fl = true)) /\
    (vl = (- vu)%float /\
     (vu <? 0)%float = false /\
     (0 <? vl)%float = false /\
     (is_nan (sdf.JointAxis.MaxVelocity example_axis) = false ->
      (vl <=? vu)%float = true) /\
     (is_nan (sdf.JointAxis.MaxVelocity example_axis) = true ->
      is_nan vu = true /\ is_nan vl = true)).
Proof.
  apply (axis_limit_intervals
           0 (defaultPropertiesOf RevoluteJoint) example_axis); simpl; lia.
Defined.

(** ** The further properties on concrete scenes *)

Lemma collision_shape_node_witness :
  exists s',
    SDFFeatures.ConstructSdfCollision 1 example_collision example_state
      = Some (ValidId (entityCount example_state), s') /\
    shapeNodes s' =
      shapeNodes example_state ++
      [mkShapeNode 0
         (getName (bodyNodes example_state) 0 +:+ "_collision_"
          +:+ sdf.Collision.Name example_collision)
         (BoxShape (mkV 1 1 1)) CollisionAspect
         (compose (sdf.Collision.Pose example_collision)
                  (st_tf (ConstructBox (sdf.Box.mk (mkV 1 1 1))))) None] /\
    shapes s' =
      <[entityCount example_state :=
          mkShapeInfo (length (shapeNodes example_state))
                      (st_tf (ConstructBox (sdf.Box.mk (mkV 1 1 1))))]>
        (shapes example_state) /\
    entityCount s' = S (entityCount example_state) /\
    cerr s' = cerr example_state /\
    same_bodies example_state s'.
Proof.
  apply (proj2 (proj2 (proj2 (collision_shape_node 1 example_collision
                                                    example_state)))
           example_box_geometry (ConstructBox (sdf.Box.mk (mkV 1 1 1)))
           example_state (BoxShape (mkV 1 1 1)) 0);
    reflexivity.
Defined.

Lemma visual_shape_node_witness :
  exists s',
    SDFFeatures.ConstructSdfVisual 1 example_visual example_state
      = Some (ValidId (entityCount example_state), s') /\
    shapeNodes s' =
      shapeNodes example_state ++
      [mkShapeNode 0
         (getName (bodyNodes example_state) 0 +:+ "_visual_"
          +:+ sdf.Visual.Name example_visual)
         (BoxShape (mkV 1 1 1)) VisualAspect
         (compose (sdf.Visual.Pose example_visual)
                  (st_tf (ConstructBox (sdf.Box.mk (mkV 1 1 1)))))
         (sdf.Material.Ambient <$> sdf.Visual.Material example_visual)] /\
    shapes s' =
      <[entityCount example_state :=
          mkShapeInfo (length (shapeNodes example_state))
                      (st_tf (ConstructBox (sdf.Box.mk (mkV 1 1 1))))]>
        (shapes example_state) /\
    entityCount s' = S (entityCount example_state) /\
    cerr s' = cerr example_state /\
    same_bodies example_state s'.
Proof.
  apply (proj2 (proj2 (proj2 (visual_shape_node 1 example_visual
                                                 example_state)))
           example_box_geometry (ConstructBox (sdf.Box.mk (mkV 1 1 1)))
           example_state (BoxShape (mkV 1 1 1)) 0);
    reflexivity.
Defined.

Lemma link_body_placement_witness :
  let s := example_fresh_state in
  let l := example_shaped_link in
  exists s' bn,
    SDFFeatures.ConstructSdfLink example_jointTransform 0 l s
      = Some (ValidId (entityCount s), s') /\
    bodyNodes s' = bodyNodes s ++ [bn] /\
    bodyName bn = sdf.Link.Name l /\
    bodySkeleton bn = 0 /\
    parentBodyNode bn = None /\
    jointKind (parentJoint bn) = FreeJoint /\
    jointName (parentJoint bn) = sdf.Link.Name l +:+ "_FreeJoint" /\
    links s' !! entityCount s = Some (length (bodyNodes s)) /\
    joints s' !! S (entityCount s) = Some (length (bodyNodes s)) /\
    getWorldTransform example_jointTransform (bodyNodes s')
                      (length (bodyNodes s)) =
      compose (if decide (sdf.Link.PoseFrame l = "")
               then SimpleFrame_getWorldTransform example_jointTransform s 0
               else Isometry3d_Identity)
              (sdf.Link.Pose l) /\
    (forall b, b < length (bodyNodes s) ->
               getWorldTransform example_jointTransform (bodyNodes s') b
                 = getWorldTransform example_jointTransform (bodyNodes s) b).
Proof.
  intros s l.
  apply (link_body_placement example_jointTransform 0 l s (mkModelInfo 0 0)
           (mkSimpleFrame "model_frame" None (mkT MIdentity (mkV 0 0 2)))).
  - reflexivity.
  - reflexivity.
  - apply tree_of_roots. intros b. reflexivity.
  - discriminate.
Defined.

Lemma link_body_inertia_witness :
  let s := example_fresh_state in
  let l := example_shaped_link in
  exists s' bn,
    SDFFeatures.ConstructSdfLink example_jointTransform 0 l s
      = Some (ValidId (entityCount s), s') /\
    bodyNodes s' !! length (bodyNodes s) = Some bn /\
    mMass (mInertia bn) = sdf.Inertial.Mass (sdf.Link.Inertial l) /\
    mLocalCOM (mInertia bn) = sdf.Inertial.PosePos (sdf.Link.Inertial l) /\
    (let R_inertial := sdf.Inertial.PoseRot (sdf.Link.Inertial l) in
     let Moi := sdf.Inertial.Moi (sdf.Link.Inertial l) in
     mMoment (mInertia bn) = mmul (mmul R_inertial Moi) (transpose R_inertial) /\
     (transpose Moi = Moi ->
      transpose (mMoment (mInertia bn)) = mMoment (mInertia bn))).
Proof.
  intros s l.
  apply (link_body_inertia example_jointTransform 0 l s (mkModelInfo 0 0)).
  - reflexivity.
  - exact is_rotation_MIdentity.
Defined.

Lemma link_shape_nodes_witness :
  let s := example_fresh_state in
  let l := example_shaped_link in
  exists s' tail,
    SDFFeatures.ConstructSdfLink example_jointTransform 0 l s
      = Some (ValidId (entityCount s), s') /\
    shapeNodes s' = shapeNodes s ++ tail /\
    Forall (fun sn => shapeOwner sn = length (bodyNodes s)) tail /\
    length tail =
      length (filter (fun c => collision_has_shape c = true)
                     (sdf.Link.Collisions l))
      + length (filter (fun v => visual_has_shape v = true)
                       (sdf.Link.Visuals l)).
Proof.
  intros s l.
  apply (link_shape_nodes example_jointTransform 0 l s (mkModelInfo 0 0)).
  reflexivity.
Defined.

Lemma unsupported_joint_type_witness :
  let s := example_state in
  exists s' msg older,
    SDFFeatures.ConstructSdfJoint example_jointTransform (mkModelInfo 0 0)
                                  example_gearbox (Some 0) (Some 1) s
      = Some (InvalidId, s') /\
    cerr s' = msg :: older /\
    bodyNodes s' = bodyNodes s /\
    joints s' = joints s /\
    links s' = links s /\
    entityCount s' = entityCount s.
Proof.
  intros s.
  apply (unsupported_joint_type example_jointTransform (mkModelInfo 0 0)
           example_gearbox 0 1 s).
  - reflexivity.
  - right. right. left. reflexivity.
Defined.

Lemma joint_without_axis_witness :
  SDFFeatures.ConstructSdfJoint example_jointTransform (mkModelInfo 0 0)
                                example_bare_revolute (Some 0) (Some 1)
                                example_state = None.
Proof.
  apply (joint_without_axis example_jointTransform (mkModelInfo 0 0)
           example_bare_revolute 0 1 example_state).
  - reflexivity.
  - left. split; [right; left; reflexivity | reflexivity].
Defined.

Lemma ball_and_fixed_joints_witness :
  let s := example_state in
  let j := example_ball in
  exists s' bn',
    SDFFeatures.ConstructSdfJoint example_jointTransform (mkModelInfo 0 0)
                                  j (Some 0) (Some 1) s
      = Some (ValidId (entityCount s), s') /\
    bodyNodes s' !! 1 = Some bn' /\
    parentBodyNode bn' = Some 0 /\
    jointName (parentJoint bn') = sdf.Joint.Name j /\
    jointKind (parentJoint bn')
      = match sdf.Joint.Type_ j with
        | sdf.BALL => BallJoint
        | _ => WeldJoint
        end /\
    jointProperties (parentJoint bn')
      = defaultPropertiesOf (jointKind (parentJoint bn')) /\
    mPositions (parentJoint bn')
      = Coordinates match sdf.Joint.Type_ j with
                    | sdf.BALL => [0; 0; 0]%float
                    | _ => []
                    end.
Proof.
  intros s j.
  apply (ball_and_fixed_joints example_jointTransform (mkModelInfo 0 0)
           j 0 1 s (example_body "arm" (mkT MIdentity (mkV 1 0 0)))).
  - reflexivity.
  - reflexivity.
  - left. reflexivity.
Defined.

Lemma universal_axis_arrays_witness :
  let a0 := example_axis in
  let a1 := example_axis_model_frame in
  exists props,
    UniversalProperties Isometry3d_Identity example_universal
                        Isometry3d_Identity = Some props /\
    mInitialPositions props
      = [sdf.JointAxis.InitialPosition a0; sdf.JointAxis.InitialPosition a1] /\
    mDampingCoefficients props
      = [sdf.JointAxis.Damping a0; sdf.JointAxis.Damping a1] /\
    mFrictions props
      = [sdf.JointAxis.Friction a0; sdf.JointAxis.Friction a1] /\
    mRestPositions props
      = [sdf.JointAxis.SpringReference a0; sdf.JointAxis.SpringReference a1] /\
    mSpringStiffnesses props
      = [sdf.JointAxis.SpringStiffness a0; sdf.JointAxis.SpringStiffness a1] /\
    mPositionLowerLimits props
      = [sdf.JointAxis.Lower a0; sdf.JointAxis.Lower a1] /\
    mPositionUpperLimits props
      = [sdf.JointAxis.Upper a0; sdf.JointAxis.Upper a1] /\
    mForceLowerLimits props
      = [(- infIfNeg (sdf.JointAxis.Effort a0))%float;
         (- infIfNeg (sdf.JointAxis.Effort a1))%float] /\
    mForceUpperLimits props
      = [infIfNeg (sdf.JointAxis.Effort a0);
         infIfNeg (sdf.JointAxis.Effort a1)] /\
    mVelocityLowerLimits props
      = [(- infIfNeg (sdf.JointAxis.MaxVelocity a0))%float;
         (- infIfNeg (sdf.JointAxis.MaxVelocity a1))%float] /\
    mVelocityUpperLimits props
      = [infIfNeg (sdf.JointAxis.MaxVelocity a0);
         infIfNeg (sdf.JointAxis.MaxVelocity a1)].
Proof.
  intros a0 a1.
  apply (universal_axis_arrays Isometry3d_Identity example_universal
           Isometry3d_Identity a0 a1); reflexivity.
Defined.

Lemma example_revolute_built :
  exists s',
    SDFFeatures.ConstructSdfJoint example_jointTransform (mkModelInfo 0 0)
                                  example_revolute (Some 0) (Some 1)
                                  example_state
      = Some (ValidId (entityCount example_state), s').
Proof.
  edestruct (ConstructSdfJoint_run example_jointTransform (mkModelInfo 0 0)
               example_revolute 0 1 example_state RevoluteJoint)
    as (s' & Hrun & _); [reflexivity | reflexivity | reflexivity |].
  now exists s'.
Qed.

Lemma joint_registration_witness :
  let s := example_state in
  let j := example_revolute in
  exists id s',
    SDFFeatures.ConstructSdfJoint example_jointTransform (mkModelInfo 0 0)
                                  j (Some 0) (Some 1) s
      = Some (ValidId id, s') /\
    exists p c,
      Some 0 = Some p /\ Some 1 = Some c /\
      id = entityCount s /\ entityCount s' = S (entityCount s) /\
      joints s' = <[id := c]> (joints s) /\
      links s' = links s /\ models s' = models s /\
      simpleFrames s' = simpleFrames s /\ skeletons s' = skeletons s /\
      shapeNodes s' = shapeNodes s /\ shapes s' = shapes s /\
      length (bodyNodes s') = length (bodyNodes s) /\
      (forall b, b <> c -> bodyNodes s' !! b = bodyNodes s !! b) /\
      (forall bn, bodyNodes s !! c = Some bn ->
         exists bn',
           bodyNodes s' !! c = Some bn' /\
           bodyName bn' = bodyName bn /\
           bodySkeleton bn' = bodySkeleton bn /\
           mInertia bn' = mInertia bn /\
           parentBodyNode bn' = Some p /\
           jointName (parentJoint bn') = sdf.Joint.Name j /\
           jointKindOf (sdf.Joint.Type_ j)
             = Some (jointKind (parentJoint bn'))).
Proof.
  intros s j. destruct example_revolute_built as (s' & Hrun).
  exists (entityCount s), s'. split; [exact Hrun |].
  exact (joint_registration example_jointTransform (mkModelInfo 0 0) j
           (Some 0) (Some 1) s (entityCount s) s' Hrun).
Defined.

Lemma joint_by_link_names_witness :
  exists msg,
    SDFFeatures.ConstructSdfJoint_byName example_jointTransform 0
                                         example_anchor example_state
      = Some (InvalidId, set_cerr (cons msg) example_state).
Proof.
  apply (proj1 (joint_by_link_names example_jointTransform 0
                  example_anchor example_state (mkModelInfo 0 0) eq_refl)).
  left. reflexivity.
Defined.

Lemma model_skeleton_and_frame_witness :
  let s := example_populated_state in
  let m := example_jointless_model in
  exists r s',
    SDFFeatures.ConstructSdfModel example_jointTransform 0 m s = Some (r, s') /\
    r = ValidId (entityCount s) /\
    models s' !! entityCount s
      = Some (mkModelInfo (length (skeletons s)) (length (simpleFrames s))) /\
    skeletons s' =
      skeletons s ++
      [mkSkeleton (sdf.Model.Name m) (negb (sdf.Model.Static m))
                  (sdf.Model.SelfCollide m)] /\
    length (simpleFrames s') = S (length (simpleFrames s)) /\
    (forall f', f' < length (simpleFrames s) ->
                simpleFrames s' !! f' = simpleFrames s !! f') /\
    (exists sf, simpleFrames s' !! length (simpleFrames s) = Some sf /\
                frameName sf = sdf.Model.Name m +:+ "_frame").
Proof.
  intros s m.
  destruct (ConstructSdfModel_total example_jointTransform 0 m s eq_refl)
    as (r & s' & E).
  exists r, s'. split; [exact E |].
  exact (model_skeleton_and_frame example_jointTransform 0 m s r s' E).
Defined.

Lemma model_links_built_witness :
  let s := example_populated_state in
  let m := example_jointless_model in
  let skel := length (skeletons s) in
  exists r s',
    SDFFeatures.ConstructSdfModel example_jointTransform 0 m s = Some (r, s') /\
    (forall l, l ∈ sdf.Model.Links m ->
       exists b bn, bodyNodes s' !! b = Some bn /\ bodySkeleton bn = skel /\
                    bodyName bn = sdf.Link.Name l) /\
    (forall b bn, bodyNodes s' !! b = Some bn -> bodySkeleton bn = skel ->
       exists l, l ∈ sdf.Model.Links m /\ sdf.Link.Name l = bodyName bn) /\
    (forall b1 b2 bn1 bn2,
       bodyNodes s' !! b1 = Some bn1 -> bodyNodes s' !! b2 = Some bn2 ->
       bodySkeleton bn1 = skel -> bodySkeleton bn2 = skel ->
       bodyName bn1 = bodyName bn2 -> b1 = b2).
Proof.
  intros s m skel.
  destruct (ConstructSdfModel_total example_jointTransform 0 m s eq_refl)
    as (r & s' & E).
  exists r, s'. split; [exact E |].
  exact (model_links_built example_jointTransform 0 m s r s' eq_refl E).
Defined.

Lemma model_isolation_witness :
  let s := example_populated_state in
  let m := example_jointless_model in
  exists r s',
    SDFFeatures.ConstructSdfModel example_jointTransform 0 m s = Some (r, s') /\
    (forall b, b < length (bodyNodes s) ->
               bodyNodes s' !! b = bodyNodes s !! b) /\
    length (bodyNodes s) <= length (bodyNodes s') /\
    (forall b bn, length (bodyNodes s) <= b -> bodyNodes s' !! b = Some bn ->
                  bodySkeleton bn = length (skeletons s)) /\
    (tree (bodyNodes s) ->
     forall b, b < length (bodyNodes s) ->
       getWorldTransform example_jointTransform (bodyNodes s') b
         = getWorldTransform example_jointTransform (bodyNodes s) b).
Proof.
  intros s m.
  destruct (ConstructSdfModel_total example_jointTransform 0 m s eq_refl)
    as (r & s' & E).
  exists r, s'. split; [exact E |].
  exact (model_isolation example_jointTransform 0 m s r s' eq_refl E).
Defined.

Lemma example_state_in_skeletons : bodies_in_skeletons example_state.
Proof.
  intros b bn Hb. destruct b as [| [| b]]; cbn in Hb; try discriminate;
    injection Hb as <-; cbn; lia.
Qed.

(** The joints of the concrete world declare the axes that they need. *)
Lemma example_model_axes j :
  j ∈ sdf.Model.Joints example_model -> axes_present j.
Proof.
  intros Hj. apply list_elem_of_singleton in Hj as ->.
  unfold axes_present. cbn. discriminate.
Qed.

Lemma example_world_axes m j :
  m ∈ sdf.World.Models example_world -> j ∈ sdf.Model.Joints m ->
  axes_present j.
Proof.
  intros Hm Hj. unfold example_world in Hm. cbn in Hm.
  apply elem_of_cons in Hm as [-> | Hm].
  - now apply elem_of_nil in Hj.
  - apply list_elem_of_singleton in Hm as ->. now apply example_model_axes.
Qed.

Lemma assemblers_return_witness :
  (exists r s',
     SDFFeatures.ConstructSdfModel example_jointTransform 0 example_model
       example_populated_state = Some (r, s')) /\
  (exists r s',
     SDFFeatures.ConstructSdfWorld example_jointTransform example_world
       example_state = Some (r, s')).
Proof.
  destruct (assemblers_return example_jointTransform) as [Hm Hw].
  split.
  - apply Hm; [| exact example_model_axes].
    now exists (mkWorld "world" (mkV 0 0 (-10)) [0]).
  - apply Hw. exact example_world_axes.
Defined.

Lemma world_assembly_witness :
  let s := example_state in
  let w := example_world in
  exists r s',
    SDFFeatures.ConstructSdfWorld example_jointTransform w s = Some (r, s') /\
    r = ValidId (entityCount s) /\
    skeletons s' = skeletons s ++ (skeletonOf <$> sdf.World.Models w) /\
    length (simpleFrames s')
      = length (simpleFrames s) + sdf.World.ModelCount w /\
    (forall b, b < length (bodyNodes s) ->
               bodyNodes s' !! b = bodyNodes s !! b) /\
    bodies_in_skeletons s' /\
    (forall i mdl l,
       sdf.World.Models w !! i = Some mdl -> l ∈ sdf.Model.Links mdl ->
       exists b bn, bodyNodes s' !! b = Some bn /\
                    bodySkeleton bn = length (skeletons s) + i /\
                    bodyName bn = sdf.Link.Name l).
Proof.
  intros s w.
  destruct (ConstructSdfWorld_returns example_jointTransform w s
              example_world_axes) as (r & s' & E).
  exists r, s'. split; [exact E |].
  exact (world_assembly example_jointTransform w s r s'
           example_state_in_skeletons E).
Defined.

